(** * Dominant-share allocator (master/dominant_share_allocator.cpp)

    A shallow embedding of the allocation and offer subsystem of the
    master: the resource ledger, the refusal filters, the fairness
    comparator and the allocation pass, followed by the properties of
    the specification that concern them.

    Conventions of the embedding.
    - The value of a C++ [double] is a rational ([Qc], canonical fractions
      with Leibniz equality).  Comparisons and [std::max] are exact on
      such values; the one arithmetic operation that the source performs
      on doubles, the division of the comparator, rounds its result to
      the nearest double ([double_div]).
    - [hashmap<K, V>] is a [gmap K V], [hashset<K>] a [gset K].  The
      iteration order of a hash map is unspecified in C++; wherever the
      source iterates one, the model iterates [map_to_list].
    - [CHECK(c)] aborts the process when [c] is false: every entry point
      returns a [result], either [Ok] with the new state and the offers
      dispatched to the master, or [CheckFailed].
    - The clock ([Clock::now()]) is an explicit argument [now]. *)

From Stdlib Require Import QArith Qcanon.
From stdpp Require Import gmap strings list fin_maps numbers sorting.

Local Open Scope Qc_scope.

(** ** Outcome of an entry point *)

Inductive result (A : Type) : Type :=
| Ok (a : A)
| CheckFailed (what : string).
Arguments Ok {A} a.
Arguments CheckFailed {A} what.

Global Instance result_ret : MRet result := λ A a, Ok a.
Global Instance result_bind : MBind result := λ A B k r,
  match r with
  | Ok a => k a
  | CheckFailed w => CheckFailed w
  end.

Definition CHECK (c : bool) (what : string) : result unit :=
  if c then Ok tt else CheckFailed what.

Global Instance result_eq_dec {A : Type} `{EqDecision A} : EqDecision (result A).
Proof. solve_decision. Defined.

(** ** Identifiers

    [FrameworkID] and [SlaveID] wrap a string; [operator <] on
    [FrameworkID] compares the wrapped strings, byte by byte. *)

Abbreviation FrameworkID := string (only parsing).
Abbreviation SlaveID := string (only parsing).

Definition FrameworkID_lt (frameworkId1 frameworkId2 : FrameworkID) : bool :=
  String.ltb frameworkId1 frameworkId2.

(** ** Scalars *)

Definition Qcleb (x y : Qc) : bool := bool_decide (x ≤ y).
Definition Qcltb (x y : Qc) : bool := bool_decide (x < y).

(** [std::max] on doubles: [(a < b) ? b : a]. *)
Definition Qcmax (a b : Qc) : Qc := if Qcltb a b then b else a.

(** ** Double arithmetic

    [x / y] on doubles is the exact quotient rounded to the nearest
    value of the binary64 format, a tie going to the value with an even
    significand (IEEE 754, the default rounding mode).  A finite double
    is [m * 2 ^ e] with [m < 2 ^ 53] and [-1074 ≤ e]; the overflow to
    infinity is not modelled (quotients are taken to stay below
    [2 ^ 1024]). *)

(** The integer nearest to [p / q], for [0 ≤ p] and [0 < q], a tie going
    to the even one. *)
Definition nearest_even (p q : Z) : Z :=
  let d := (p / q)%Z in
  let r := (p mod q)%Z in
  if (2 * r <? q)%Z then d
  else if (q <? 2 * r)%Z then (d + 1)%Z
  else if Z.even d then d else (d + 1)%Z.

(** [(p / q) / 2 ^ e] as a fraction. *)
Definition double_scale (p q e : Z) : Z * Z :=
  if (0 <=? e)%Z then (p, (q * 2 ^ e)%Z) else ((p * 2 ^ (- e))%Z, q).

(** The exponent of the double nearest to [p / q]: the [e] with
    [2 ^ 52 ≤ (p / q) / 2 ^ e < 2 ^ 53], and [-1074] for the values
    below the normal range. *)
Definition double_exponent (p q : Z) : Z :=
  let e0 := (Z.log2 p - Z.log2 q - 52)%Z in
  let '(n, d) := double_scale p q e0 in
  let e := if (n <? 2 ^ 52 * d)%Z then (e0 - 1)%Z else e0 in
  Z.max e (-1074).

(** The double nearest to the positive rational [p / q]. *)
Definition double_of_pos (p q : positive) : Q :=
  let e := double_exponent (Zpos p) (Zpos q) in
  let '(n, d) := double_scale (Zpos p) (Zpos q) e in
  let m := nearest_even n d in
  if (0 <=? e)%Z then inject_Z (m * 2 ^ e) else Qmake m (Z.to_pos (2 ^ (- e))).

(** The double nearest to a rational. *)
Definition double_round (x : Qc) : Qc :=
  match Qnum x with
  | Z0 => 0
  | Zpos p => Q2Qc (double_of_pos p (Qden x))
  | Zneg p => - Q2Qc (double_of_pos p (Qden x))
  end.

(** [x / y] on doubles. *)
Definition double_div (x y : Qc) : Qc := double_round (x / y).

(** ** Resource vectors *)

(** Modelled from the spec: the [Resources] class of
    common/resources.hpp, with its operations below.  A resource vector
    is a finite map from resource name to a typed value, the value being
    a scalar, a set of integers (the union of the intervals of a ranged
    value) or a set of strings.  An entry is identified by its name and
    its type, as each [Resource] carries both [name()] and [type()]; the
    vector is therefore kept as one map per type. *)
Record Resources : Type := mkResources {
  scalars : gmap string Qc;
  ranges : gmap string (gset Z);
  sets : gmap string (gset string)
}.

Global Instance Resources_eq_dec : EqDecision Resources.
Proof. solve_decision. Defined.

Definition Resources_empty : Resources := mkResources ∅ ∅ ∅.

(** Modelled from the spec: [Resources::get(name, default)], the scalar
    named [name], or the default (a zero [Value::Scalar]) when the
    vector has no such scalar. *)
Definition Resources_get (r : Resources) (name : string) : Qc :=
  default 0 (scalars r !! name).

(** Modelled from the spec: [Resources::size()], the number of entries. *)
Definition Resources_size (r : Resources) : nat :=
  (size (scalars r) + size (ranges r) + size (sets r))%nat.

(** Modelled from the spec: [+] is componentwise. *)
Definition Resources_add (a b : Resources) : Resources :=
  mkResources
    (union_with (λ x y, Some (x + y)) (scalars a) (scalars b))
    (union_with (λ x y, Some (x ∪ y)) (ranges a) (ranges b))
    (union_with (λ x y, Some (x ∪ y)) (sets a) (sets b)).

(** Modelled from the spec: [-] is componentwise, a scalar result being
    clamped at zero; an entry of [b] with no counterpart in [a] has
    nothing to be subtracted from. *)
Definition Resources_sub (a b : Resources) : Resources :=
  mkResources
    (difference_with (λ x y, Some (Qcmax 0 (x - y))) (scalars a) (scalars b))
    (difference_with (λ x y, Some (x ∖ y)) (ranges a) (ranges b))
    (difference_with (λ x y, Some (x ∖ y)) (sets a) (sets b)).

(** Modelled from the spec: [≤] is componentwise, [≤] on scalars and
    inclusion on ranges and sets; an entry absent on the right counts as
    zero, respectively as the empty set. *)
Definition Resources_le (a b : Resources) : bool :=
  bool_decide (map_Forall (λ name x, x ≤ Resources_get b name) (scalars a))
  && bool_decide (map_Forall (λ name x, x ⊆ default ∅ (ranges b !! name)) (ranges a))
  && bool_decide (map_Forall (λ name x, x ⊆ default ∅ (sets b !! name)) (sets a)).

Section Allocator.

(** Constants that the allocator takes from headers: the threshold of
    [Resources::allocatable()], the two thresholds of the allocation
    pass ([MIN_CPUS], [MIN_MEM]) and the default of
    [Filters::refuse_seconds].  The development holds for any values. *)
Variable EPSILON : Qc.
Variable MIN_CPUS : Qc.
Variable MIN_MEM : Qc.
Variable DEFAULT_REFUSE_SECONDS : Qc.

(** Modelled from the spec: [Resources::allocatable()] drops the scalar
    entries that are not above the threshold; the other entries are
    kept as they are. *)
Definition Resources_allocatable (r : Resources) : Resources :=
  mkResources (filter (λ kv, EPSILON < kv.2) (scalars r)) (ranges r) (sets r).

(** ** Messages *)

Record FrameworkInfo : Type := mkFrameworkInfo {
  framework_user : string;
  framework_name : string
}.

Global Instance FrameworkInfo_eq_dec : EqDecision FrameworkInfo.
Proof. solve_decision. Defined.

Record SlaveInfo : Type := mkSlaveInfo {
  hostname : string;
  slave_resources : Resources
}.

Global Instance SlaveInfo_eq_dec : EqDecision SlaveInfo.
Proof. solve_decision. Defined.

(** A pair of resource vectors, the expected and the minimum one; the
    allocator reads and writes [expectedResources] only. *)
Record ResourceHints : Type := mkResourceHints {
  expectedResources : Resources;
  minResources : Resources
}.

Global Instance ResourceHints_eq_dec : EqDecision ResourceHints.
Proof. solve_decision. Defined.

(** The [Filters] message: an optional field with a default value. *)
Record Filters : Type := mkFilters {
  refuse_seconds_field : option Qc
}.

Definition refuse_seconds (f : Filters) : Qc :=
  default DEFAULT_REFUSE_SECONDS (refuse_seconds_field f).

(** ** Refusal filters *)

(** Modelled from the spec: a [Timeout] built from a duration holds the
    deadline, the time of its creation plus the duration; what remains
    of it is the distance from the current time to the deadline. *)
Record Timeout : Type := mkTimeout { deadline : Qc }.

(** Modelled from the spec: the [Timeout] made at time [now] from a
    duration in seconds. *)
Definition Timeout_in (now seconds : Qc) : Timeout := mkTimeout (now + seconds).

(** Modelled from the spec: [Timeout::remaining()] at time [now]. *)
Definition Timeout_remaining (now : Qc) (t : Timeout) : Qc := deadline t - now.

Global Instance Timeout_eq_dec : EqDecision Timeout.
Proof. solve_decision. Defined.

(** A [RefusedFilter] object.  The registry holds pointers and compares
    them; [filter_addr] stands for the address of the object.  The
    registry of a [State] holds the filters that are alive, each with
    its address; the pointers that the multihashmap keeps to filters
    that have been deleted are counted apart, in [Process]. *)
Record RefusedFilter : Type := mkRefusedFilter {
  filter_addr : nat;
  filter_slaveId : SlaveID;
  filter_resources : Resources;
  filter_timeout : Timeout
}.

Global Instance RefusedFilter_eq_dec : EqDecision RefusedFilter.
Proof. solve_decision. Defined.

Definition RefusedFilter_filter (this : RefusedFilter) (now : Qc)
    (slaveId : SlaveID) (resources : Resources) : bool :=
  bool_decide (slaveId = filter_slaveId this)
  && Resources_le resources (filter_resources this)
  && Qcltb 0 (Timeout_remaining now (filter_timeout this)).

(** ** The fairness comparator *)

(** One turn of the loop of [DominantShareComparator::operator()] over
    the scalar entries of the cluster total. *)
Definition share_step (allocated1 allocated2 : Resources)
    (shares : Qc * Qc) (resource : string * Qc) : Qc * Qc :=
  let total := resource.2 in
  if Qcltb 0 total then
    let scalar1 := Resources_get allocated1 resource.1 in
    let scalar2 := Resources_get allocated2 resource.1 in
    (Qcmax shares.1 (double_div scalar1 total),
     Qcmax shares.2 (double_div scalar2 total))
  else shares.

(** [allocated[frameworkId]] on a hash map: the entry, a default
    constructed one when there is none. *)
Definition allocated_of (allocated : gmap FrameworkID Resources)
    (frameworkId : FrameworkID) : Resources :=
  default Resources_empty (allocated !! frameworkId).

Definition DominantShareComparator (resources : Resources)
    (allocated : gmap FrameworkID Resources)
    (frameworkId1 frameworkId2 : FrameworkID) : bool :=
  let shares :=
    foldl (share_step (allocated_of allocated frameworkId1)
                      (allocated_of allocated frameworkId2))
          (0, 0) (map_to_list (scalars resources)) in
  if bool_decide (shares.1 = shares.2)
  then FrameworkID_lt frameworkId1 frameworkId2
  else Qcltb shares.1 shares.2.

(** [std::sort] with a comparator.  The comparator of the allocator is a
    strict total order on framework ids (see [comparator_trichotomy] and
    [comparator_trans] below), so the sorted sequence is determined by
    the set of ids; an insertion sort computes it. *)
Fixpoint insert_by {A : Type} (lt : A → A → bool) (x : A) (l : list A) : list A :=
  match l with
  | [] => [x]
  | y :: l' => if lt y x then y :: insert_by lt x l' else x :: l
  end.

Definition sort_by {A : Type} (lt : A → A → bool) (l : list A) : list A :=
  foldr (insert_by lt) [] l.

(** ** The state of the allocator *)

Record State : Type := mkState {
  initialized : bool;
  frameworks : gmap FrameworkID FrameworkInfo;
  allocated : gmap FrameworkID Resources;
  slaves : gmap SlaveID SlaveInfo;
  resources : Resources;
  allocatable : gmap SlaveID Resources;
  whitelist : option (gset string);
  filters : gmap FrameworkID (list RefusedFilter);
  next_addr : nat
}.

Global Instance State_eq_dec : EqDecision State.
Proof. solve_decision. Defined.

Definition set_initialized (v : bool) (s : State) : State :=
  mkState v (frameworks s) (allocated s) (slaves s) (resources s)
          (allocatable s) (whitelist s) (filters s) (next_addr s).
Definition set_frameworks (v : gmap FrameworkID FrameworkInfo) (s : State) : State :=
  mkState (initialized s) v (allocated s) (slaves s) (resources s)
          (allocatable s) (whitelist s) (filters s) (next_addr s).
Definition set_allocated (v : gmap FrameworkID Resources) (s : State) : State :=
  mkState (initialized s) (frameworks s) v (slaves s) (resources s)
          (allocatable s) (whitelist s) (filters s) (next_addr s).
Definition set_slaves (v : gmap SlaveID SlaveInfo) (s : State) : State :=
  mkState (initialized s) (frameworks s) (allocated s) v (resources s)
          (allocatable s) (whitelist s) (filters s) (next_addr s).
Definition set_resources (v : Resources) (s : State) : State :=
  mkState (initialized s) (frameworks s) (allocated s) (slaves s) v
          (allocatable s) (whitelist s) (filters s) (next_addr s).
Definition set_allocatable (v : gmap SlaveID Resources) (s : State) : State :=
  mkState (initialized s) (frameworks s) (allocated s) (slaves s) (resources s)
          v (whitelist s) (filters s) (next_addr s).
Definition set_whitelist (v : option (gset string)) (s : State) : State :=
  mkState (initialized s) (frameworks s) (allocated s) (slaves s) (resources s)
          (allocatable s) v (filters s) (next_addr s).
Definition set_filters (v : gmap FrameworkID (list RefusedFilter)) (s : State) : State :=
  mkState (initialized s) (frameworks s) (allocated s) (slaves s) (resources s)
          (allocatable s) (whitelist s) v (next_addr s).
Definition set_next_addr (v : nat) (s : State) : State :=
  mkState (initialized s) (frameworks s) (allocated s) (slaves s) (resources s)
          (allocatable s) (whitelist s) (filters s) v.

(** The state of a freshly constructed allocator. *)
Definition State_new : State :=
  mkState false ∅ ∅ ∅ Resources_empty ∅ None ∅ 0.

(** [m[key] += r] and [m[key] -= r] on a hash map of resource vectors;
    [operator[]] makes the entry when there is none. *)
Definition add_at (key : string) (r : Resources) (m : gmap string Resources)
    : gmap string Resources :=
  <[key := Resources_add (default Resources_empty (m !! key)) r]> m.

Definition sub_at (key : string) (r : Resources) (m : gmap string Resources)
    : gmap string Resources :=
  <[key := Resources_sub (default Resources_empty (m !! key)) r]> m.

(** [filters.get(frameworkId)]: the filters of a framework. *)
Definition filters_get (s : State) (frameworkId : FrameworkID) : list RefusedFilter :=
  default [] (filters s !! frameworkId).

(** The loop over the filters of a framework in the allocation pass:
    is there one that filters this slave and these resources? *)
Definition filtered (s : State) (now : Qc) (frameworkId : FrameworkID)
    (slaveId : SlaveID) (resources : Resources) : bool :=
  existsb (λ filter, RefusedFilter_filter filter now slaveId resources)
          (filters_get s frameworkId).

(** An offer dispatched to the master: [Master::offer(frameworkId, offerable)]. *)
Definition Offer : Type := FrameworkID * gmap SlaveID ResourceHints.

(** ** The filter registry ([multihashmap<FrameworkID, Filter*>]) *)

(** [filters.put(frameworkId, filter)]. *)
Definition filters_put (frameworkId : FrameworkID) (filter : RefusedFilter)
    (m : gmap FrameworkID (list RefusedFilter)) : gmap FrameworkID (list RefusedFilter) :=
  <[frameworkId := default [] (m !! frameworkId) ++ [filter]]> m.

(** [filters.contains(frameworkId, filter)], on the address. *)
Definition filters_contains (frameworkId : FrameworkID) (addr : nat)
    (m : gmap FrameworkID (list RefusedFilter)) : bool :=
  existsb (λ f, bool_decide (filter_addr f = addr)) (default [] (m !! frameworkId)).

(** [filters.remove(frameworkId, filter)]: the pair goes, and with the
    last pair of a key the key. *)
Definition filters_remove_one (frameworkId : FrameworkID) (addr : nat)
    (m : gmap FrameworkID (list RefusedFilter)) : gmap FrameworkID (list RefusedFilter) :=
  match List.filter (λ f, negb (bool_decide (filter_addr f = addr)))
                    (default [] (m !! frameworkId)) with
  | [] => delete frameworkId m
  | l => <[frameworkId := l]> m
  end.

(** The loop shared by [frameworkRemoved], [frameworkDeactivated] and
    [offersRevived]: every filter of the framework is removed from the
    registry (and not deleted), then the key. *)
Definition remove_filters (frameworkId : FrameworkID) (s : State) : State :=
  let m := foldl (λ m filter, filters_remove_one frameworkId (filter_addr filter) m)
                 (filters s) (filters_get s frameworkId) in
  set_filters (delete frameworkId m) s.

(** ** The allocation pass *)

Definition isWhitelisted (s : State) (slaveId : SlaveID) : result bool :=
  CHECK (initialized s) "initialized";;
  match slaves s !! slaveId with
  | None => CheckFailed "slaves.contains(slaveId)"
  | Some info =>
      Ok (match whitelist s with
          | None => true
          | Some w => bool_decide (hostname info ∈ w)
          end)
  end.

(** One turn of the loop that collects the available resources. *)
Definition available_step (s : State) (slaveIds : gset SlaveID)
    (acc : result (gmap SlaveID Resources)) (entry : SlaveID * Resources)
    : result (gmap SlaveID Resources) :=
  available ← acc;
  if bool_decide (entry.1 ∈ slaveIds) then
    w ← isWhitelisted s entry.1;
    if (w : bool) then
      let resources := Resources_allocatable entry.2 in
      let cpus := Resources_get resources "cpus" in
      let mem := Resources_get resources "mem" in
      if Qcleb MIN_CPUS cpus && Qcltb MIN_MEM mem
      then Ok (<[entry.1 := resources]> available)
      else Ok available
    else Ok available
  else Ok available.

(** "Update framework and slave resources": the resources of the slave
    go from the free ones to the allocation of the framework. *)
Definition grant (frameworkId : FrameworkID) (entry : SlaveID * Resources)
    (s : State) : State :=
  set_allocatable (sub_at entry.1 entry.2 (allocatable s))
    (set_allocated (add_at frameworkId entry.2 (allocated s)) s).

(** One turn of the inner loop: the slave is offered to the framework
    unless one of its filters holds it back. *)
Definition offer_step (now : Qc) (frameworkId : FrameworkID)
    (acc : gmap SlaveID ResourceHints * State) (entry : SlaveID * Resources)
    : gmap SlaveID ResourceHints * State :=
  let '(offerable, s) := acc in
  if filtered s now frameworkId entry.1 entry.2 then acc
  else
    (<[entry.1 := mkResourceHints entry.2 Resources_empty]> offerable,
     grant frameworkId entry s).

(** One turn of the outer loop: the offers of one framework. *)
Definition framework_step (now : Qc)
    (acc : gmap SlaveID Resources * State * list Offer) (frameworkId : FrameworkID)
    : gmap SlaveID Resources * State * list Offer :=
  let '(available, s, offers) := acc in
  let '(offerable, s') :=
    foldl (offer_step now frameworkId) (∅, s) (map_to_list available) in
  if bool_decide (0 < size offerable)%nat then
    (foldl (λ available slaveId, delete slaveId available) available
           (map_to_list offerable).*1,
     s', offers ++ [(frameworkId, offerable)])
  else (available, s', offers).

(** The loop that collects the available resources of the slaves under
    consideration. *)
Definition collect_available (s : State) (slaveIds : gset SlaveID)
    : result (gmap SlaveID Resources) :=
  foldl (available_step s slaveIds) (Ok ∅) (map_to_list (allocatable s)).

(** The frameworks in the order of the comparator. *)
Definition sorted_frameworks (s : State) : list FrameworkID :=
  sort_by (DominantShareComparator (resources s) (allocated s))
          (map_to_list (frameworks s)).*1.

(** [allocate(const hashset<SlaveID>&)]. *)
Definition allocate_slaves (now : Qc) (slaveIds : gset SlaveID) (s : State)
    : result (State * list Offer) :=
  CHECK (initialized s) "initialized";;
  if bool_decide (size (frameworks s) = 0%nat) then Ok (s, [])
  else
    let frameworkIds := sorted_frameworks s in
    available ← collect_available s slaveIds;
    if bool_decide (size available = 0%nat) then Ok (s, [])
    else
      let '(_, s', offers) := foldl (framework_step now) (available, s, []) frameworkIds in
      Ok (s', offers).

(** [allocate()]. *)
Definition allocate (now : Qc) (s : State) : result (State * list Offer) :=
  CHECK (initialized s) "initialized";;
  allocate_slaves now (dom (slaves s)) s.

(** [allocate(const SlaveID&)]. *)
Definition allocate_slave (now : Qc) (slaveId : SlaveID) (s : State)
    : result (State * list Offer) :=
  CHECK (initialized s) "initialized";;
  allocate_slaves now {[slaveId]} s.

(** ** The entry points *)

Definition initialize (s : State) : State := set_initialized true s.

Definition frameworkAdded (now : Qc) (frameworkId : FrameworkID)
    (frameworkInfo : FrameworkInfo) (used : Resources) (s : State)
    : result (State * list Offer) :=
  CHECK (initialized s) "initialized";;
  CHECK (negb (bool_decide (is_Some (frameworks s !! frameworkId))))
        "!frameworks.contains(frameworkId)";;
  CHECK (negb (bool_decide (is_Some (allocated s !! frameworkId))))
        "!allocated.contains(frameworkId)";;
  allocate now
    (set_allocated (<[frameworkId := used]> (allocated s))
       (set_frameworks (<[frameworkId := frameworkInfo]> (frameworks s)) s)).

Definition frameworkRemoved (frameworkId : FrameworkID) (s : State)
    : result (State * list Offer) :=
  CHECK (initialized s) "initialized";;
  Ok (remove_filters frameworkId
        (set_allocated (delete frameworkId (allocated s))
           (set_frameworks (delete frameworkId (frameworks s)) s)), []).

Definition frameworkActivated (now : Qc) (frameworkId : FrameworkID)
    (frameworkInfo : FrameworkInfo) (s : State) : result (State * list Offer) :=
  CHECK (initialized s) "initialized";;
  CHECK (negb (bool_decide (is_Some (frameworks s !! frameworkId))))
        "!frameworks.contains(frameworkId)";;
  allocate now (set_frameworks (<[frameworkId := frameworkInfo]> (frameworks s)) s).

Definition frameworkDeactivated (frameworkId : FrameworkID) (s : State)
    : result (State * list Offer) :=
  CHECK (initialized s) "initialized";;
  Ok (remove_filters frameworkId
        (set_frameworks (delete frameworkId (frameworks s)) s), []).

(** One turn of the loop of [slaveAdded] over the resources in use. *)
Definition used_step (s : State)
    (acc : gmap FrameworkID Resources * Resources) (entry : FrameworkID * Resources)
    : gmap FrameworkID Resources * Resources :=
  ((if bool_decide (is_Some (frameworks s !! entry.1))
    then add_at entry.1 entry.2 acc.1 else acc.1),
   Resources_sub acc.2 entry.2).

Definition slaveAdded (now : Qc) (slaveId : SlaveID) (slaveInfo : SlaveInfo)
    (used : gmap FrameworkID Resources) (s : State) : result (State * list Offer) :=
  CHECK (initialized s) "initialized";;
  CHECK (negb (bool_decide (is_Some (slaves s !! slaveId))))
        "!slaves.contains(slaveId)";;
  let '(allocated', unused) :=
    foldl (used_step s) (allocated s, slave_resources slaveInfo) (map_to_list used) in
  allocate_slave now slaveId
    (set_allocatable (<[slaveId := unused]> (allocatable s))
       (set_allocated allocated'
          (set_resources (Resources_add (resources s) (slave_resources slaveInfo))
             (set_slaves (<[slaveId := slaveInfo]> (slaves s)) s)))).

Definition slaveRemoved (slaveId : SlaveID) (s : State) : result (State * list Offer) :=
  CHECK (initialized s) "initialized";;
  match slaves s !! slaveId with
  | None => CheckFailed "slaves.contains(slaveId)"
  | Some slaveInfo =>
      Ok (set_allocatable (delete slaveId (allocatable s))
            (set_slaves (delete slaveId (slaves s))
               (set_resources (Resources_sub (resources s) (slave_resources slaveInfo)) s)),
          [])
  end.

Definition updateWhitelist (_whitelist : option (gset string)) (s : State)
    : result (State * list Offer) :=
  CHECK (initialized s) "initialized";;
  Ok (set_whitelist _whitelist s, []).

Definition resourcesRequested (frameworkId : FrameworkID) (s : State)
    : result (State * list Offer) :=
  CHECK (initialized s) "initialized";;
  Ok (s, []).

Definition resourcesUnused (now : Qc) (frameworkId : FrameworkID) (slaveId : SlaveID)
    (resourceHints : ResourceHints) (_filters : option Filters) (s : State)
    : result (State * list Offer) :=
  let resources := expectedResources resourceHints in
  CHECK (initialized s) "initialized";;
  if bool_decide (Resources_size (Resources_allocatable resources) = 0%nat) then Ok (s, [])
  else
    CHECK (bool_decide (is_Some (allocated s !! frameworkId)))
          "allocated.contains(frameworkId)";;
    let s := set_allocated (sub_at frameworkId resources (allocated s)) s in
    CHECK (bool_decide (is_Some (allocatable s !! slaveId)))
          "allocatable.contains(slaveId)";;
    let s := set_allocatable (add_at slaveId resources (allocatable s)) s in
    let timeout :=
      match _filters with
      | Some f => refuse_seconds f
      | None => refuse_seconds (mkFilters None)
      end in
    if negb (bool_decide (timeout = 0)) then
      let filter :=
        mkRefusedFilter (next_addr s) slaveId resources (Timeout_in now timeout) in
      Ok (set_next_addr (S (next_addr s))
            (set_filters (filters_put frameworkId filter (filters s)) s), [])
    else Ok (s, []).

Definition resourcesRecovered (frameworkId : FrameworkID) (slaveId : SlaveID)
    (resourceHints : ResourceHints) (s : State) : result (State * list Offer) :=
  let resources := expectedResources resourceHints in
  CHECK (initialized s) "initialized";;
  if bool_decide (Resources_size (Resources_allocatable resources) = 0%nat) then Ok (s, [])
  else
    let s :=
      if bool_decide (is_Some (allocated s !! frameworkId))
      then set_allocated (sub_at frameworkId resources (allocated s)) s else s in
    let s :=
      if bool_decide (is_Some (allocatable s !! slaveId))
      then set_allocatable (add_at slaveId resources (allocatable s)) s else s in
    Ok (s, []).

Definition offersRevived (now : Qc) (frameworkId : FrameworkID) (s : State)
    : result (State * list Offer) :=
  CHECK (initialized s) "initialized";;
  allocate now (remove_filters frameworkId s).

Definition batch (now : Qc) (s : State) : result (State * list Offer) :=
  CHECK (initialized s) "initialized";;
  allocate now s.

(** [delete filter]: the filter is no more.  If [expire] has left its
    entry in the multihashmap, the entry is a pointer to a deleted
    object from now on: it is no filter of the registry of the state,
    and [deliver] below counts it among the dangling pointers of the
    process. *)
Definition delete_filter (frameworkId : FrameworkID) (addr : nat) (s : State) : State :=
  if filters_contains frameworkId addr (filters s)
  then set_filters (filters_remove_one frameworkId addr (filters s)) s
  else s.

(** [expire(frameworkId, filter)], the filter given by its address: the
    entry is removed if the framework is active, and the filter is
    deleted in any case. *)
Definition expire (frameworkId : FrameworkID) (addr : nat) (s : State)
    : result (State * list Offer) :=
  let s :=
    if bool_decide (is_Some (frameworks s !! frameworkId)) then
      if filters_contains frameworkId addr (filters s)
      then set_filters (filters_remove_one frameworkId addr (filters s)) s
      else s
    else s in
  Ok (delete_filter frameworkId addr s, []).

(** ** The events the master delivers *)

Inductive Event : Type :=
| FrameworkAdded (frameworkId : FrameworkID) (frameworkInfo : FrameworkInfo)
                 (used : Resources)
| FrameworkRemoved (frameworkId : FrameworkID)
| FrameworkActivated (frameworkId : FrameworkID) (frameworkInfo : FrameworkInfo)
| FrameworkDeactivated (frameworkId : FrameworkID)
| SlaveAdded (slaveId : SlaveID) (slaveInfo : SlaveInfo)
             (used : gmap FrameworkID Resources)
| SlaveRemoved (slaveId : SlaveID)
| UpdateWhitelist (_whitelist : option (gset string))
| ResourcesRequested (frameworkId : FrameworkID)
| ResourcesUnused (frameworkId : FrameworkID) (slaveId : SlaveID)
                  (resourceHints : ResourceHints) (_filters : option Filters)
| ResourcesRecovered (frameworkId : FrameworkID) (slaveId : SlaveID)
                     (resourceHints : ResourceHints)
| OffersRevived (frameworkId : FrameworkID)
| Batch
| Expire (frameworkId : FrameworkID) (addr : nat).

(** The delivery of an event at a given time. *)
Definition handle (now : Qc) (e : Event) (s : State) : result (State * list Offer) :=
  match e with
  | FrameworkAdded f info used => frameworkAdded now f info used s
  | FrameworkRemoved f => frameworkRemoved f s
  | FrameworkActivated f info => frameworkActivated now f info s
  | FrameworkDeactivated f => frameworkDeactivated f s
  | SlaveAdded a info used => slaveAdded now a info used s
  | SlaveRemoved a => slaveRemoved a s
  | UpdateWhitelist w => updateWhitelist w s
  | ResourcesRequested f => resourcesRequested f s
  | ResourcesUnused f a hints fs => resourcesUnused now f a hints fs s
  | ResourcesRecovered f a hints => resourcesRecovered f a hints s
  | OffersRevived f => offersRevived now f s
  | Batch => batch now s
  | Expire f addr => expire f addr s
  end.

(** ** The process: the allocator and its filter objects

    [handle] gives the effect of an event on the data of the allocator,
    the registry being that of the filters that are alive.  The process
    has two more things to keep count of.
    - The timers: [resourcesUnused] arms one [expire] for each filter it
      makes ([delay(timeout, ..., &expire, frameworkId, filter)]), and
      [expire] is delivered for a filter once, by its timer.
    - The dangling pointers: [expire] deletes its filter whether or not
      it has removed the entry from the multihashmap, and it does not
      remove the entry of a framework that is not active.  Such an entry
      stays in the multihashmap until [frameworkRemoved],
      [frameworkDeactivated] or [offersRevived] empties the key, which
      they do without looking into the filters.
    The pass looks into the filters of a framework: for each available
    slave it goes through [filters.get(frameworkId)], a set of pointers
    in no particular order, and stops at the first filter that matches.
    When none matches, which is when the slave is offered to the
    framework, the pass has gone through every entry and has used every
    dangling pointer among them: an offer to a framework with a
    dangling pointer is a use of a deleted object, and the outcome of
    the event is [UseAfterFree].  When a filter that is alive matches,
    the pass may or may not have met a dangling pointer before, as the
    order has it.  And when a filter is made while a dangling pointer
    is left, [new] may or may not give it the address of the deleted
    filter (a filter is deleted nowhere but in [expire], so that its
    address is not given out again while its timer is pending, which
    is what the comment in [offersRevived] asks for).  The model
    follows the process as long as neither is the case: the outcome of
    an event is [Untracked] when the pass may have looked into the
    filters of an active framework with a dangling pointer without
    offering it anything, and when a filter is made while a dangling
    pointer is left. *)

Record Process : Type := mkProcess {
  data : State;
  dangling : gset (FrameworkID * nat);
  timers : gset (FrameworkID * nat)
}.

Global Instance Process_eq_dec : EqDecision Process.
Proof. solve_decision. Defined.

Inductive Outcome : Type :=
| Delivered (p : Process) (offers : list Offer)
| Aborted (what : string)
| UseAfterFree
| Untracked.

Global Instance Outcome_eq_dec : EqDecision Outcome.
Proof. solve_decision. Defined.

(** The multihashmap holds a dangling pointer under this key. *)
Definition has_dangling (d : gset (FrameworkID * nat)) (frameworkId : FrameworkID)
    : bool :=
  bool_decide (set_Exists (λ x, x.1 = frameworkId) d).

(** [filters.remove(frameworkId)]: the entries of the key go, the
    dangling ones included. *)
Definition drop_dangling (frameworkId : FrameworkID) (d : gset (FrameworkID * nat))
    : gset (FrameworkID * nat) :=
  filter (λ x, x.1 ≠ frameworkId) d.

(** The dangling pointers after an event. *)
Definition dangling_after (e : Event) (p : Process) : gset (FrameworkID * nat) :=
  match e with
  | FrameworkRemoved f | FrameworkDeactivated f | OffersRevived f =>
      drop_dangling f (dangling p)
  | Expire f addr =>
      if negb (bool_decide (is_Some (frameworks (data p) !! f)))
         && filters_contains f addr (filters (data p))
      then {[(f, addr)]} ∪ dangling p
      else dangling p
  | _ => dangling p
  end.

(** The timers after an event that has led the data to [s']. *)
Definition timers_after (e : Event) (p : Process) (s' : State)
    : gset (FrameworkID * nat) :=
  match e with
  | ResourcesUnused f _ _ _ =>
      if filters_contains f (next_addr (data p)) (filters s')
      then {[(f, next_addr (data p))]} ∪ timers p
      else timers p
  | Expire f addr => timers p ∖ {[(f, addr)]}
  | _ => timers p
  end.

(** The slaves of the pass that an event ends with, when it ends with
    one: all of them for [allocate()], the new one for [slaveAdded]. *)
Definition pass_slaves (e : Event) (s' : State) : option (gset SlaveID) :=
  match e with
  | FrameworkAdded _ _ _ | FrameworkActivated _ _ | OffersRevived _ | Batch =>
      Some (dom (slaves s'))
  | SlaveAdded slaveId _ _ => Some {[slaveId]}
  | _ => None
  end.

(** The pass of the event may have looked into filters: it has found a
    slave available.  A pass that makes no offer leaves the state as it
    has found it, so that the slaves it has found available are those
    available in the state after the event. *)
Definition pass_looked (e : Event) (s' : State) (offers : list Offer) : bool :=
  match pass_slaves e s' with
  | Some slaveIds =>
      negb (bool_decide (offers = [])
            && bool_decide (collect_available s' slaveIds = Ok ∅))
  | None => false
  end.

(** A framework that is active has a dangling pointer. *)
Definition active_dangling (d : gset (FrameworkID * nat)) (s' : State) : bool :=
  bool_decide (set_Exists (λ x, is_Some (frameworks s' !! x.1)) d).

(** The event has made a filter. *)
Definition makes_filter (e : Event) (p : Process) (s' : State) : bool :=
  match e with
  | ResourcesUnused f _ _ _ => filters_contains f (next_addr (data p)) (filters s')
  | _ => false
  end.

(** The delivery of an event to the process. *)
Definition deliver (now : Qc) (e : Event) (p : Process) : Outcome :=
  match handle now e (data p) with
  | CheckFailed what => Aborted what
  | Ok (s', offers) =>
      let d := dangling_after e p in
      if existsb (λ offer : Offer, has_dangling d offer.1) offers then UseAfterFree
      else if pass_looked e s' offers && active_dangling d s' then Untracked
      else if makes_filter e p s' && negb (bool_decide (d = ∅)) then Untracked
      else Delivered (mkProcess s' d (timers_after e p s')) offers
  end.

(** An [expire] is delivered by its timer; the other events come from
    the master at any time. *)
Definition enabled (e : Event) (p : Process) : bool :=
  match e with
  | Expire f addr => bool_decide ((f, addr) ∈ timers p)
  | _ => true
  end.

(** The states the process goes through as far as the model follows
    it: the one after [initialize], and the one after each event that
    is delivered. *)
Inductive process_reachable : Process → Prop :=
| process_initialize : process_reachable (mkProcess (initialize State_new) ∅ ∅)
| process_deliver now e p p' offers :
    process_reachable p → enabled e p = true →
    deliver now e p = Delivered p' offers → process_reachable p'.

(** The states the data of the allocator goes through. *)
Definition reachable (s : State) : Prop := ∃ p, process_reachable p ∧ data p = s.

(** The outcome of a sequence of timed events; [None] when the sequence
    has an [expire] without timer. *)
Definition run (events : list (Qc * Event)) (p : Process) : option Outcome :=
  foldl (λ r e,
           match r with
           | Some (Delivered p _) =>
               if enabled e.2 p then Some (deliver e.1 e.2 p) else None
           | _ => r
           end)
        (Some (Delivered p [])) events.

(** The data after a sequence of timed events that have all been
    delivered. *)
Definition run_data (events : list (Qc * Event)) (p : Process) : option State :=
  match run events p with
  | Some (Delivered p' _) => Some (data p')
  | _ => None
  end.

(** What every event keeps true of the pointers of the process: a
    filter of the registry has its timer pending, a timer is for an
    address that has been given out, and a dangling pointer has no
    timer any more and points to an address that has been given out. *)
Definition pointers_ok (p : Process) : Prop :=
  (∀ f x, x ∈ filters_get (data p) f → (f, filter_addr x) ∈ timers p)
  ∧ (∀ f a, (f, a) ∈ timers p → (a < next_addr (data p))%nat)
  ∧ (∀ f a, (f, a) ∈ dangling p →
       ((f, a) ∉ timers p) ∧ (a < next_addr (data p))%nat).

(** ** Sample data

    The constants as the specification gives them (min_cpus 0.01,
    min_mem 32, default refusal 5 s) with a threshold of one thousandth
    for [allocatable()], and a small cluster. *)

Definition spec_EPSILON : Qc := Q2Qc (1 # 1000).
Definition spec_MIN_CPUS : Qc := Q2Qc (1 # 100).
Definition spec_MIN_MEM : Qc := Qc_of_Z 32.
Definition spec_DEFAULT_REFUSE_SECONDS : Qc := Qc_of_Z 5.

Definition cpus_mem (cpus mem : Qc) : Resources :=
  mkResources (<["cpus" := cpus]> (<["mem" := mem]> ∅)) ∅ ∅.

Definition hints_of (r : Resources) : ResourceHints :=
  mkResourceHints r Resources_empty.

Definition sample_info : FrameworkInfo := mkFrameworkInfo "user" "framework".

(** One slave of 8 cpus and 8192 MiB, all of it in use by framework
    ["F"], which holds a filter on the slave. *)
Definition sample_filter : RefusedFilter :=
  mkRefusedFilter 0 "a1" (cpus_mem (Qc_of_Z 8) (Qc_of_Z 8192))
                  (mkTimeout (Qc_of_Z 10)).

Definition sample_busy : State :=
  mkState true
    {["F" := sample_info]}
    {["F" := cpus_mem (Qc_of_Z 8) (Qc_of_Z 8192)]}
    {["a1" := mkSlaveInfo "host1" (cpus_mem (Qc_of_Z 8) (Qc_of_Z 8192))]}
    (cpus_mem (Qc_of_Z 8) (Qc_of_Z 8192))
    {["a1" := cpus_mem 0 0]}
    None
    {["F" := [sample_filter]]}
    1.

(** The events that lead to it: the framework and the slave join, the
    framework gets the slave, refuses it for ten seconds, and gets it
    again once the ten seconds are over. *)
Definition sample_busy_trace : list (Qc * Event) :=
  [(0, FrameworkAdded "F" sample_info Resources_empty);
   (0, SlaveAdded "a1" (mkSlaveInfo "host1" (cpus_mem (Qc_of_Z 8) (Qc_of_Z 8192))) ∅);
   (0, ResourcesUnused "F" "a1" (hints_of (cpus_mem (Qc_of_Z 8) (Qc_of_Z 8192)))
                       (Some (mkFilters (Some (Qc_of_Z 10)))));
   (Qc_of_Z 11, Batch)].

(** The same cluster once ["F"] has been removed. *)
Definition sample_removed : State :=
  mkState true ∅ ∅
    {["a1" := mkSlaveInfo "host1" (cpus_mem (Qc_of_Z 8) (Qc_of_Z 8192))]}
    (cpus_mem (Qc_of_Z 8) (Qc_of_Z 8192))
    {["a1" := cpus_mem 0 0]}
    None ∅ 1.

(** Two slaves of 4 cpus and 1024 MiB, both free, and two frameworks
    without allocation; ["A"] has refused the first slave until
    time 10. *)
Definition sample_idle : State :=
  mkState true
    {["A" := sample_info; "B" := sample_info]}
    {["A" := Resources_empty; "B" := Resources_empty]}
    {["a1" := mkSlaveInfo "host1" (cpus_mem (Qc_of_Z 4) (Qc_of_Z 1024));
      "a2" := mkSlaveInfo "host2" (cpus_mem (Qc_of_Z 4) (Qc_of_Z 1024))]}
    (cpus_mem (Qc_of_Z 8) (Qc_of_Z 2048))
    {["a1" := cpus_mem (Qc_of_Z 4) (Qc_of_Z 1024);
      "a2" := cpus_mem (Qc_of_Z 4) (Qc_of_Z 1024)]}
    None
    {["A" := [mkRefusedFilter 0 "a1" (cpus_mem (Qc_of_Z 4) (Qc_of_Z 1024))
                              (mkTimeout (Qc_of_Z 10))]]}
    1.

(** Three slaves of 4 cpus and 1024 MiB and two frameworks without
    filter: ["A"] holds the first slave, ["B"] holds nothing, and the
    other two slaves are free. *)
Definition sample_unequal : State :=
  mkState true
    {["A" := sample_info; "B" := sample_info]}
    {["A" := cpus_mem (Qc_of_Z 4) (Qc_of_Z 1024); "B" := Resources_empty]}
    {["a0" := mkSlaveInfo "host0" (cpus_mem (Qc_of_Z 4) (Qc_of_Z 1024));
      "a1" := mkSlaveInfo "host1" (cpus_mem (Qc_of_Z 4) (Qc_of_Z 1024));
      "a2" := mkSlaveInfo "host2" (cpus_mem (Qc_of_Z 4) (Qc_of_Z 1024))]}
    (cpus_mem (Qc_of_Z 12) (Qc_of_Z 3072))
    {["a0" := cpus_mem 0 0;
      "a1" := cpus_mem (Qc_of_Z 4) (Qc_of_Z 1024);
      "a2" := cpus_mem (Qc_of_Z 4) (Qc_of_Z 1024)]}
    None ∅ 0.

(** One free slave with 4 cpus and exactly 32 MiB, one framework. *)
Definition sample_low_mem : State :=
  mkState true
    {["A" := sample_info]}
    {["A" := Resources_empty]}
    {["a1" := mkSlaveInfo "host1" (cpus_mem (Qc_of_Z 4) (Qc_of_Z 32))]}
    (cpus_mem (Qc_of_Z 4) (Qc_of_Z 32))
    {["a1" := cpus_mem (Qc_of_Z 4) (Qc_of_Z 32)]}
    None ∅ 0.

Definition sample_low_mem_trace : list (Qc * Event) :=
  [(0, FrameworkAdded "A" sample_info Resources_empty);
   (0, SlaveAdded "a1" (mkSlaveInfo "host1" (cpus_mem (Qc_of_Z 4) (Qc_of_Z 32))) ∅)].

(** One slave of 4 cpus and 1024 MiB, held by framework ["A"], which
    has been deactivated. *)
Definition sample_inactive_trace : list (Qc * Event) :=
  [(0, FrameworkAdded "A" sample_info Resources_empty);
   (0, SlaveAdded "a1" (mkSlaveInfo "host1" (cpus_mem (Qc_of_Z 4) (Qc_of_Z 1024))) ∅);
   (0, FrameworkDeactivated "A")].

Definition sample_inactive : Process :=
  mkProcess
    (mkState true ∅
       {["A" := cpus_mem (Qc_of_Z 4) (Qc_of_Z 1024)]}
       {["a1" := mkSlaveInfo "host1" (cpus_mem (Qc_of_Z 4) (Qc_of_Z 1024))]}
       (cpus_mem (Qc_of_Z 4) (Qc_of_Z 1024))
       {["a1" := cpus_mem 0 0]}
       None ∅ 0)
    ∅ ∅.

(** The deactivated framework refuses all it holds for 10 s, and the
    filter expires. *)
Definition sample_refusal_trace : list (Qc * Event) :=
  [(0, ResourcesUnused "A" "a1" (hints_of (cpus_mem (Qc_of_Z 4) (Qc_of_Z 1024)))
                        (Some (mkFilters (Some (Qc_of_Z 10)))));
   (Qc_of_Z 11, Expire "A" 0)].

(** The framework comes back while no slave is whitelisted, so that it
    is offered nothing, and the whitelist is lifted: the framework is
    active, the slave is free, and the multihashmap holds the pointer to
    the deleted filter. *)
Definition sample_dangling_trace : list (Qc * Event) :=
  sample_inactive_trace ++ sample_refusal_trace ++
  [(Qc_of_Z 12, UpdateWhitelist (Some ∅));
   (Qc_of_Z 12, FrameworkActivated "A" sample_info);
   (Qc_of_Z 12, UpdateWhitelist None)].

Definition sample_dangling : Process :=
  mkProcess
    (mkState true
       {["A" := sample_info]}
       {["A" := cpus_mem 0 0]}
       {["a1" := mkSlaveInfo "host1" (cpus_mem (Qc_of_Z 4) (Qc_of_Z 1024))]}
       (cpus_mem (Qc_of_Z 4) (Qc_of_Z 1024))
       {["a1" := cpus_mem (Qc_of_Z 4) (Qc_of_Z 1024)]}
       None ∅ 1)
    {[("A", 0%nat)]} ∅.

(** Resources below the threshold of [allocatable()]. *)
Definition sample_tiny : Resources :=
  mkResources {["cpus" := Q2Qc (1 # 2000)]} ∅ ∅.



Definition sample_tie_B : Resources :=
  mkResources {["cpus" := Q2Qc (1080863910568919 # 36028797018963968)]} ∅ ∅.


(** A cluster of 10 cpus and 10240 MiB in total; ["A"] holds 4 cpus and
    1024 MiB, ["B"] 1 cpu and 5120 MiB. *)
Definition sample_total : Resources := cpus_mem (Qc_of_Z 10) (Qc_of_Z 10240).

Definition sample_allocated : gmap FrameworkID Resources :=
  {["A" := cpus_mem (Qc_of_Z 4) (Qc_of_Z 1024);
    "B" := cpus_mem (Qc_of_Z 1) (Qc_of_Z 5120)]}.

(** ** Notions of the specification *)

(** The refusal duration in effect: the one of the message, the default
    when there is no message. *)
Definition effective_refuse_seconds (_filters : option Filters) : Qc :=
  match _filters with
  | Some f => refuse_seconds f
  | None => DEFAULT_REFUSE_SECONDS
  end.


(** The share of one framework, as the loop of the comparator computes
    it for each of its two arguments. *)
Definition dominant_share (resources A : Resources) : Qc :=
  foldl (λ share resource,
           if Qcltb 0 resource.2
           then Qcmax share (double_div (Resources_get A resource.1) resource.2)
           else share)
        0 (map_to_list (scalars resources)).




(** No scalar of the vector is negative. *)
Definition Resources_nonneg (A : Resources) : bool :=
  bool_decide (map_Forall (λ _ x, 0 ≤ x) (scalars A)).

(** The entries of a list of available resources that no filter of the
    framework holds back, in the order of the list. *)
Definition unfiltered (s : State) (now : Qc) (frameworkId : FrameworkID)
    (l : list (SlaveID * Resources)) : list (SlaveID * Resources) :=
  List.filter (λ e, negb (filtered s now frameworkId e.1 e.2)) l.

(** The available resources that every framework so far has filtered. *)
Definition still_available (s : State) (now : Qc) (frameworkId : FrameworkID)
    (available : gmap SlaveID Resources) : gmap SlaveID Resources :=
  filter (λ e, filtered s now frameworkId e.1 e.2 = true) available.

(** The offer a framework gets out of the available resources. *)
Definition offerable_of (s : State) (now : Qc) (frameworkId : FrameworkID)
    (available : gmap SlaveID Resources) : gmap SlaveID ResourceHints :=
  (λ r, mkResourceHints r Resources_empty)
    <$> filter (λ e, filtered s now frameworkId e.1 e.2 = false) available.

(** The grants of a pass, in the order the pass makes them. *)
Fixpoint grants (s : State) (now : Qc) (order : list FrameworkID)
    (available : gmap SlaveID Resources) : list (FrameworkID * (SlaveID * Resources)) :=
  match order with
  | [] => []
  | frameworkId :: order' =>
      ((λ e, (frameworkId, e)) <$> unfiltered s now frameworkId (map_to_list available))
      ++ grants s now order' (still_available s now frameworkId available)
  end.

(** The offers of a pass, in the order the pass dispatches them. *)
Fixpoint offers_of (s : State) (now : Qc) (order : list FrameworkID)
    (available : gmap SlaveID Resources) : list Offer :=
  match order with
  | [] => []
  | frameworkId :: order' =>
      (if decide (offerable_of s now frameworkId available = ∅) then []
       else [(frameworkId, offerable_of s now frameworkId available)])
      ++ offers_of s now order' (still_available s now frameworkId available)
  end.

(** The gate of the pass for a slave with free resources [F]: the slave
    is under consideration, its host is on the whitelist if there is
    one, and the allocatable part [R] of [F] passes the two
    thresholds. *)
Definition passes_gate (s : State) (slaveIds : gset SlaveID)
    (slaveId : SlaveID) (F R : Resources) : Prop :=
  slaveId ∈ slaveIds
  ∧ (∃ info, slaves s !! slaveId = Some info
       ∧ match whitelist s with None => True | Some w => hostname info ∈ w end)
  ∧ R = Resources_allocatable F
  ∧ MIN_CPUS ≤ Resources_get R "cpus"
  ∧ MIN_MEM < Resources_get R "mem".

(** A slave is available to a pass, with resources [R]. *)
Definition is_available (s : State) (slaveIds : gset SlaveID)
    (slaveId : SlaveID) (R : Resources) : Prop :=
  ∃ F, allocatable s !! slaveId = Some F ∧ passes_gate s slaveIds slaveId F R.

(** The comparator of a pass, built from the total and the allocations
    of the state at the start of the pass. *)
Definition comes_before (s : State) (f1 f2 : FrameworkID) : Prop :=
  DominantShareComparator (resources s) (allocated s) f1 f2 = true.

(** The framework is the first one, in the order of the comparator,
    that no filter keeps from these resources of this slave. *)
Definition first_unfiltered (s : State) (now : Qc) (frameworkId : FrameworkID)
    (slaveId : SlaveID) (R : Resources) : Prop :=
  is_Some (frameworks s !! frameworkId)
  ∧ filtered s now frameworkId slaveId R = false
  ∧ ∀ f', is_Some (frameworks s !! f') → comes_before s f' frameworkId →
          filtered s now f' slaveId R = true.

(** Every slave has an entry in [slaves] when it has one in
    [allocatable]: [slaveAdded] and [slaveRemoved] keep the two maps in
    step. *)
Definition slaves_in_step (s : State) : bool :=
  bool_decide (dom (allocatable s) ⊆ dom (slaves s)).

(** The sum of a scalar resource over the vectors of a ledger. *)
Definition total_scalar (m : gmap string Resources) (name : string) : Qc :=
  map_fold (λ _ R acc, Resources_get R name + acc) 0 m.

(** Conservation of a scalar resource: what is allocated plus what is
    free is what the slaves advertise. *)
Definition conserved (s : State) (name : string) : Prop :=
  total_scalar (allocated s) name + total_scalar (allocatable s) name
  = total_scalar (slave_resources <$> slaves s) name.




(** The resources of an offer added to a vector. *)
Definition add_offer (A : Resources) (m : gmap SlaveID ResourceHints) : Resources :=
  map_fold (λ _ h acc, Resources_add acc (expectedResources h)) A m.

(** A slave is in one of the offers of a list. *)
Definition offered (offers : list Offer) (slaveId : SlaveID) : Prop :=
  ∃ f m, (f, m) ∈ offers ∧ is_Some (m !! slaveId).

(** The filter registry is tidy up to an address: no key is left with an
    empty list of filters, the filters of a key have different
    addresses, and every address is below the given one. *)
Definition registry_inv (m : gmap FrameworkID (list RefusedFilter)) (n : nat) : Prop :=
  map_Forall (λ _ l, l ≠ [] ∧ Forall (λ x, (filter_addr x < n)%nat) l
                     ∧ NoDup (filter_addr <$> l)) m.

(** The registry of a state is tidy up to the address the next filter
    gets. *)
Definition registry_ok (s : State) : bool :=
  bool_decide (registry_inv (filters s) (next_addr s)).

(** What every event keeps true of the state: the allocator is
    initialized, [allocatable] and [slaves] have the same keys, a
    framework with filters has an allocation, and the registry is
    tidy. *)
Definition well_formed (s : State) : Prop :=
  initialized s = true
  ∧ dom (allocatable s) = dom (slaves s)
  ∧ dom (filters s) ⊆ dom (allocated s)
  ∧ registry_ok s = true.

(** * Properties *)

(** ** The filter registry *)

Lemma filters_remove_one_delete frameworkId addr
    (m : gmap FrameworkID (list RefusedFilter)) :
  delete frameworkId (filters_remove_one frameworkId addr m) = delete frameworkId m.
Proof.
  unfold filters_remove_one.
  destruct (List.filter _ _); [apply delete_delete_eq | apply delete_insert_eq].
Qed.

(** The loop over the filters of a framework followed by the removal of
    the key amounts to the removal of the key. *)
Lemma remove_filters_filters frameworkId s :
  filters (remove_filters frameworkId s) = delete frameworkId (filters s).
Proof.
  unfold remove_filters. simpl.
  generalize (filters_get s frameworkId). generalize (filters s).
  intros m l. revert m. induction l as [|x l IH]; intros m; simpl; [done|].
  rewrite IH. apply filters_remove_one_delete.
Qed.

Lemma remove_filters_get frameworkId s :
  filters_get (remove_filters frameworkId s) frameworkId = [].
Proof.
  unfold filters_get. by rewrite remove_filters_filters, lookup_delete_eq.
Qed.

Lemma remove_filters_absent frameworkId s :
  filters s !! frameworkId = None → remove_filters frameworkId s = s.
Proof.
  intros H. unfold remove_filters, filters_get. rewrite H. simpl.
  rewrite delete_id by done. by destruct s.
Qed.

(** A filter holds an offer back exactly when it is for the same slave,
    the offered resources are within the refused ones, and the deadline
    is still ahead. *)
Lemma filters_contains_remove_one frameworkId addr
    (m : gmap FrameworkID (list RefusedFilter)) :
  filters_contains frameworkId addr (filters_remove_one frameworkId addr m) = false.
Proof.
  unfold filters_contains, filters_remove_one.
  destruct (List.filter _ _) as [|x l] eqn:E.
  - by rewrite lookup_delete_eq.
  - rewrite lookup_insert_eq. cbn [default]. rewrite <-E. clear E.
    generalize (default [] (m !! frameworkId)). intros l0.
    induction l0 as [|y l0 IH]; simpl; [done|].
    case_bool_decide as Hy; simpl; [done|]. by rewrite bool_decide_eq_false_2.
Qed.

Lemma filters_get_remove_one s f addr g :
  default [] (filters_remove_one f addr (filters s) !! g) =
  if decide (f = g)
  then List.filter (λ x, negb (bool_decide (filter_addr x = addr))) (filters_get s f)
  else filters_get s g.
Proof.
  unfold filters_remove_one, filters_get.
  destruct (List.filter _ _) as [|x l] eqn:E.
  - destruct (decide (f = g)) as [<-|Hne].
    + by rewrite lookup_delete_eq.
    + by rewrite lookup_delete_ne.
  - destruct (decide (f = g)) as [<-|Hne].
    + by rewrite lookup_insert_eq.
    + by rewrite lookup_insert_ne.
Qed.

(** [expire] leaves the registry without the filter it has deleted,
    whether it has removed the entry or not. *)
Lemma expire_delete frameworkId addr s :
  expire frameworkId addr s = Ok (delete_filter frameworkId addr s, []).
Proof.
  unfold expire. case_bool_decide as Hact; [|done].
  destruct (filters_contains frameworkId addr (filters s)) eqn:Hc.
  - unfold delete_filter. simpl. rewrite filters_contains_remove_one. by rewrite Hc.
  - done.
Qed.

Lemma RefusedFilter_filter_spec (this : RefusedFilter) now slaveId resources :
  RefusedFilter_filter this now slaveId resources = true ↔
  slaveId = filter_slaveId this
  ∧ Resources_le resources (filter_resources this) = true
  ∧ now < deadline (filter_timeout this).
Proof.
  unfold RefusedFilter_filter, Qcltb, Timeout_remaining.
  rewrite !andb_true_iff, !bool_decide_eq_true.
  assert (0 < deadline (filter_timeout this) - now ↔ now < deadline (filter_timeout this)) as ->; [|tauto].
  split; intros H.
  - apply (Qcplus_lt_mono_r _ _ (- now)). by rewrite Qcplus_opp_r.
  - apply (Qcplus_lt_mono_r _ _ (- now)) in H. by rewrite Qcplus_opp_r in H.
Qed.

Lemma filtered_spec s now frameworkId slaveId resources :
  filtered s now frameworkId slaveId resources = true ↔
  ∃ this, this ∈ filters_get s frameworkId
    ∧ slaveId = filter_slaveId this
    ∧ Resources_le resources (filter_resources this) = true
    ∧ now < deadline (filter_timeout this).
Proof.
  unfold filtered. rewrite existsb_exists. split.
  - intros (this & Hin & H). exists this. rewrite list_elem_of_In.
    by apply RefusedFilter_filter_spec in H.
  - intros (this & Hin & H). exists this. rewrite <-list_elem_of_In.
    by rewrite RefusedFilter_filter_spec.
Qed.

(** ** Refusal and recovery *)

(** What [resourcesRecovered] does to a state, for resources with a
    non-empty allocatable part: each side is updated when present. *)
Lemma resourcesRecovered_effect frameworkId slaveId resourceHints s :
  initialized s = true →
  Resources_size (Resources_allocatable (expectedResources resourceHints)) ≠ 0%nat →
  ∃ s', resourcesRecovered frameworkId slaveId resourceHints s = Ok (s', [])
    ∧ allocated s' =
        (if bool_decide (is_Some (allocated s !! frameworkId))
         then sub_at frameworkId (expectedResources resourceHints) (allocated s)
         else allocated s)
    ∧ allocatable s' =
        (if bool_decide (is_Some (allocatable s !! slaveId))
         then add_at slaveId (expectedResources resourceHints) (allocatable s)
         else allocatable s)
    ∧ filters s' = filters s ∧ frameworks s' = frameworks s
    ∧ slaves s' = slaves s.
Proof.
  intros Hinit Hsize. unfold resourcesRecovered. rewrite Hinit. simpl.
  rewrite bool_decide_eq_false_2 by done.
  eexists. split; [reflexivity|].
  destruct (bool_decide (is_Some (allocated s !! frameworkId)));
    destruct (bool_decide (is_Some (allocatable s !! slaveId))) eqn:E;
    simpl; rewrite ?E; simpl; done.
Qed.

Lemma resourcesUnused_empty now frameworkId slaveId resourceHints _filters s :
  initialized s = true →
  Resources_size (Resources_allocatable (expectedResources resourceHints)) = 0%nat →
  resourcesUnused now frameworkId slaveId resourceHints _filters s = Ok (s, []).
Proof.
  intros Hinit Hsize. unfold resourcesUnused.
  rewrite Hinit. simpl. by rewrite bool_decide_eq_true_2.
Qed.

Lemma resourcesRecovered_empty frameworkId slaveId resourceHints s :
  initialized s = true →
  Resources_size (Resources_allocatable (expectedResources resourceHints)) = 0%nat →
  resourcesRecovered frameworkId slaveId resourceHints s = Ok (s, []).
Proof.
  intros Hinit Hsize. unfold resourcesRecovered.
  rewrite Hinit. simpl. by rewrite bool_decide_eq_true_2.
Qed.

(** C9.  When the allocatable part of the resources is empty,
    [resourcesUnused] and [resourcesRecovered] return at once: the
    state is the one before the call (allocated, free and registry
    alike), and no filter is made whatever the refusal duration. *)
Theorem empty_allocatable_noop now frameworkId slaveId resourceHints _filters s :
  initialized s = true →
  Resources_size (Resources_allocatable (expectedResources resourceHints)) = 0%nat →
  resourcesUnused now frameworkId slaveId resourceHints _filters s = Ok (s, [])
  ∧ resourcesRecovered frameworkId slaveId resourceHints s = Ok (s, []).
Proof.
  intros Hinit Hsize. split.
  - by apply resourcesUnused_empty.
  - by apply resourcesRecovered_empty.
Qed.

(** The allocatable part is empty exactly when no scalar is above the
    threshold and there is no other entry. *)
Lemma empty_allocatable_iff (r : Resources) :
  Resources_size (Resources_allocatable r) = 0%nat ↔
  (∀ name x, scalars r !! name = Some x → ¬ EPSILON < x)
  ∧ ranges r = ∅ ∧ sets r = ∅.
Proof.
  unfold Resources_size, Resources_allocatable. simpl. split.
  - intros H.
    assert (size (filter (λ kv : string * Qc, EPSILON < kv.2) (scalars r)) = 0%nat
            ∧ size (ranges r) = 0%nat ∧ size (sets r) = 0%nat) as (H1 & H2 & H3) by lia.
    apply map_size_empty_iff in H1, H2, H3. split_and!; [|done..].
    intros name x Hx Hlt.
    assert (filter (λ kv : string * Qc, EPSILON < kv.2) (scalars r) !! name = Some x) as Hf
      by (by apply map_lookup_filter_Some).
    by rewrite H1 in Hf.
  - intros (H1 & -> & ->).
    assert (filter (λ kv : string * Qc, EPSILON < kv.2) (scalars r) = ∅) as ->; [|done].
    apply map_empty. intros name. apply map_lookup_filter_None.
    right. intros x Hx. by apply (H1 name).
Qed.

(** C10.  [frameworkDeactivated] removes every filter of the framework
    from the registry, so that none holds an offer back afterwards,
    and leaves the allocation of the framework (and any other ledger
    entry) as it was. *)
Theorem frameworkDeactivated_detaches_filters frameworkId s :
  initialized s = true →
  ∃ s', frameworkDeactivated frameworkId s = Ok (s', [])
    ∧ filters s' = delete frameworkId (filters s)
    ∧ filters_get s' frameworkId = []
    ∧ (∀ now slaveId O, filtered s' now frameworkId slaveId O = false)
    ∧ allocated s' = allocated s
    ∧ allocatable s' = allocatable s.
Proof.
  intros Hinit. unfold frameworkDeactivated. rewrite Hinit. simpl.
  eexists. split; [reflexivity|].
  rewrite remove_filters_filters. split_and!; try done.
  - apply remove_filters_get.
  - intros. unfold filtered. by rewrite remove_filters_get.
Qed.

(** C5, as the code has it.  For resources with a non-empty allocatable
    part, a framework with an allocation and a slave with free
    resources, [resourcesUnused] takes the resources from the
    allocation of the framework, adds them to the free resources of the
    slave, and makes a filter (this slave, these resources, deadline
    now plus the duration) exactly when the effective refusal duration
    is not zero, be it negative. *)
Theorem resourcesUnused_effect now frameworkId slaveId resourceHints _filters s A F :
  initialized s = true →
  Resources_size (Resources_allocatable (expectedResources resourceHints)) ≠ 0%nat →
  allocated s !! frameworkId = Some A →
  allocatable s !! slaveId = Some F →
  let O := expectedResources resourceHints in
  let timeout := effective_refuse_seconds _filters in
  ∃ s', resourcesUnused now frameworkId slaveId resourceHints _filters s = Ok (s', [])
    ∧ allocated s' = <[frameworkId := Resources_sub A O]> (allocated s)
    ∧ allocatable s' = <[slaveId := Resources_add F O]> (allocatable s)
    ∧ (timeout ≠ 0 →
         filters s' =
           filters_put frameworkId
             (mkRefusedFilter (next_addr s) slaveId O (mkTimeout (now + timeout)))
             (filters s))
    ∧ (timeout = 0 → filters s' = filters s).
Proof.
  intros Hinit Hsize HA HF O timeout. unfold resourcesUnused.
  rewrite Hinit. simpl. rewrite bool_decide_eq_false_2 by done.
  rewrite HA, HF. simpl.
  assert (match _filters with
          | Some f => refuse_seconds f
          | None => refuse_seconds (mkFilters None)
          end = timeout) as -> by (by destruct _filters).
  unfold sub_at, add_at. rewrite HA, HF. simpl.
  destruct (decide (timeout = 0)) as [Hz|Hz].
  - rewrite bool_decide_eq_true_2 by done. simpl. eexists. by split.
  - rewrite bool_decide_eq_false_2 by done. simpl. eexists. by split.
Qed.

(** C6, as the code has it.  [frameworkRemoved] leaves the free
    resources of every slave as they were and removes the filters of
    the framework; a later [resourcesRecovered] for the framework does
    not fail, skips the framework side, and, when the slave is known
    and the resources have a non-empty allocatable part, adds the
    resources to the free resources of the slave. *)
Theorem frameworkRemoved_then_recovered frameworkId slaveId resourceHints s :
  initialized s = true →
  ∃ s1, frameworkRemoved frameworkId s = Ok (s1, [])
    ∧ allocatable s1 = allocatable s
    ∧ filters s1 = delete frameworkId (filters s)
    ∧ (∀ now a O, filtered s1 now frameworkId a O = false)
    ∧ ∃ s2, resourcesRecovered frameworkId slaveId resourceHints s1 = Ok (s2, [])
        ∧ allocated s2 = allocated s1
        ∧ (∀ F, allocatable s !! slaveId = Some F →
             Resources_size (Resources_allocatable (expectedResources resourceHints)) ≠ 0%nat →
             allocatable s2 =
               <[slaveId := Resources_add F (expectedResources resourceHints)]> (allocatable s))
        ∧ (allocatable s !! slaveId = None → allocatable s2 = allocatable s).
Proof.
  intros Hinit. unfold frameworkRemoved. rewrite Hinit. simpl.
  eexists. split; [reflexivity|].
  set (s1 := remove_filters frameworkId _).
  assert (allocatable s1 = allocatable s) as Hfree by done.
  assert (allocated s1 = delete frameworkId (allocated s)) as Halloc by done.
  assert (initialized s1 = true) as Hinit1 by done.
  split_and!; [done | by unfold s1; rewrite remove_filters_filters | |].
  { intros. unfold filtered, s1. by rewrite remove_filters_get. }
  destruct (decide (Resources_size
      (Resources_allocatable (expectedResources resourceHints)) = 0%nat)) as [Hz|Hnz].
  - exists s1. split; [by apply resourcesRecovered_empty|].
    split_and!; [done| |done]. intros; done.
  - destruct (resourcesRecovered_effect frameworkId slaveId resourceHints s1 Hinit1 Hnz)
      as (s2 & -> & Ha & Hf & _).
    exists s2. split; [done|].
    rewrite Ha, Hf, Halloc, Hfree, lookup_delete_eq.
    rewrite (bool_decide_eq_false_2 (is_Some None)) by (by intros [? ?]).
    split_and!; [done| |].
    + intros F HF _. rewrite bool_decide_eq_true_2 by (by rewrite HF).
      unfold add_at. by rewrite HF.
    + intros HN. rewrite bool_decide_eq_false_2; [done|]. rewrite HN. by intros [? ?].
Qed.

(** C8, as the code has it.  Once a framework has been removed,
    [frameworkDeactivated], [resourcesRequested] and [expire] for it
    change nothing, [offersRevived] for it is a plain pass, and
    [resourcesRecovered] succeeds without touching the allocations, the
    filters or the set of frameworks; [resourcesUnused] for resources
    with a non-empty allocatable part, however, stops on
    [CHECK(allocated.contains(frameworkId))]. *)
Theorem events_after_frameworkRemoved now frameworkId slaveId resourceHints _filters s :
  initialized s = true →
  ∃ s1, frameworkRemoved frameworkId s = Ok (s1, [])
    ∧ frameworkDeactivated frameworkId s1 = Ok (s1, [])
    ∧ resourcesRequested frameworkId s1 = Ok (s1, [])
    ∧ (∀ addr, expire frameworkId addr s1 = Ok (s1, []))
    ∧ offersRevived now frameworkId s1 = batch now s1
    ∧ (∃ s2, resourcesRecovered frameworkId slaveId resourceHints s1 = Ok (s2, [])
         ∧ allocated s2 = allocated s1 ∧ filters s2 = filters s1
         ∧ frameworks s2 = frameworks s1)
    ∧ resourcesUnused now frameworkId slaveId resourceHints _filters s1 =
        (if bool_decide (Resources_size
              (Resources_allocatable (expectedResources resourceHints)) = 0%nat)
         then Ok (s1, [])
         else CheckFailed "allocated.contains(frameworkId)").
Proof.
  intros Hinit. unfold frameworkRemoved. rewrite Hinit. simpl.
  eexists. split; [reflexivity|].
  remember (remove_filters frameworkId _) as s1 eqn:Hs1.
  assert (allocated s1 = delete frameworkId (allocated s)) as Halloc by (by subst s1).
  assert (frameworks s1 = delete frameworkId (frameworks s)) as Hfw by (by subst s1).
  assert (filters s1 = delete frameworkId (filters s)) as Hfl
    by (subst s1; by rewrite remove_filters_filters).
  assert (initialized s1 = true) as Hinit1 by (by subst s1).
  clear Hs1.
  assert (remove_filters frameworkId s1 = s1) as Hnone.
  { apply remove_filters_absent. by rewrite Hfl, lookup_delete_eq. }
  split_and!.
  - unfold frameworkDeactivated. rewrite Hinit1. simpl.
    rewrite Hfw, delete_delete_eq, <-Hfw.
    rewrite remove_filters_absent; [by destruct s1|].
    simpl. by rewrite Hfl, lookup_delete_eq.
  - unfold resourcesRequested. by rewrite Hinit1.
  - intros addr. unfold expire, delete_filter. rewrite Hfw, lookup_delete_eq.
    rewrite bool_decide_eq_false_2 by (by intros [? ?]).
    unfold filters_contains. by rewrite Hfl, lookup_delete_eq.
  - unfold offersRevived, batch. by rewrite Hnone.
  - destruct (decide (Resources_size
      (Resources_allocatable (expectedResources resourceHints)) = 0%nat)) as [Hz|Hnz].
    + exists s1. split; [by apply resourcesRecovered_empty | done].
    + destruct (resourcesRecovered_effect frameworkId slaveId resourceHints s1 Hinit1 Hnz)
        as (s2 & -> & Ha & _ & Hf & Hfr & _).
      exists s2. split_and!; [done| |done|done].
      rewrite Ha, Halloc, lookup_delete_eq.
      by rewrite bool_decide_eq_false_2 by (by intros [? ?]).
  - unfold resourcesUnused. rewrite Hinit1. simpl.
    case_bool_decide; [done|].
    by rewrite Halloc, lookup_delete_eq.
Qed.

(** ** Order on framework ids *)

Lemma String_compare_refl (s : string) : String.compare s s = Eq.
Proof.
  pose proof (String.compare_antisym s s) as H.
  destruct (String.compare s s); simpl in H; congruence.
Qed.

Lemma Ascii_compare_lt_trans (a b c : Ascii.ascii) :
  Ascii.compare a b = Lt → Ascii.compare b c = Lt → Ascii.compare a c = Lt.
Proof.
  unfold Ascii.compare. rewrite !N.compare_lt_iff. lia.
Qed.

Lemma String_compare_lt_trans (s1 s2 s3 : string) :
  String.compare s1 s2 = Lt → String.compare s2 s3 = Lt → String.compare s1 s3 = Lt.
Proof.
  revert s2 s3. induction s1 as [|a s1 IH]; intros [|b s2] [|c s3]; simpl; try done.
  destruct (Ascii.compare a b) eqn:Hab; try done;
    destruct (Ascii.compare b c) eqn:Hbc; try done; intros H1 H2.
  - apply Ascii.compare_eq_iff in Hab, Hbc. subst.
    assert (Ascii.compare c c = Eq) as -> by apply N.compare_refl. eauto.
  - apply Ascii.compare_eq_iff in Hab. subst. by rewrite Hbc.
  - apply Ascii.compare_eq_iff in Hbc. subst. by rewrite Hab.
  - by rewrite (Ascii_compare_lt_trans a b c).
Qed.

Lemma FrameworkID_lt_irrefl f : FrameworkID_lt f f = false.
Proof. unfold FrameworkID_lt, String.ltb. by rewrite String_compare_refl. Qed.

Lemma FrameworkID_lt_trans f1 f2 f3 :
  FrameworkID_lt f1 f2 = true → FrameworkID_lt f2 f3 = true →
  FrameworkID_lt f1 f3 = true.
Proof.
  unfold FrameworkID_lt, String.ltb. intros H1 H2.
  rewrite (String_compare_lt_trans f1 f2 f3); [done| |].
  - by destruct (String.compare f1 f2).
  - by destruct (String.compare f2 f3).
Qed.

Lemma FrameworkID_lt_total f1 f2 :
  f1 ≠ f2 → FrameworkID_lt f1 f2 = true ∨ FrameworkID_lt f2 f1 = true.
Proof.
  unfold FrameworkID_lt, String.ltb. intros Hne.
  rewrite (String.compare_antisym f2 f1).
  destruct (String.compare f1 f2) eqn:E; simpl; auto.
  by apply String.compare_eq_iff in E.
Qed.


(** ** Dominant share *)

Lemma Qcmax_l a b : a ≤ Qcmax a b.
Proof.
  unfold Qcmax, Qcltb. case_bool_decide; [by apply Qclt_le_weak | apply Qcle_refl].
Qed.



Lemma share_step_split A1 A2 (l : list (string * Qc)) (a b : Qc) :
  foldl (share_step A1 A2) (a, b) l =
  (foldl (λ share resource,
            if Qcltb 0 resource.2
            then Qcmax share (double_div (Resources_get A1 resource.1) resource.2)
            else share) a l,
   foldl (λ share resource,
            if Qcltb 0 resource.2
            then Qcmax share (double_div (Resources_get A2 resource.1) resource.2)
            else share) b l).
Proof.
  revert a b. induction l as [|[name total] l IH]; intros a b; simpl; [done|].
  unfold share_step at 2. simpl. destruct (Qcltb 0 total); simpl; apply IH.
Qed.

Lemma DominantShareComparator_shares resources allocated frameworkId1 frameworkId2 :
  DominantShareComparator resources allocated frameworkId1 frameworkId2 =
  let share1 := dominant_share resources (allocated_of allocated frameworkId1) in
  let share2 := dominant_share resources (allocated_of allocated frameworkId2) in
  if bool_decide (share1 = share2)
  then FrameworkID_lt frameworkId1 frameworkId2
  else Qcltb share1 share2.
Proof.
  unfold DominantShareComparator. by rewrite share_step_split.
Qed.

















(** The comparator is a strict total order on framework ids. *)
Lemma comparator_irrefl resources allocated f :
  DominantShareComparator resources allocated f f = false.
Proof.
  rewrite DominantShareComparator_shares. simpl.
  rewrite bool_decide_eq_true_2 by done. apply FrameworkID_lt_irrefl.
Qed.

Lemma comparator_trichotomy resources allocated f1 f2 :
  f1 ≠ f2 →
  DominantShareComparator resources allocated f1 f2 = true
  ∨ DominantShareComparator resources allocated f2 f1 = true.
Proof.
  intros Hne. rewrite !DominantShareComparator_shares. simpl.
  set (s1 := dominant_share _ (allocated_of allocated f1)).
  set (s2 := dominant_share _ (allocated_of allocated f2)).
  destruct (decide (s1 = s2)) as [E|E].
  - rewrite !bool_decide_eq_true_2 by done. by apply FrameworkID_lt_total.
  - rewrite !bool_decide_eq_false_2 by done. unfold Qcltb.
    rewrite !bool_decide_eq_true.
    destruct (Qclt_le_dec s1 s2) as [?|Hle]; [by left|right].
    apply Qcle_lt_or_eq in Hle as [?|?]; [done|congruence].
Qed.

Lemma comparator_trans resources allocated f1 f2 f3 :
  DominantShareComparator resources allocated f1 f2 = true →
  DominantShareComparator resources allocated f2 f3 = true →
  DominantShareComparator resources allocated f1 f3 = true.
Proof.
  rewrite !DominantShareComparator_shares. simpl.
  set (s1 := dominant_share _ (allocated_of allocated f1)).
  set (s2 := dominant_share _ (allocated_of allocated f2)).
  set (s3 := dominant_share _ (allocated_of allocated f3)).
  unfold Qcltb.
  destruct (decide (s1 = s2)) as [E12|E12]; destruct (decide (s2 = s3)) as [E23|E23].
  - rewrite !bool_decide_eq_true_2 by congruence. apply FrameworkID_lt_trans.
  - rewrite (bool_decide_eq_true_2 (s1 = s2)), (bool_decide_eq_false_2 (s2 = s3)),
      (bool_decide_eq_false_2 (s1 = s3)) by congruence.
    rewrite !bool_decide_eq_true. intros _ H. by rewrite E12.
  - rewrite (bool_decide_eq_false_2 (s1 = s2)), (bool_decide_eq_true_2 (s2 = s3)),
      (bool_decide_eq_false_2 (s1 = s3)) by congruence.
    rewrite !bool_decide_eq_true. intros H _. by rewrite <-E23.
  - rewrite (bool_decide_eq_false_2 (s1 = s2)), (bool_decide_eq_false_2 (s2 = s3))
      by congruence.
    rewrite !bool_decide_eq_true. intros H1 H2.
    pose proof (Qclt_trans _ _ _ H1 H2) as H13.
    rewrite bool_decide_eq_false_2 by (by apply Qclt_not_eq).
    by rewrite bool_decide_eq_true.
Qed.

(** ** Sorting with a strict total order *)

Section Sorting.
Context {A : Type} (lt : A → A → bool).
Hypothesis lt_irrefl : ∀ a, lt a a = false.
Hypothesis lt_trans : ∀ a b c, lt a b = true → lt b c = true → lt a c = true.
Hypothesis lt_total : ∀ a b, a ≠ b → lt a b = true ∨ lt b a = true.

Lemma insert_by_perm x l : insert_by lt x l ≡ₚ x :: l.
Proof.
  induction l as [|y l IH]; simpl; [done|].
  destruct (lt y x); [|done]. rewrite IH. apply Permutation_swap.
Qed.

Lemma sort_by_perm l : sort_by lt l ≡ₚ l.
Proof.
  induction l as [|x l IH]; simpl; [done|].
  rewrite insert_by_perm. by rewrite IH.
Qed.

Lemma insert_by_sorted x l :
  x ∉ l → StronglySorted (λ a b, lt a b = true) l →
  StronglySorted (λ a b, lt a b = true) (insert_by lt x l).
Proof.
  induction l as [|y l IH]; intros Hx Hs; simpl.
  - repeat constructor.
  - apply not_elem_of_cons in Hx as [Hxy Hx].
    apply StronglySorted_inv in Hs as [Hs Hy].
    destruct (lt y x) eqn:E.
    + constructor; [by apply IH|].
      rewrite insert_by_perm. by constructor.
    + assert (lt x y = true) as Hlt by (destruct (lt_total x y); congruence).
      constructor; [by constructor|]. constructor; [done|].
      eapply Forall_impl; [exact Hy|]. intros z Hz. by eapply lt_trans.
Qed.

Lemma sort_by_sorted l :
  NoDup l → StronglySorted (λ a b, lt a b = true) (sort_by lt l).
Proof.
  induction 1 as [|x l Hx Hl IH]; simpl; [constructor|].
  apply insert_by_sorted; [|done]. by rewrite sort_by_perm.
Qed.

(** The sorted sequence is determined by the elements: whatever
    [std::sort] does with them, this is its result. *)
Lemma sorted_unique l1 l2 :
  l1 ≡ₚ l2 →
  StronglySorted (λ a b, lt a b = true) l1 →
  StronglySorted (λ a b, lt a b = true) l2 → l1 = l2.
Proof.
  intros Hp H1 H2. eapply (StronglySorted_unique_strong (λ a b, lt a b = true)); try done.
  intros x y _ _ Hxy Hyx.
  pose proof (lt_trans _ _ _ Hxy Hyx) as Hxx. by rewrite lt_irrefl in Hxx.
Qed.
End Sorting.

(** ** The allocation pass, loop by loop *)

Lemma filtered_ext s1 s2 now frameworkId slaveId R :
  filters s1 = filters s2 →
  filtered s1 now frameworkId slaveId R = filtered s2 now frameworkId slaveId R.
Proof. intros H. unfold filtered, filters_get. by rewrite H. Qed.

Lemma unfiltered_ext s1 s2 now frameworkId l :
  filters s1 = filters s2 →
  unfiltered s1 now frameworkId l = unfiltered s2 now frameworkId l.
Proof. intros H. unfold unfiltered, filtered, filters_get. by rewrite H. Qed.

Lemma still_available_ext s1 s2 now frameworkId available :
  filters s1 = filters s2 →
  still_available s1 now frameworkId available
  = still_available s2 now frameworkId available.
Proof. intros H. unfold still_available, filtered, filters_get. by rewrite H. Qed.

Lemma offerable_of_ext s1 s2 now frameworkId available :
  filters s1 = filters s2 →
  offerable_of s1 now frameworkId available = offerable_of s2 now frameworkId available.
Proof. intros H. unfold offerable_of, filtered, filters_get. by rewrite H. Qed.

Lemma grants_filters frameworkId (l : list (SlaveID * Resources)) s :
  filters (foldl (λ s e, grant frameworkId e s) s l) = filters s.
Proof. revert s. induction l as [|e l IH]; intros s; simpl; [done|]. by rewrite IH. Qed.

(** The inner loop: the offer and the state after it. *)
Lemma inner_loop now frameworkId (l : list (SlaveID * Resources))
    (offerable : gmap SlaveID ResourceHints) s :
  foldl (offer_step now frameworkId) (offerable, s) l =
  (foldl (λ off e, <[e.1 := mkResourceHints e.2 Resources_empty]> off) offerable
         (unfiltered s now frameworkId l),
   foldl (λ s e, grant frameworkId e s) s (unfiltered s now frameworkId l)).
Proof.
  revert offerable s. induction l as [|e l IH]; intros offerable s; simpl; [done|].
  destruct (filtered s now frameworkId e.1 e.2) eqn:E; simpl.
  - apply IH.
  - rewrite IH. by rewrite (unfiltered_ext (grant frameworkId e s) s).
Qed.

Lemma elem_of_unfiltered s now frameworkId (available : gmap SlaveID Resources) a R :
  (a, R) ∈ unfiltered s now frameworkId (map_to_list available) ↔
  available !! a = Some R ∧ filtered s now frameworkId a R = false.
Proof.
  unfold unfiltered. rewrite list_elem_of_In, filter_In, <-list_elem_of_In.
  rewrite elem_of_map_to_list. simpl. by rewrite negb_true_iff.
Qed.

Lemma unfiltered_NoDup s now frameworkId (available : gmap SlaveID Resources) :
  NoDup ((unfiltered s now frameworkId (map_to_list available)).*1).
Proof.
  unfold unfiltered.
  pose proof (NoDup_fst_map_to_list available) as H.
  induction (map_to_list available) as [|e l IH]; simpl; [constructor|].
  apply NoDup_cons in H as [Hn Hl].
  destruct (negb _); simpl; [|by apply IH].
  apply NoDup_cons. split; [|by apply IH].
  intros Hin. apply Hn. apply list_elem_of_fmap in Hin as (e' & -> & Hin).
  apply list_elem_of_fmap. exists e'. split; [done|].
  apply list_elem_of_In in Hin. apply filter_In in Hin as [Hin _].
  by apply list_elem_of_In.
Qed.

Lemma lookup_foldl_insert (l : list (SlaveID * Resources))
    (offerable : gmap SlaveID ResourceHints) a h :
  NoDup (l.*1) →
  (foldl (λ off e, <[e.1 := mkResourceHints e.2 Resources_empty]> off) offerable l
     : gmap SlaveID ResourceHints) !! a = Some h ↔
  (∃ R, (a, R) ∈ l ∧ h = mkResourceHints R Resources_empty)
  ∨ ((a ∉ l.*1) ∧ offerable !! a = Some h).
Proof.
  revert offerable. induction l as [|[a' R'] l IH]; intros offerable Hnd; simpl.
  - split; [intros H; right; split; [apply not_elem_of_nil | done]|].
    intros [(R & Hin & _)|[_ H]]; [by apply elem_of_nil in Hin | done].
  - apply NoDup_cons in Hnd as [Hn Hnd]. rewrite (IH _ Hnd). split.
    + intros [(R & Hin & ->)|[Hni H]].
      * left. exists R. split; [by right | done].
      * destruct (decide (a' = a)) as [->|Hne].
        -- rewrite lookup_insert_eq in H. injection H as <-.
           left. exists R'. split; [by left | done].
        -- rewrite lookup_insert_ne in H by done. right. split; [|done].
           by apply not_elem_of_cons.
    + intros [(R & Hin & ->)|[Hni H]].
      * apply elem_of_cons in Hin as [Heq|Hin].
        -- injection Heq as -> ->. right. split; [done|]. by rewrite lookup_insert_eq.
        -- left. by exists R.
      * apply not_elem_of_cons in Hni as [Hne Hni]. right. split; [done|].
        by rewrite lookup_insert_ne.
Qed.

Lemma lookup_offerable_of s now frameworkId (available : gmap SlaveID Resources) a h :
  offerable_of s now frameworkId available !! a = Some h ↔
  ∃ R, available !! a = Some R ∧ filtered s now frameworkId a R = false
       ∧ h = mkResourceHints R Resources_empty.
Proof.
  unfold offerable_of. rewrite lookup_fmap_Some. split.
  - intros (R & <- & H). apply map_lookup_filter_Some in H as [H1 H2]. by exists R.
  - intros (R & H1 & H2 & ->). exists R. split; [done|].
    by apply map_lookup_filter_Some.
Qed.

Lemma lookup_still_available s now frameworkId (available : gmap SlaveID Resources) a R :
  still_available s now frameworkId available !! a = Some R ↔
  available !! a = Some R ∧ filtered s now frameworkId a R = true.
Proof. unfold still_available. by rewrite map_lookup_filter_Some. Qed.

(** The offer built by the inner loop. *)
Lemma inner_loop_offerable s now frameworkId (available : gmap SlaveID Resources) :
  foldl (λ off e, <[e.1 := mkResourceHints e.2 Resources_empty]> off) ∅
        (unfiltered s now frameworkId (map_to_list available))
  = offerable_of s now frameworkId available.
Proof.
  apply map_eq. intros a. apply option_eq. intros h.
  rewrite lookup_foldl_insert by apply unfiltered_NoDup.
  rewrite lookup_offerable_of. split.
  - intros [(R & Hin & ->)|[_ H]]; [|by rewrite lookup_empty in H].
    apply elem_of_unfiltered in Hin as [? ?]. by exists R.
  - intros (R & H1 & H2 & ->). left. exists R. split; [|done].
    by apply elem_of_unfiltered.
Qed.

Lemma lookup_foldl_delete (ks : list SlaveID) (m : gmap SlaveID Resources) a :
  (foldl (λ available slaveId, delete slaveId available) m ks
     : gmap SlaveID Resources) !! a
  = if bool_decide (a ∈ ks) then None else m !! a.
Proof.
  revert m. induction ks as [|k ks IH]; intros m; cbn [foldl].
  - by rewrite bool_decide_eq_false_2 by apply not_elem_of_nil.
  - rewrite IH. destruct (decide (a ∈ ks)) as [Hin|Hni].
    + by rewrite !bool_decide_eq_true_2 by (done || by right).
    + rewrite (bool_decide_eq_false_2 (a ∈ ks)) by done.
      destruct (decide (a = k)) as [->|Hne].
      * rewrite bool_decide_eq_true_2 by (by left). apply lookup_delete_eq.
      * rewrite bool_decide_eq_false_2 by (by intros [?|?]%elem_of_cons).
        by apply lookup_delete_ne.
Qed.

(** The available resources once the slaves of the offer are erased. *)
Lemma erase_offerable s now frameworkId (available : gmap SlaveID Resources) :
  foldl (λ available slaveId, delete slaveId available) available
        (map_to_list (offerable_of s now frameworkId available)).*1
  = still_available s now frameworkId available.
Proof.
  apply map_eq. intros a. rewrite lookup_foldl_delete.
  apply option_eq. intros R. rewrite lookup_still_available.
  case_bool_decide as Hin.
  - apply list_elem_of_fmap in Hin as ([a' h] & -> & Hin). simpl.
    apply elem_of_map_to_list, lookup_offerable_of in Hin as (R' & H1 & H2 & _).
    split; [done|]. intros [H3 H4]. congruence.
  - split; [|by intros [? _]]. intros H. split; [done|].
    destruct (filtered s now frameworkId a R) eqn:E; [done|].
    destruct Hin. apply list_elem_of_fmap.
    exists (a, mkResourceHints R Resources_empty). split; [done|].
    apply elem_of_map_to_list, lookup_offerable_of. by exists R.
Qed.

Lemma offerable_of_empty s now frameworkId (available : gmap SlaveID Resources) :
  offerable_of s now frameworkId available = ∅ →
  unfiltered s now frameworkId (map_to_list available) = []
  ∧ still_available s now frameworkId available = available.
Proof.
  intros H. split.
  - destruct (unfiltered _ _ _ _) as [|[a R] l] eqn:E; [done|].
    assert ((a, R) ∈ unfiltered s now frameworkId (map_to_list available)) as Hin
      by (rewrite E; by left).
    apply elem_of_unfiltered in Hin as [H1 H2].
    assert (offerable_of s now frameworkId available !! a
            = Some (mkResourceHints R Resources_empty)) as Hl
      by (apply lookup_offerable_of; by exists R).
    by rewrite H, lookup_empty in Hl.
  - apply map_eq. intros a. apply option_eq. intros R.
    rewrite lookup_still_available. split; [by intros [? _]|].
    intros H1. split; [done|].
    destruct (filtered s now frameworkId a R) eqn:E; [done|].
    assert (offerable_of s now frameworkId available !! a
            = Some (mkResourceHints R Resources_empty)) as Hl
      by (apply lookup_offerable_of; by exists R).
    by rewrite H, lookup_empty in Hl.
Qed.

(** One turn of the outer loop. *)
Lemma framework_step_eq now frameworkId (available : gmap SlaveID Resources) s offers :
  framework_step now (available, s, offers) frameworkId =
  (still_available s now frameworkId available,
   foldl (λ s e, grant frameworkId e s) s
         (unfiltered s now frameworkId (map_to_list available)),
   offers ++ (if decide (offerable_of s now frameworkId available = ∅) then []
              else [(frameworkId, offerable_of s now frameworkId available)])).
Proof.
  unfold framework_step. rewrite inner_loop, inner_loop_offerable.
  destruct (decide (offerable_of s now frameworkId available = ∅)) as [He|Hne].
  - rewrite bool_decide_eq_false_2 by (rewrite He, map_size_empty; lia).
    destruct (offerable_of_empty _ _ _ _ He) as [-> ->]. simpl.
    by rewrite app_nil_r.
  - rewrite bool_decide_eq_true_2.
    + by rewrite erase_offerable.
    + destruct (size _) eqn:E; [|lia]. by apply map_size_empty_iff in E.
Qed.

(** The outer loop: the state and the offers after it. *)
Lemma outer_loop now order s0 (available : gmap SlaveID Resources) s offers :
  filters s = filters s0 →
  (foldl (framework_step now) (available, s, offers) order).1 =
  (foldl (λ available f, still_available s0 now f available) available order,
   foldl (λ s g, grant g.1 g.2 s) s (grants s0 now order available))
  ∧ (foldl (framework_step now) (available, s, offers) order).2
    = offers ++ offers_of s0 now order available.
Proof.
  revert available s offers.
  induction order as [|f order IH]; intros available s offers Hf;
    cbn [foldl grants offers_of].
  - by rewrite app_nil_r.
  - rewrite framework_step_eq.
    rewrite (unfiltered_ext s s0), (still_available_ext s s0),
      (offerable_of_ext s s0) by done.
    destruct (IH (still_available s0 now f available)
                 (foldl (λ s e, grant f e s) s
                        (unfiltered s0 now f (map_to_list available)))
                 (offers ++ (if decide (offerable_of s0 now f available = ∅) then []
                             else [(f, offerable_of s0 now f available)])))
      as [-> ->]; [by rewrite grants_filters|].
    split.
    + f_equal. rewrite foldl_app. f_equal.
      by rewrite foldl_fmap.
    + by rewrite <-app_assoc.
Qed.

(** ** The available resources *)

Lemma available_step_ok s slaveIds (available : gmap SlaveID Resources) a F :
  initialized s = true →
  (a ∈ slaveIds → is_Some (slaves s !! a)) →
  ∃ available', available_step s slaveIds (Ok available) (a, F) = Ok available'
    ∧ ((available' = <[a := Resources_allocatable F]> available
        ∧ passes_gate s slaveIds a F (Resources_allocatable F))
       ∨ (available' = available
          ∧ ¬ passes_gate s slaveIds a F (Resources_allocatable F))).
Proof.
  intros Hinit Hs. unfold available_step, passes_gate. simpl.
  case_bool_decide as Hin; simpl.
  - destruct (Hs Hin) as [info Hinfo].
    unfold isWhitelisted. rewrite Hinit, Hinfo. simpl.
    destruct (whitelist s) as [w|] eqn:Hw.
    + case_bool_decide as Hh.
      * destruct (Qcleb _ _ && Qcltb _ _) eqn:E.
        -- apply andb_true_iff in E as [E1%bool_decide_eq_true E2%bool_decide_eq_true].
           eexists. split; [done|]. left. split; [done|].
           split_and!; [done | by exists info | done..].
        -- eexists. split; [done|]. right. split; [done|].
           intros (_ & _ & _ & E1 & E2).
           apply andb_false_iff in E as [E%bool_decide_eq_false|E%bool_decide_eq_false];
             by apply E.
      * eexists. split; [done|]. right. split; [done|].
        intros (_ & (info' & Hinfo' & Hwl) & _). congruence.
    + destruct (Qcleb _ _ && Qcltb _ _) eqn:E.
      * apply andb_true_iff in E as [E1%bool_decide_eq_true E2%bool_decide_eq_true].
        eexists. split; [done|]. left. split; [done|].
        split_and!; [done | by exists info | done..].
      * eexists. split; [done|]. right. split; [done|].
        intros (_ & _ & _ & E1 & E2).
        apply andb_false_iff in E as [E%bool_decide_eq_false|E%bool_decide_eq_false];
          by apply E.
  - eexists. split; [done|]. right. split; [done|]. by intros [? _].
Qed.

Lemma collect_available_fold s slaveIds (l : list (SlaveID * Resources))
    (acc : gmap SlaveID Resources) :
  initialized s = true →
  NoDup (l.*1) →
  (∀ a F, (a, F) ∈ l → a ∈ slaveIds → is_Some (slaves s !! a)) →
  (∀ a, a ∈ l.*1 → acc !! a = None) →
  ∃ available, foldl (available_step s slaveIds) (Ok acc) l = Ok available
    ∧ ∀ a R, available !! a = Some R ↔
        acc !! a = Some R ∨ ∃ F, (a, F) ∈ l ∧ passes_gate s slaveIds a F R.
Proof.
  intros Hinit. revert acc.
  induction l as [|[a0 F0] l IH]; intros acc Hnd Hs Hacc; cbn [foldl].
  - exists acc. split; [done|]. intros a R. split; [by left|].
    intros [?|(F & Hin & _)]; [done | by apply elem_of_nil in Hin].
  - apply NoDup_cons in Hnd as [Hn Hnd].
    destruct (available_step_ok s slaveIds acc a0 F0 Hinit) as (acc' & -> & Hacc').
    { apply (Hs a0 F0). by left. }
    destruct (IH acc' Hnd) as (available & -> & Hav).
    { intros a F Hin. apply (Hs a F). by right. }
    { intros a Hin.
      assert (a ≠ a0) as Hne by (intros ->; done).
      destruct Hacc' as [[-> _]|[-> _]].
      - rewrite lookup_insert_ne by done. apply Hacc. by right.
      - apply Hacc. by right. }
    exists available. split; [done|]. intros a R. rewrite Hav. split.
    + intros [H|(F & Hin & Hg)].
      * destruct Hacc' as [[-> Hg]|[-> _]]; [|by left].
        destruct (decide (a0 = a)) as [->|Hne].
        -- rewrite lookup_insert_eq in H. injection H as <-.
           right. exists F0. split; [by left | done].
        -- rewrite lookup_insert_ne in H by done. by left.
      * right. exists F. split; [by right | done].
    + intros [H|(F & Hin & Hg)].
      * left. destruct Hacc' as [[-> _]|[-> _]]; [|done].
        rewrite lookup_insert_ne; [done|]. intros ->.
        rewrite Hacc in H; [done | by left].
      * apply elem_of_cons in Hin as [Heq|Hin].
        -- injection Heq as -> ->. left.
           assert (R = Resources_allocatable F0) as -> by (by destruct Hg as (_ & _ & -> & _)).
           destruct Hacc' as [[-> _]|[_ Hng]]; [by rewrite lookup_insert_eq | done].
        -- right. by exists F.
Qed.

(** With the two maps of slaves in step, the collection succeeds, and
    it holds exactly the slaves that pass the gate. *)
Lemma collect_available_spec s slaveIds :
  initialized s = true → slaves_in_step s = true →
  ∃ available, collect_available s slaveIds = Ok available
    ∧ ∀ a R, available !! a = Some R ↔ is_available s slaveIds a R.
Proof.
  intros Hinit Hstep. apply bool_decide_eq_true in Hstep.
  destruct (collect_available_fold s slaveIds (map_to_list (allocatable s)) ∅ Hinit)
    as (available & Hc & Hav).
  - apply NoDup_fst_map_to_list.
  - intros a F Hin _. apply elem_of_map_to_list in Hin.
    apply elem_of_dom. apply Hstep. apply elem_of_dom. by exists F.
  - intros. apply lookup_empty.
  - exists available. split; [done|]. intros a R. rewrite Hav. unfold is_available.
    split.
    + intros [H|(F & Hin & Hg)]; [by rewrite lookup_empty in H|].
      exists F. split; [by apply elem_of_map_to_list | done].
    + intros (F & Hin & Hg). right. exists F. split; [by apply elem_of_map_to_list | done].
Qed.

(** ** The order of the frameworks *)

Lemma sorted_frameworks_perm s :
  sorted_frameworks s ≡ₚ (map_to_list (frameworks s)).*1.
Proof. apply sort_by_perm. Qed.

Lemma elem_of_sorted_frameworks s f :
  f ∈ sorted_frameworks s ↔ is_Some (frameworks s !! f).
Proof.
  rewrite sorted_frameworks_perm. split.
  - intros ([f' info] & -> & Hin)%list_elem_of_fmap.
    apply elem_of_map_to_list in Hin. by exists info.
  - intros [info Hin]. apply list_elem_of_fmap. exists (f, info).
    split; [done|]. by apply elem_of_map_to_list.
Qed.

Lemma sorted_frameworks_NoDup s : NoDup (sorted_frameworks s).
Proof. rewrite sorted_frameworks_perm. apply NoDup_fst_map_to_list. Qed.

Lemma sorted_frameworks_sorted s :
  StronglySorted (comes_before s) (sorted_frameworks s).
Proof.
  apply sort_by_sorted.
  - apply comparator_trans.
  - apply comparator_trichotomy.
  - apply NoDup_fst_map_to_list.
Qed.

(** ** The pass as a whole *)

Lemma grants_empty s now order : grants s now order ∅ = [].
Proof.
  induction order as [|f order IH]; simpl; [done|].
  unfold still_available. rewrite map_filter_empty, IH, map_to_list_empty. done.
Qed.

Lemma offers_of_empty s now order : offers_of s now order ∅ = [].
Proof.
  induction order as [|f order IH]; simpl; [done|].
  unfold still_available, offerable_of.
  rewrite !map_filter_empty, IH, fmap_empty. by rewrite decide_True.
Qed.

(** With the two maps of slaves in step, the pass never stops on a
    [CHECK]; its state is the one after the grants and its offers are
    the ones of the frameworks in order. *)
Lemma allocate_slaves_eq now slaveIds s :
  initialized s = true → slaves_in_step s = true →
  ∃ available, collect_available s slaveIds = Ok available
    ∧ (∀ a R, available !! a = Some R ↔ is_available s slaveIds a R)
    ∧ allocate_slaves now slaveIds s =
        Ok (foldl (λ s g, grant g.1 g.2 s) s
                  (grants s now (sorted_frameworks s) available),
            offers_of s now (sorted_frameworks s) available).
Proof.
  intros Hinit Hstep.
  destruct (collect_available_spec s slaveIds Hinit Hstep) as (available & Hc & Hav).
  exists available. split_and!; [done..|].
  unfold allocate_slaves. rewrite Hinit. simpl.
  case_bool_decide as Hfw.
  - apply map_size_empty_iff in Hfw. unfold sorted_frameworks.
    rewrite Hfw, map_to_list_empty. done.
  - rewrite Hc. simpl. case_bool_decide as Hsz.
    + apply map_size_empty_iff in Hsz. subst available.
      by rewrite grants_empty, offers_of_empty.
    + destruct (outer_loop now (sorted_frameworks s) s available s [] eq_refl) as [H1 H2].
      destruct (foldl (framework_step now) (available, s, []) (sorted_frameworks s))
        as [[av' s'] offers'].
      simpl in H1, H2. injection H1 as _ ->. by rewrite H2.
Qed.

(** ** The offers and the grants of a pass *)

Section Pass.
Variable s : State.
Variable now : Qc.

(** Nothing in a sorted sequence comes before its head. *)
Lemma sorted_head_first f order f' :
  StronglySorted (comes_before s) (f :: order) → f' ∈ f :: order → ¬ comes_before s f' f.
Proof.
  intros Hs Hin Hc. unfold comes_before in *.
  apply StronglySorted_inv in Hs as [_ Hall].
  apply elem_of_cons in Hin as [->|Hin].
  - by rewrite comparator_irrefl in Hc.
  - rewrite Forall_forall in Hall. specialize (Hall f' Hin). simpl in Hall.
    pose proof (comparator_trans _ _ _ _ _ Hall Hc) as Hff.
    by rewrite comparator_irrefl in Hff.
Qed.

Lemma offers_of_fst order (available : gmap SlaveID Resources) f m :
  (f, m) ∈ offers_of s now order available → f ∈ order.
Proof.
  revert available. induction order as [|f0 order IH]; intros available; simpl.
  - by intros ?%elem_of_nil.
  - intros [Hin|Hin]%elem_of_app.
    + destruct (decide _); [by apply elem_of_nil in Hin|].
      apply list_elem_of_singleton in Hin. injection Hin as -> _. by left.
    + right. by apply (IH _ Hin).
Qed.

Lemma offers_of_sublist order (available : gmap SlaveID Resources) :
  (offers_of s now order available).*1 `sublist_of` order.
Proof.
  revert available. induction order as [|f0 order IH]; intros available; simpl.
  - done.
  - rewrite fmap_app. destruct (decide _); simpl.
    + apply sublist_cons. apply IH.
    + apply sublist_skip. apply IH.
Qed.

(** An offer of the pass carries, for the framework, exactly the
    available slaves that were left to it and that it does not
    filter. *)
Lemma offers_of_sound order (available : gmap SlaveID Resources) f m :
  StronglySorted (comes_before s) order →
  (f, m) ∈ offers_of s now order available →
  m ≠ ∅
  ∧ ∀ a h, m !! a = Some h ↔
      ∃ R, available !! a = Some R
        ∧ h = mkResourceHints R Resources_empty
        ∧ filtered s now f a R = false
        ∧ ∀ f', f' ∈ order → comes_before s f' f → filtered s now f' a R = true.
Proof.
  revert available. induction order as [|f0 order IH]; intros available Hs; simpl.
  - by intros ?%elem_of_nil.
  - intros [Hin|Hin]%elem_of_app.
    + destruct (decide _) as [|Hne]; [by apply elem_of_nil in Hin|].
      apply list_elem_of_singleton in Hin. injection Hin as -> ->.
      split; [done|]. intros a h. rewrite lookup_offerable_of. split.
      * intros (R & H1 & H2 & ->). exists R. split_and!; [done..|].
        intros f' Hf' Hc. by destruct (sorted_head_first f0 order f' Hs Hf').
      * intros (R & H1 & -> & H2 & _). by exists R.
    + pose proof (StronglySorted_inv Hs) as [Hs' Hall].
      destruct (IH _ Hs' Hin) as [Hne Hm]. split; [done|].
      assert (comes_before s f0 f) as Hf0.
      { rewrite Forall_forall in Hall. apply Hall.
        by apply (offers_of_fst order (still_available s now f0 available) f m). }
      intros a h. rewrite Hm. split.
      * intros (R & H1 & -> & H2 & H3).
        apply lookup_still_available in H1 as [H1 H4].
        exists R. split_and!; [done..|].
        intros f' [->|Hf']%elem_of_cons Hc; [done | by apply H3].
      * intros (R & H1 & -> & H2 & H3). exists R. split_and!; [|done..|].
        -- apply lookup_still_available. split; [done|]. apply H3; [by left | done].
        -- intros f' Hf' Hc. apply H3; [by right | done].
Qed.

(** A framework that is the first not to filter an available slave
    gets an offer with that slave. *)
Lemma offers_of_complete order (available : gmap SlaveID Resources) f a R :
  f ∈ order → available !! a = Some R →
  filtered s now f a R = false →
  (∀ f', f' ∈ order → comes_before s f' f → filtered s now f' a R = true) →
  StronglySorted (comes_before s) order →
  ∃ m, (f, m) ∈ offers_of s now order available
    ∧ m !! a = Some (mkResourceHints R Resources_empty).
Proof.
  revert available.
  induction order as [|f0 order IH]; intros available Hf Ha Hnf Hbefore Hs; simpl.
  - by apply elem_of_nil in Hf.
  - pose proof (StronglySorted_inv Hs) as [Hs' Hall].
    destruct (decide (f = f0)) as [->|Hne].
    + assert (offerable_of s now f0 available !! a
              = Some (mkResourceHints R Resources_empty)) as Hl
        by (apply lookup_offerable_of; by exists R).
      exists (offerable_of s now f0 available). split; [|done].
      apply elem_of_app. left. destruct (decide _) as [He|_].
      * by rewrite He, lookup_empty in Hl.
      * by apply list_elem_of_singleton.
    + apply elem_of_cons in Hf as [?|Hf]; [done|].
      assert (comes_before s f0 f) as Hf0 by (rewrite Forall_forall in Hall; by apply Hall).
      destruct (IH (still_available s now f0 available)) as (m & Hin & Hm);
        [done | | done | | done |].
      * apply lookup_still_available. split; [done|]. apply Hbefore; [by left | done].
      * intros f' Hf' Hc. apply Hbefore; [by right | done].
      * exists m. split; [|done]. apply elem_of_app. by right.
Qed.

(** The grants of a pass are the entries of its offers. *)
Lemma elem_of_grants order (available : gmap SlaveID Resources) f a R :
  NoDup order →
  (f, (a, R)) ∈ grants s now order available ↔
  ∃ m, (f, m) ∈ offers_of s now order available
    ∧ m !! a = Some (mkResourceHints R Resources_empty).
Proof.
  revert available. induction order as [|f0 order IH]; intros available Hnd; simpl.
  - split; [by intros ?%elem_of_nil | by intros (? & ?%elem_of_nil & _)].
  - apply NoDup_cons in Hnd as [Hn Hnd].
    rewrite elem_of_app, (IH _ Hnd). split.
    + intros [Hin|(m & Hin & Hm)].
      * apply list_elem_of_fmap in Hin as ([a' R'] & [= -> <- <-] & Hin).
        apply elem_of_unfiltered in Hin as [H1 H2].
        assert (offerable_of s now f0 available !! a
                = Some (mkResourceHints R Resources_empty)) as Hl
          by (apply lookup_offerable_of; by exists R).
        exists (offerable_of s now f0 available). split; [|done].
        apply elem_of_app. left. destruct (decide _) as [He|_].
        -- by rewrite He, lookup_empty in Hl.
        -- by apply list_elem_of_singleton.
      * exists m. split; [|done]. apply elem_of_app. by right.
    + intros (m & [Hin|Hin]%elem_of_app & Hm).
      * left. destruct (decide _); [by apply elem_of_nil in Hin|].
        apply list_elem_of_singleton in Hin. injection Hin as -> ->.
        apply lookup_offerable_of in Hm as (R' & H1 & H2 & [= ->]).
        apply list_elem_of_fmap. exists (a, R'). split; [done|].
        by apply elem_of_unfiltered.
      * right. by exists m.
Qed.

Lemma grants_available order (available : gmap SlaveID Resources) f a R :
  (f, (a, R)) ∈ grants s now order available → available !! a = Some R.
Proof.
  revert available. induction order as [|f0 order IH]; intros available; simpl.
  - by intros ?%elem_of_nil.
  - intros [Hin|Hin]%elem_of_app.
    + apply list_elem_of_fmap in Hin as ([a' R'] & [= -> -> ->] & Hin).
      by apply elem_of_unfiltered in Hin as [? _].
    + apply IH in Hin. by apply lookup_still_available in Hin as [? _].
Qed.

(** No slave is granted twice in a pass. *)
Lemma grants_NoDup order (available : gmap SlaveID Resources) :
  NoDup ((grants s now order available).*2.*1).
Proof.
  revert available. induction order as [|f0 order IH]; intros available; simpl.
  - constructor.
  - rewrite !fmap_app. apply NoDup_app. split_and!.
    + assert (∀ l : list (SlaveID * Resources),
                ((λ e, (f0, e)) <$> l).*2.*1 = l.*1) as ->
        by (induction l as [|e l IHl]; simpl; [done | by f_equal]).
      apply unfiltered_NoDup.
    + intros a Hin1 Hin2.
      apply list_elem_of_fmap in Hin1 as (e1 & Ha1 & Hin1).
      apply list_elem_of_fmap in Hin1 as (g1 & He1 & Hin1).
      apply list_elem_of_fmap in Hin1 as (u1 & Hg1 & Hin1).
      subst g1 e1. destruct u1 as [a1 R1]. simpl in Ha1. subst a1.
      apply elem_of_unfiltered in Hin1 as [H1 H2].
      apply list_elem_of_fmap in Hin2 as (e2 & Ha2 & Hin2).
      apply list_elem_of_fmap in Hin2 as (g2 & He2 & Hin2).
      destruct g2 as [f2 [a2 R2]]. subst e2. simpl in Ha2. subst a2.
      apply grants_available, lookup_still_available in Hin2 as [H3 H4].
      congruence.
    + apply IH.
Qed.
End Pass.

(** ** The resource algebra *)

Lemma union_with_swap {V : Type} (f : V → V → V) (m x y : gmap string V) :
  (∀ a b, f a b = f b a) →
  (∀ a b c, f (f a b) c = f (f a c) b) →
  union_with (λ a b, Some (f a b)) (union_with (λ a b, Some (f a b)) m x) y
  = union_with (λ a b, Some (f a b)) (union_with (λ a b, Some (f a b)) m y) x.
Proof.
  intros Hc Hs. apply map_eq. intros i. rewrite !lookup_union_with.
  destruct (m !! i), (x !! i), (y !! i); simpl; try done; f_equal; auto.
Qed.

(** Adding two vectors to a third: the order does not matter. *)
Lemma Resources_add_swap A x y :
  Resources_add (Resources_add A x) y = Resources_add (Resources_add A y) x.
Proof.
  unfold Resources_add. simpl. f_equal.
  - apply (union_with_swap Qcplus); intros; ring.
  - apply (union_with_swap (∪)); intros.
    + apply (comm_L (∪)).
    + by rewrite <-!(assoc_L (∪)), (comm_L (∪) b c).
  - apply (union_with_swap (∪)); intros.
    + apply (comm_L (∪)).
    + by rewrite <-!(assoc_L (∪)), (comm_L (∪) b c).
Qed.

Lemma Resources_get_add A B name :
  Resources_get (Resources_add A B) name = Resources_get A name + Resources_get B name.
Proof.
  unfold Resources_get, Resources_add. simpl. rewrite lookup_union_with.
  destruct (scalars A !! name), (scalars B !! name); simpl; ring.
Qed.

Lemma Qcmax_0_0 : Qcmax 0 0 = 0.
Proof. done. Qed.

(** Taking the allocatable part of a vector out of it: for every
    scalar, what is left and what is taken make up what there was. *)
Lemma Resources_get_sub_allocatable F name :
  Resources_get (Resources_sub F (Resources_allocatable F)) name
  + Resources_get (Resources_allocatable F) name
  = Resources_get F name.
Proof.
  unfold Resources_get, Resources_sub, Resources_allocatable. simpl.
  rewrite lookup_difference_with.
  destruct (scalars F !! name) as [v|] eqn:E; simpl.
  - destruct (decide (EPSILON < v)) as [Hlt|Hnlt].
    + rewrite (proj2 (map_lookup_filter_Some _ (scalars F) name v)) by done. simpl.
      replace (v - v) with 0 by ring. rewrite Qcmax_0_0. ring.
    + rewrite (proj2 (map_lookup_filter_None _ (scalars F) name)).
      * simpl. ring.
      * right. intros v' Hv'. simpl. congruence.
  - rewrite (proj2 (map_lookup_filter_None _ (scalars F) name)) by (by left).
    simpl. ring.
Qed.

Lemma Qcmax_0_nonneg x : 0 ≤ x → Qcmax 0 x = x.
Proof.
  intros Hx. unfold Qcmax, Qcltb. case_bool_decide as H; [done|].
  apply Qcle_antisym; [done | by apply Qcnot_lt_le].
Qed.


(** ** Sums over a ledger *)

Lemma Qc_add_cancel (x y z : Qc) : x + z = y + z → x = y.
Proof.
  intros H. replace x with (x + z - z) by ring. rewrite H. ring.
Qed.

Lemma total_scalar_insert_None (m : gmap string Resources) k R name :
  m !! k = None →
  total_scalar (<[k := R]> m) name = Resources_get R name + total_scalar m name.
Proof.
  intros H. unfold total_scalar. rewrite map_fold_insert_L; [done| |done].
  intros. ring.
Qed.

Lemma total_scalar_delete (m : gmap string Resources) k R name :
  m !! k = Some R →
  total_scalar m name = Resources_get R name + total_scalar (delete k m) name.
Proof.
  intros H. unfold total_scalar. rewrite (map_fold_delete_L _ _ k R m); [done| |done].
  intros. ring.
Qed.

Lemma total_scalar_insert_Some (m : gmap string Resources) k R R' name :
  m !! k = Some R →
  total_scalar (<[k := R']> m) name + Resources_get R name
  = total_scalar m name + Resources_get R' name.
Proof.
  intros H. rewrite <-insert_delete_eq.
  rewrite total_scalar_insert_None by apply lookup_delete_eq.
  rewrite (total_scalar_delete m k R name H). ring.
Qed.

Lemma total_scalar_add_at (m : gmap string Resources) k R name :
  total_scalar (add_at k R m) name = total_scalar m name + Resources_get R name.
Proof.
  unfold add_at. destruct (m !! k) as [A|] eqn:E; simpl.
  - pose proof (total_scalar_insert_Some m k A (Resources_add A R) name E) as H.
    rewrite Resources_get_add in H.
    apply (Qc_add_cancel _ _ (Resources_get A name)). rewrite H. ring.
  - rewrite total_scalar_insert_None by done. rewrite Resources_get_add.
    unfold Resources_get at 1. simpl. rewrite lookup_empty. simpl. ring.
Qed.

(** Taking [R] out of the entry [A] of a ledger lowers the sum by [R]
    whenever it lowers [A] by [R]. *)
Lemma total_scalar_sub_at (m : gmap string Resources) k A R name :
  m !! k = Some A →
  Resources_get (Resources_sub A R) name + Resources_get R name = Resources_get A name →
  total_scalar (sub_at k R m) name + Resources_get R name = total_scalar m name.
Proof.
  intros E Hsub. unfold sub_at. rewrite E. simpl.
  pose proof (total_scalar_insert_Some m k A (Resources_sub A R) name E) as H.
  apply (Qc_add_cancel _ _ (Resources_get (Resources_sub A R) name)).
  rewrite <-H, <-Hsub. ring.
Qed.

(** A grant of the allocatable part of the free resources of a slave
    moves it from one side of the ledger to the other. *)
Lemma grant_conserves f a F s name :
  allocatable s !! a = Some F →
  total_scalar (allocated (grant f (a, Resources_allocatable F) s)) name
  + total_scalar (allocatable (grant f (a, Resources_allocatable F) s)) name
  = total_scalar (allocated s) name + total_scalar (allocatable s) name.
Proof.
  intros E. unfold grant. simpl.
  rewrite total_scalar_add_at.
  pose proof (total_scalar_sub_at (allocatable s) a F (Resources_allocatable F) name E
                (Resources_get_sub_allocatable F name)) as H.
  rewrite <-H. ring.
Qed.

Lemma grant_allocatable_ne f a R s a' :
  a' ≠ a → allocatable (grant f (a, R) s) !! a' = allocatable s !! a'.
Proof. intros Hne. unfold grant, sub_at. simpl. by rewrite lookup_insert_ne. Qed.

Lemma grant_allocatable_eq f a R s :
  allocatable (grant f (a, R) s) !! a
  = Some (Resources_sub (default Resources_empty (allocatable s !! a)) R).
Proof. unfold grant, sub_at. simpl. by rewrite lookup_insert_eq. Qed.

(** A sequence of grants, no slave twice, each of the allocatable part
    of the free resources of its slave, keeps the sum of the ledger. *)
Lemma grants_conserve (G : list (FrameworkID * (SlaveID * Resources))) s name :
  NoDup (G.*2.*1) →
  (∀ f a R, (f, (a, R)) ∈ G →
     ∃ F, allocatable s !! a = Some F ∧ R = Resources_allocatable F) →
  total_scalar (allocated (foldl (λ s g, grant g.1 g.2 s) s G)) name
  + total_scalar (allocatable (foldl (λ s g, grant g.1 g.2 s) s G)) name
  = total_scalar (allocated s) name + total_scalar (allocatable s) name.
Proof.
  revert s. induction G as [|[f [a R]] G IH]; intros s Hnd HG; cbn [foldl fst snd]; [done|].
  simpl in Hnd. apply NoDup_cons in Hnd as [Hn Hnd].
  destruct (HG f a R) as (F & HF & ->); [by left|].
  rewrite IH; [by apply grant_conserves | done |].
  intros f' a' R' Hin.
  assert (a' ≠ a) as Hne.
  { intros ->. apply Hn. apply list_elem_of_fmap. exists (a, R'). split; [done|].
    apply list_elem_of_fmap. by exists (f', (a, R')). }
  rewrite grant_allocatable_ne by done. apply (HG f'). by right.
Qed.

(** The free resources of the slaves after a sequence of grants. *)
Lemma grants_allocatable (G : list (FrameworkID * (SlaveID * Resources))) s a :
  NoDup (G.*2.*1) →
  (∀ f R, (f, (a, R)) ∈ G →
     allocatable (foldl (λ s g, grant g.1 g.2 s) s G) !! a
     = Some (Resources_sub (default Resources_empty (allocatable s !! a)) R))
  ∧ ((∀ f R, (f, (a, R)) ∉ G) →
     allocatable (foldl (λ s g, grant g.1 g.2 s) s G) !! a = allocatable s !! a).
Proof.
  revert s. induction G as [|[f0 [a0 R0]] G IH]; intros s Hnd; cbn [foldl fst snd].
  - split; [by intros ?? ?%elem_of_nil | done].
  - simpl in Hnd. apply NoDup_cons in Hnd as [Hn Hnd].
    destruct (IH (grant f0 (a0, R0) s) Hnd) as [IH1 IH2]. split.
    + intros f R [Heq|Hin]%elem_of_cons.
      * injection Heq as -> -> ->. rewrite IH2.
        -- apply grant_allocatable_eq.
        -- intros f' R' Hin. apply Hn. apply list_elem_of_fmap. exists (a0, R').
           split; [done|]. apply list_elem_of_fmap. by exists (f', (a0, R')).
      * assert (a ≠ a0) as Hne.
        { intros ->. apply Hn. apply list_elem_of_fmap. exists (a0, R).
          split; [done|]. apply list_elem_of_fmap. by exists (f, (a0, R)). }
        rewrite (IH1 f R Hin). by rewrite grant_allocatable_ne.
    + intros Hno. rewrite IH2.
      * apply grant_allocatable_ne. intros ->. apply (Hno f0 R0). by left.
      * intros f R Hin. apply (Hno f R). by right.
Qed.

Lemma grants_frame (G : list (FrameworkID * (SlaveID * Resources))) s :
  let s' := foldl (λ s g, grant g.1 g.2 s) s G in
  filters s' = filters s ∧ frameworks s' = frameworks s ∧ slaves s' = slaves s
  ∧ resources s' = resources s ∧ whitelist s' = whitelist s
  ∧ initialized s' = initialized s ∧ next_addr s' = next_addr s.
Proof.
  revert s. induction G as [|g G IH]; intros s; cbn [foldl]; [done|].
  destruct (IH (grant g.1 g.2 s)) as (-> & -> & -> & -> & -> & -> & ->). done.
Qed.

(** ** The allocations after a pass *)

Lemma foldl_add_swap (l : list Resources) A x :
  foldl Resources_add (Resources_add A x) l = Resources_add (foldl Resources_add A l) x.
Proof.
  revert A. induction l as [|y l IH]; intros A; simpl; [done|].
  by rewrite Resources_add_swap, IH.
Qed.

Lemma foldr_add_foldl {B : Type} (g : B → Resources) (l : list B) A :
  foldr (λ e acc, Resources_add acc (g e)) A l = foldl Resources_add A (g <$> l).
Proof.
  revert A. induction l as [|e l IH]; intros A; simpl; [done|].
  by rewrite IH, foldl_add_swap.
Qed.

(** The resources of an offer added to a vector, as the inner loop adds
    them. *)
Lemma add_offer_offerable s now f (available : gmap SlaveID Resources) A :
  add_offer A (offerable_of s now f available)
  = foldl Resources_add A (unfiltered s now f (map_to_list available)).*2.
Proof.
  unfold add_offer. rewrite map_fold_foldr.
  set (L := unfiltered s now f (map_to_list available)).
  assert (map_to_list (offerable_of s now f available)
          ≡ₚ (λ e, (e.1, mkResourceHints e.2 Resources_empty)) <$> L) as Hp.
  { apply NoDup_Permutation.
    - apply NoDup_map_to_list.
    - apply (NoDup_fmap_1 fst). rewrite <-list_fmap_compose.
      apply (unfiltered_NoDup s now f available).
    - intros [a h]. rewrite elem_of_map_to_list, lookup_offerable_of. split.
      + intros (R & H1 & H2 & ->). apply list_elem_of_fmap. exists (a, R).
        split; [done|]. by apply elem_of_unfiltered.
      + intros ([a' R] & [= -> ->] & Hin)%list_elem_of_fmap.
        apply elem_of_unfiltered in Hin as [? ?]. by exists R. }
  transitivity (foldr (uncurry (λ (_ : SlaveID) h acc,
                  Resources_add acc (expectedResources h))) A
                ((λ e, (e.1, mkResourceHints e.2 Resources_empty)) <$> L)).
  - apply (foldr_permutation (=)); [by intros x ?? -> | | exact Hp].
    intros j1 [a1 h1] j2 [a2 h2] b _ _ _. simpl. apply Resources_add_swap.
  - rewrite <-(foldr_add_foldl snd L A). clear Hp. subst L.
    induction (unfiltered s now f (map_to_list available)) as [|e l IH];
      simpl; [done|]. f_equal. exact IH.
Qed.

Lemma grant_fold_allocated f (U : list (SlaveID * Resources)) s f' :
  allocated (foldl (λ s e, grant f e s) s U) !! f' =
  if bool_decide (f' = f ∧ U ≠ [])
  then Some (foldl Resources_add (allocated_of (allocated s) f) U.*2)
  else allocated s !! f'.
Proof.
  revert s. induction U as [|e U IH]; intros s; cbn [foldl].
  - rewrite bool_decide_eq_false_2; [done|]. by intros [_ ?].
  - rewrite IH.
    assert (allocated (grant f e s)
            = <[f := Resources_add (allocated_of (allocated s) f) e.2]> (allocated s))
      as Hg by done.
    destruct (decide (f' = f)) as [->|Hne].
    + rewrite (bool_decide_eq_true_2 (f = f ∧ e :: U ≠ [])) by done.
      unfold allocated_of at 1. rewrite Hg, lookup_insert_eq. simpl.
      destruct U as [|e' U].
      * by rewrite bool_decide_eq_false_2 by (by intros [_ ?]).
      * by rewrite bool_decide_eq_true_2.
    + rewrite !bool_decide_eq_false_2 by (by intros [? _]).
      rewrite Hg. by rewrite lookup_insert_ne.
Qed.

(** The allocations after the grants of a pass: the framework of an
    offer has the resources of the offer added, every other framework
    has what it had. *)
Lemma pass_allocated s0 now order (available : gmap SlaveID Resources) s :
  NoDup order →
  (∀ f m, (f, m) ∈ offers_of s0 now order available →
     allocated (foldl (λ s g, grant g.1 g.2 s) s (grants s0 now order available)) !! f
     = Some (add_offer (allocated_of (allocated s) f) m))
  ∧ (∀ f, f ∉ (offers_of s0 now order available).*1 →
     allocated (foldl (λ s g, grant g.1 g.2 s) s (grants s0 now order available)) !! f
     = allocated s !! f).
Proof.
  revert available s. induction order as [|f0 order IH]; intros available s Hnd;
    cbn [grants offers_of].
  - split; [by intros ?? ?%elem_of_nil | done].
  - apply NoDup_cons in Hnd as [Hn Hnd].
    rewrite foldl_app, foldl_fmap. cbn [fst snd].
    set (U := unfiltered s0 now f0 (map_to_list available)).
    set (s1 := foldl (λ s e, grant f0 e s) s U).
    destruct (IH (still_available s0 now f0 available) s1 Hnd) as [IH1 IH2].
    assert (f0 ∉ (offers_of s0 now order (still_available s0 now f0 available)).*1)
      as Hf0.
    { intros ([f m] & -> & Hin)%list_elem_of_fmap. by apply offers_of_fst in Hin. }
    split.
    + intros f m [Hin|Hin]%elem_of_app.
      * destruct (decide _) as [|Hne]; [by apply elem_of_nil in Hin|].
        apply list_elem_of_singleton in Hin. injection Hin as -> ->.
        rewrite (IH2 f0 Hf0). unfold s1. rewrite grant_fold_allocated.
        rewrite bool_decide_eq_true_2.
        -- by rewrite add_offer_offerable.
        -- split; [done|]. intros HU. apply Hne.
           apply map_eq. intros a. rewrite lookup_empty.
           apply eq_None_not_Some. intros [h Hh].
           apply lookup_offerable_of in Hh as (R & H1 & H2 & _).
           assert ((a, R) ∈ U) as Hin by (by apply elem_of_unfiltered).
           rewrite HU in Hin. by apply elem_of_nil in Hin.
      * rewrite (IH1 f m Hin). do 2 f_equal. unfold allocated_of, s1.
        rewrite grant_fold_allocated. rewrite bool_decide_eq_false_2; [done|].
        intros [-> _]. apply Hf0. apply list_elem_of_fmap. by exists (f0, m).
    + intros f Hf. rewrite fmap_app in Hf. apply not_elem_of_app in Hf as [Hf1 Hf2].
      rewrite (IH2 f Hf2). unfold s1. rewrite grant_fold_allocated.
      rewrite bool_decide_eq_false_2; [done|]. intros [-> HU].
      destruct (decide _) as [He|_]; [|by destruct Hf1; left].
      by destruct (offerable_of_empty _ _ _ _ He) as [? _].
Qed.

(** ** The offers of a pass, in terms of the state before it *)

Lemma pass_offers_sound s now (available : gmap SlaveID Resources) f m :
  (f, m) ∈ offers_of s now (sorted_frameworks s) available →
  m ≠ ∅
  ∧ ∀ a h, m !! a = Some h ↔
      ∃ R, available !! a = Some R
        ∧ h = mkResourceHints R Resources_empty
        ∧ first_unfiltered s now f a R.
Proof.
  intros Hin.
  destruct (offers_of_sound s now _ _ f m (sorted_frameworks_sorted s) Hin) as [Hne Hm].
  split; [done|]. intros a h. rewrite Hm. unfold first_unfiltered.
  apply offers_of_fst, elem_of_sorted_frameworks in Hin.
  split.
  - intros (R & H1 & -> & H2 & H3). exists R. split_and!; [done..|].
    intros f' Hf' Hc. apply H3; [by apply elem_of_sorted_frameworks | done].
  - intros (R & H1 & -> & _ & H2 & H3). exists R. split_and!; [done..|].
    intros f' Hf' Hc. apply H3; [by apply elem_of_sorted_frameworks | done].
Qed.

Lemma pass_offers_complete s now (available : gmap SlaveID Resources) f a R :
  available !! a = Some R → first_unfiltered s now f a R →
  ∃ m, (f, m) ∈ offers_of s now (sorted_frameworks s) available
    ∧ m !! a = Some (mkResourceHints R Resources_empty).
Proof.
  intros Ha (Hf & Hnf & Hfirst).
  apply (offers_of_complete s now); [by apply elem_of_sorted_frameworks | done..| |].
  - intros f' Hf' Hc. apply Hfirst; [by apply elem_of_sorted_frameworks | done].
  - apply sorted_frameworks_sorted.
Qed.

(** Two frameworks cannot both be the first not to filter a slave. *)
Lemma first_unfiltered_unique s now f1 f2 a R :
  first_unfiltered s now f1 a R → first_unfiltered s now f2 a R → f1 = f2.
Proof.
  intros (Hf1 & Hn1 & H1) (Hf2 & Hn2 & H2).
  destruct (decide (f1 = f2)) as [|Hne]; [done|].
  destruct (comparator_trichotomy (resources s) (allocated s) f1 f2 Hne) as [Hc|Hc].
  - specialize (H2 f1 Hf1 Hc). congruence.
  - specialize (H1 f2 Hf2 Hc). congruence.
Qed.

(** C3.  No offer of a pass is held back by a filter: for every slave
    and resources in an offer to a framework, no filter of the
    framework is for that slave, covers the resources and has its
    deadline ahead; the registry is the same before and after the
    pass. *)
Theorem no_filtered_offer now slaveIds s :
  initialized s = true → slaves_in_step s = true →
  ∃ s' offers, allocate_slaves now slaveIds s = Ok (s', offers)
    ∧ filters s' = filters s
    ∧ ∀ f m a h, (f, m) ∈ offers → m !! a = Some h →
        filtered s now f a (expectedResources h) = false
        ∧ ¬ ∃ this, this ∈ filters_get s f
              ∧ a = filter_slaveId this
              ∧ Resources_le (expectedResources h) (filter_resources this) = true
              ∧ now < deadline (filter_timeout this).
Proof.
  intros Hinit Hstep.
  destruct (allocate_slaves_eq now slaveIds s Hinit Hstep) as (available & _ & _ & ->).
  eexists _, _. split; [reflexivity|]. split.
  - by destruct (grants_frame (grants s now (sorted_frameworks s) available) s) as [? _].
  - intros f m a h Hin Hm.
    destruct (pass_offers_sound s now available f m Hin) as [_ Hoff].
    apply Hoff in Hm as (R & _ & -> & _ & Hnf & _). simpl.
    split; [done|]. intros Hex. apply filtered_spec in Hex. congruence.
Qed.

(** A scalar of the allocatable part is the scalar of the vector, or
    it is not there. *)
Lemma Resources_get_allocatable F name :
  Resources_get (Resources_allocatable F) name = Resources_get F name
  ∨ Resources_get (Resources_allocatable F) name = 0.
Proof.
  unfold Resources_get, Resources_allocatable. simpl.
  destruct (filter _ (scalars F) !! name) as [x|] eqn:E; simpl; [|by right].
  apply map_lookup_filter_Some in E as [-> _]. by left.
Qed.

(** C4, as the code has it.  The available map of a pass holds a slave
    exactly when the slave is under consideration, its host is on the
    whitelist if there is one, and the allocatable part of its free
    resources has at least [MIN_CPUS] cpus and more than [MIN_MEM]
    memory; every slave in an offer of the pass is in that map, with
    the resources of the offer.  So no offer is for a slave whose host
    is missing from a whitelist, and, [MIN_CPUS] being positive, none
    for a slave with less than [MIN_CPUS] free cpus. *)
Theorem available_gate now slaveIds s :
  initialized s = true → slaves_in_step s = true →
  ∃ available s' offers,
    collect_available s slaveIds = Ok available
    ∧ allocate_slaves now slaveIds s = Ok (s', offers)
    ∧ (∀ a R, available !! a = Some R ↔
         ∃ F, allocatable s !! a = Some F
           ∧ a ∈ slaveIds
           ∧ (∃ info, slaves s !! a = Some info
                ∧ match whitelist s with None => True | Some w => hostname info ∈ w end)
           ∧ R = Resources_allocatable F
           ∧ MIN_CPUS ≤ Resources_get R "cpus"
           ∧ MIN_MEM < Resources_get R "mem")
    ∧ (∀ f m a h, (f, m) ∈ offers → m !! a = Some h →
         available !! a = Some (expectedResources h))
    ∧ (∀ f m a h w info, (f, m) ∈ offers → m !! a = Some h →
         whitelist s = Some w → slaves s !! a = Some info → hostname info ∈ w)
    ∧ (0 < MIN_CPUS →
       ∀ f m a h F, (f, m) ∈ offers → m !! a = Some h →
         allocatable s !! a = Some F → MIN_CPUS ≤ Resources_get F "cpus").
Proof.
  intros Hinit Hstep.
  destruct (allocate_slaves_eq now slaveIds s Hinit Hstep) as (available & Hc & Hav & ->).
  exists available. eexists _, _.
  assert (∀ f m a h, (f, m) ∈ offers_of s now (sorted_frameworks s) available →
            m !! a = Some h → available !! a = Some (expectedResources h)) as Hoffers.
  { intros f m a h Hin Hm.
    destruct (pass_offers_sound s now available f m Hin) as [_ Hoff].
    by apply Hoff in Hm as (R & ? & -> & _). }
  split_and!; [done | reflexivity | exact Hav | exact Hoffers | |].
  - intros f m a h w info Hin Hm Hw Hinfo.
    apply (Hoffers f m a h Hin), Hav in Hm as (F & _ & _ & (info' & Hinfo' & Hwl) & _).
    rewrite Hw in Hwl. congruence.
  - intros Hpos f m a h F Hin Hm HF.
    apply (Hoffers f m a h Hin), Hav in Hm as (F' & HF' & _ & _ & -> & Hcpus & _).
    assert (F' = F) as -> by congruence.
    destruct (Resources_get_allocatable F "cpus") as [E|E]; rewrite E in Hcpus; [done|].
    by destruct (Qclt_not_le _ _ Hpos).
Qed.

(** C7.  A pass is order-then-greedy.  The frameworks are taken in the
    order of the comparator; every available slave goes, with the
    whole of its available resources, to the first framework that does
    not filter it; no slave goes to two frameworks; a framework with at
    least one slave gets one offer with all of its slaves, and no
    framework gets two; the allocation of the framework grows by the
    resources of its offer, and the free resources of each slave in an
    offer shrink by what was offered. *)
Theorem allocate_order_then_greedy now slaveIds s :
  initialized s = true → slaves_in_step s = true →
  ∃ available s' offers,
    collect_available s slaveIds = Ok available
    ∧ allocate_slaves now slaveIds s = Ok (s', offers)
    ∧ StronglySorted (comes_before s) (sorted_frameworks s)
    ∧ (∀ f, f ∈ sorted_frameworks s ↔ is_Some (frameworks s !! f))
    ∧ offers.*1 `sublist_of` sorted_frameworks s
    ∧ NoDup (offers.*1)
    ∧ (∀ f m, (f, m) ∈ offers →
         m ≠ ∅
         ∧ ∀ a h, m !! a = Some h ↔
             ∃ R, available !! a = Some R
               ∧ h = mkResourceHints R Resources_empty
               ∧ first_unfiltered s now f a R)
    ∧ (∀ f a R, available !! a = Some R → first_unfiltered s now f a R →
         ∃ m, (f, m) ∈ offers ∧ m !! a = Some (mkResourceHints R Resources_empty))
    ∧ (∀ f1 m1 f2 m2 a, (f1, m1) ∈ offers → (f2, m2) ∈ offers →
         is_Some (m1 !! a) → is_Some (m2 !! a) → f1 = f2 ∧ m1 = m2)
    ∧ (∀ f m, (f, m) ∈ offers →
         allocated s' !! f = Some (add_offer (allocated_of (allocated s) f) m))
    ∧ (∀ f, f ∉ offers.*1 → allocated s' !! f = allocated s !! f)
    ∧ (∀ f m a h, (f, m) ∈ offers → m !! a = Some h →
         ∃ F, allocatable s !! a = Some F
           ∧ expectedResources h = Resources_allocatable F
           ∧ allocatable s' !! a = Some (Resources_sub F (expectedResources h)))
    ∧ (∀ a, (∀ f m, (f, m) ∈ offers → m !! a = None) →
         allocatable s' !! a = allocatable s !! a).
Proof.
  intros Hinit Hstep.
  destruct (allocate_slaves_eq now slaveIds s Hinit Hstep) as (available & Hc & Hav & ->).
  exists available. eexists _, _.
  set (order := sorted_frameworks s).
  set (offers := offers_of s now order available).
  set (G := grants s now order available).
  assert (NoDup (offers.*1)) as Hnd.
  { eapply sublist_NoDup; [apply sorted_frameworks_NoDup | apply offers_of_sublist]. }
  assert (∀ f m1 m2, (f, m1) ∈ offers → (f, m2) ∈ offers → m1 = m2) as Hfun.
  { intros f m1 m2 H1 H2.
    apply list_elem_of_lookup in H1 as [i1 H1]. apply list_elem_of_lookup in H2 as [i2 H2].
    assert (i1 = i2) as ->; [|congruence].
    apply (NoDup_lookup (offers.*1) i1 i2 f Hnd); rewrite list_lookup_fmap.
    - by rewrite H1.
    - by rewrite H2. }
  split_and!; [done | reflexivity | apply sorted_frameworks_sorted
              | apply elem_of_sorted_frameworks | apply offers_of_sublist | done
              | apply pass_offers_sound | apply pass_offers_complete | | | | |].
  - intros f1 m1 f2 m2 a H1 H2 [h1 Hm1] [h2 Hm2].
    destruct (pass_offers_sound s now available f1 m1 H1) as [_ Ho1].
    destruct (pass_offers_sound s now available f2 m2 H2) as [_ Ho2].
    apply Ho1 in Hm1 as (R1 & Ha1 & _ & Hf1). apply Ho2 in Hm2 as (R2 & Ha2 & _ & Hf2).
    assert (R1 = R2) as -> by congruence.
    assert (f1 = f2) as -> by (by eapply first_unfiltered_unique).
    split; [done|]. by eapply Hfun.
  - apply (pass_allocated s now order available s (sorted_frameworks_NoDup s)).
  - apply (pass_allocated s now order available s (sorted_frameworks_NoDup s)).
  - intros f m a h Hin Hm.
    destruct (pass_offers_sound s now available f m Hin) as [_ Ho].
    pose proof Hm as Hm'. apply Ho in Hm' as (R & Ha & -> & _). simpl.
    apply Hav in Ha as (F & HF & _ & _ & -> & _).
    exists F. split_and!; [done..|].
    destruct (grants_allocatable G s a (grants_NoDup s now order available)) as [HG _].
    subst G offers order.
    rewrite (HG f (Resources_allocatable F)); [by rewrite HF|].
    apply elem_of_grants; [apply sorted_frameworks_NoDup|]. by exists m.
  - intros a Hno.
    destruct (grants_allocatable G s a (grants_NoDup s now order available)) as [_ HG].
    subst G offers order. apply HG. intros f R Hin.
    apply elem_of_grants in Hin as (m & Hin & Hm); [|apply sorted_frameworks_NoDup].
    rewrite (Hno f m Hin) in Hm. done.
Qed.


(** ** An invariant of the reachable states *)

(** Case analysis on the first [CHECK] of a run that did not stop. *)
Ltac pass_check H :=
  match type of H with
  | context [CHECK ?c _] => destruct c eqn:?; simpl in H; [|discriminate H]
  end.

Lemma grants_dom (G : list (FrameworkID * (SlaveID * Resources))) s :
  (∀ f a R, (f, (a, R)) ∈ G → is_Some (allocatable s !! a)) →
  dom (allocatable (foldl (λ s g, grant g.1 g.2 s) s G)) = dom (allocatable s).
Proof.
  revert s. induction G as [|[f [a R]] G IH]; intros s HG; cbn [foldl fst snd]; [done|].
  assert (dom (allocatable (grant f (a, R) s)) = dom (allocatable s)) as Hd.
  { unfold grant, sub_at. simpl. rewrite dom_insert_L.
    assert (a ∈ dom (allocatable s)) as Ha by (apply elem_of_dom, (HG f a R); by left).
    apply (anti_symm (⊆)); [|apply union_subseteq_r].
    apply union_subseteq. split; [by apply singleton_subseteq_l | done]. }
  rewrite IH; [done|]. intros f' a' R' Hin.
  apply elem_of_dom. rewrite Hd. apply elem_of_dom. apply (HG f' a' R'). by right.
Qed.

Lemma allocate_slaves_invariant now slaveIds s s' offers :
  initialized s = true → slaves_in_step s = true →
  allocate_slaves now slaveIds s = Ok (s', offers) →
  initialized s' = true ∧ slaves_in_step s' = true.
Proof.
  intros Hinit Hstep Hrun.
  destruct (allocate_slaves_eq now slaveIds s Hinit Hstep) as (available & _ & Hav & Heq).
  rewrite Heq in Hrun. injection Hrun as <- _.
  destruct (grants_frame (grants s now (sorted_frameworks s) available) s)
    as (_ & _ & Hsl & _ & _ & Hin & _).
  split; [by rewrite Hin|].
  unfold slaves_in_step in *. apply bool_decide_eq_true. apply bool_decide_eq_true in Hstep.
  rewrite Hsl, grants_dom; [done|].
  intros f a R Hg. apply grants_available, Hav in Hg as (F & HF & _). by exists F.
Qed.

Lemma allocate_invariant now s s' offers :
  initialized s = true → slaves_in_step s = true →
  allocate now s = Ok (s', offers) →
  initialized s' = true ∧ slaves_in_step s' = true.
Proof.
  intros Hinit Hstep. unfold allocate. rewrite Hinit. simpl.
  by apply allocate_slaves_invariant.
Qed.

(** An event delivered to the process is an event handled by the
    allocator. *)
Lemma deliver_data now e p p' offers :
  deliver now e p = Delivered p' offers →
  handle now e (data p) = Ok (data p', offers)
  ∧ dangling p' = dangling_after e p
  ∧ timers p' = timers_after e p (data p')
  ∧ existsb (λ offer : Offer, has_dangling (dangling_after e p) offer.1) offers = false.
Proof.
  unfold deliver. destruct (handle now e (data p)) as [[s' offers']|w]; [|done].
  cbv zeta. destruct (existsb _ _) eqn:E; [done|].
  destruct (_ && _); [done|]. destruct (_ && _); [done|]. by intros [= <- <-].
Qed.

(** The outcome of an event that is handled when no dangling pointer
    is left after it. *)
Lemma deliver_no_dangling now e p s' offers :
  handle now e (data p) = Ok (s', offers) → dangling_after e p = ∅ →
  deliver now e p = Delivered (mkProcess s' ∅ (timers_after e p s')) offers.
Proof.
  intros Hrun Hd. unfold deliver. rewrite Hrun. cbv zeta. rewrite Hd.
  assert (existsb (λ offer : Offer, has_dangling ∅ offer.1) offers = false) as ->.
  { clear. induction offers as [|o offers IH]; simpl; [|exact IH].
    done. }
  assert (active_dangling ∅ s' = false) as ->.
  { apply bool_decide_eq_false. intros (x & Hx & _). by apply elem_of_empty in Hx. }
  rewrite andb_false_r. rewrite (bool_decide_eq_true_2 (∅ = ∅)) by done.
  by rewrite andb_false_r.
Qed.

(** Induction on the states of the data. *)
Lemma reachable_data_ind (P : State → Prop) :
  P (initialize State_new) →
  (∀ now e s s' offers, P s → handle now e s = Ok (s', offers) → P s') →
  ∀ s, reachable s → P s.
Proof.
  intros H0 Hstep s (p & Hp & <-).
  induction Hp as [|now e p p' offers _ IH _ Hrun]; [exact H0|].
  apply deliver_data in Hrun as (Hrun & _). by eapply Hstep.
Qed.

(** An event that is handled leaves the allocator initialized and its
    two maps of slaves in step. *)
Lemma handle_invariant now e s s' offers :
  initialized s = true → slaves_in_step s = true →
  handle now e s = Ok (s', offers) →
  initialized s' = true ∧ slaves_in_step s' = true.
Proof.
  intros Hinit Hstep Hrun.
  - assert (dom (allocatable s) ⊆ dom (slaves s)) as Hdom
      by (by apply bool_decide_eq_true in Hstep).
    destruct e; simpl in Hrun.
    + unfold frameworkAdded in Hrun. rewrite Hinit in Hrun. simpl in Hrun.
      do 2 pass_check Hrun. by apply allocate_invariant in Hrun.
    + unfold frameworkRemoved in Hrun. rewrite Hinit in Hrun. simpl in Hrun.
      by injection Hrun as <- _.
    + unfold frameworkActivated in Hrun. rewrite Hinit in Hrun. simpl in Hrun.
      pass_check Hrun. by apply allocate_invariant in Hrun.
    + unfold frameworkDeactivated in Hrun. rewrite Hinit in Hrun. simpl in Hrun.
      by injection Hrun as <- _.
    + unfold slaveAdded in Hrun. rewrite Hinit in Hrun. simpl in Hrun.
      pass_check Hrun.
      destruct (foldl _ _ _) as [allocated' unused].
      unfold allocate_slave in Hrun. simpl in Hrun. rewrite Hinit in Hrun. simpl in Hrun.
      apply allocate_slaves_invariant in Hrun; [done..|].
      apply bool_decide_eq_true. simpl. rewrite !dom_insert_L.
      by apply union_mono_l.
    + unfold slaveRemoved in Hrun. rewrite Hinit in Hrun. simpl in Hrun.
      destruct (slaves s !! slaveId); [|done]. injection Hrun as <- _.
      split; [done|]. apply bool_decide_eq_true. simpl. rewrite !dom_delete_L.
      intros x [Hx1 Hx2]%elem_of_difference. apply elem_of_difference. auto.
    + unfold updateWhitelist in Hrun. rewrite Hinit in Hrun. simpl in Hrun.
      by injection Hrun as <- _.
    + unfold resourcesRequested in Hrun. rewrite Hinit in Hrun. simpl in Hrun.
      by injection Hrun as <- _.
    + unfold resourcesUnused in Hrun. rewrite Hinit in Hrun. simpl in Hrun.
      case_bool_decide; [by injection Hrun as <- _|].
      pass_check Hrun. pass_check Hrun.
      match goal with Ha : bool_decide (is_Some (allocatable _ !! _)) = true |- _ =>
        apply bool_decide_eq_true in Ha; simpl in Ha; rename Ha into Hknown end.
      assert (dom (add_at slaveId (expectedResources resourceHints) (allocatable s))
              ⊆ dom (slaves s)) as Hd.
      { unfold add_at. rewrite dom_insert_L. apply elem_of_dom in Hknown.
        apply union_subseteq. split; [apply singleton_subseteq_l; by apply Hdom | done]. }
      destruct (negb _); injection Hrun as <- _;
        (split; [done | by apply bool_decide_eq_true]).
    + unfold resourcesRecovered in Hrun. rewrite Hinit in Hrun. simpl in Hrun.
      case_bool_decide; [by injection Hrun as <- _|]. injection Hrun as <- _.
      assert (∀ s0, allocatable s0 = allocatable s → slaves s0 = slaves s →
                initialized s0 = true →
                initialized
                  (if bool_decide (is_Some (allocatable s0 !! slaveId))
                   then set_allocatable
                          (add_at slaveId (expectedResources resourceHints)
                                  (allocatable s0)) s0
                   else s0) = true
                ∧ slaves_in_step
                    (if bool_decide (is_Some (allocatable s0 !! slaveId))
                     then set_allocatable
                            (add_at slaveId (expectedResources resourceHints)
                                    (allocatable s0)) s0
                     else s0) = true) as Hgen.
      { intros s0 E1 E2 E3. case_bool_decide as Ha.
        - split; [done|]. apply bool_decide_eq_true. simpl.
          unfold add_at. rewrite dom_insert_L, E1, E2.
          rewrite E1 in Ha. apply elem_of_dom in Ha.
          apply union_subseteq. split; [apply singleton_subseteq_l; by apply Hdom | done].
        - split; [done|]. apply bool_decide_eq_true. by rewrite E1, E2. }
      destruct (bool_decide (is_Some (allocated s !! frameworkId))); by apply Hgen.
    + unfold offersRevived in Hrun. rewrite Hinit in Hrun. simpl in Hrun.
      by apply allocate_invariant in Hrun.
    + unfold batch in Hrun. rewrite Hinit in Hrun. simpl in Hrun.
      by apply allocate_invariant in Hrun.
    + rewrite expire_delete in Hrun. injection Hrun as <- _.
      unfold delete_filter. by destruct (filters_contains _ _ _).
Qed.

(** Every reachable state is initialized and has its two maps of
    slaves in step: the allocation pass does not stop on a [CHECK] in a
    reachable state. *)
Lemma reachable_invariant s :
  reachable s → initialized s = true ∧ slaves_in_step s = true.
Proof.
  intros Hr.
  induction Hr as [|now e s s' offers [Hinit Hstep] Hrun] using reachable_data_ind.
  - split; [done|]. by apply bool_decide_eq_true.
  - by eapply handle_invariant.
Qed.

(** The order of the frameworks in a pass is the only sequence of the
    active frameworks that the comparator sorts. *)
Lemma sorted_frameworks_unique s (l : list FrameworkID) :
  l ≡ₚ (map_to_list (frameworks s)).*1 →
  StronglySorted (comes_before s) l → l = sorted_frameworks s.
Proof.
  intros Hp Hs.
  apply (sorted_unique (DominantShareComparator (resources s) (allocated s))).
  - apply comparator_irrefl.
  - apply comparator_trans.
  - by rewrite sorted_frameworks_perm.
  - exact Hs.
  - apply sorted_frameworks_sorted.
Qed.

Lemma run_reachable events p p' offers :
  process_reachable p → run events p = Some (Delivered p' offers) →
  process_reachable p'.
Proof.
  unfold run. generalize (@nil Offer) at 1. intros offers0. revert p offers0.
  induction events as [|[now e] events IH]; intros p offers0 Hp; simpl.
  - by intros [= <- _].
  - assert (∀ r, (∀ q o, r ≠ Some (Delivered q o)) →
              foldl (λ r e,
                       match r with
                       | Some (Delivered p _) =>
                           if enabled e.2 p then Some (deliver e.1 e.2 p) else None
                       | _ => r
                       end) r events = r) as Hstuck.
    { intros r Hr. clear -Hr. induction events as [|e' events IH']; simpl; [done|].
      destruct r as [[q o| | |]|]; [by destruct (Hr q o) | by apply IH'..]. }
    destruct (enabled e p) eqn:Hen.
    + destruct (deliver now e p) as [p1 offers1| | |] eqn:E.
      * apply IH. by eapply process_deliver.
      * by rewrite Hstuck.
      * by rewrite Hstuck.
      * by rewrite Hstuck.
    + by rewrite Hstuck.
Qed.

Lemma run_data_reachable events p s :
  process_reachable p → run_data events p = Some s → reachable s.
Proof.
  unfold run_data. intros Hp Hrun.
  destruct (run events p) as [[p' offers| | |]|] eqn:E; [|done..].
  injection Hrun as <-. exists p'. split; [|done]. by eapply run_reachable.
Qed.

(** A step of the data by an event of the master that ends with no
    pass and makes no filter is a step of the process. *)
Lemma reachable_quiet_step now e s s' :
  reachable s →
  match e with
  | FrameworkRemoved _ | FrameworkDeactivated _ | SlaveRemoved _ | UpdateWhitelist _
  | ResourcesRequested _ | ResourcesRecovered _ _ _ => True
  | _ => False
  end →
  handle now e s = Ok (s', []) → reachable s'.
Proof.
  intros (p & Hp & <-) He Hrun.
  exists (mkProcess s' (dangling_after e p) (timers_after e p s')). split; [|done].
  apply (process_deliver now e p _ []); [done | by destruct e |].
  unfold deliver. rewrite Hrun. by destruct e.
Qed.

(** ** Non-negative vectors

    The comparator is characterised for allocations without negative
    scalars; sums and differences of such vectors have none either. *)

Lemma Qcmax_0_nonneg_l x : 0 ≤ Qcmax 0 x.
Proof. apply Qcmax_l. Qed.

Lemma Resources_add_nonneg A B :
  Resources_nonneg A = true → Resources_nonneg B = true →
  Resources_nonneg (Resources_add A B) = true.
Proof.
  unfold Resources_nonneg. rewrite !bool_decide_eq_true. intros HA HB name x.
  unfold Resources_add. simpl. rewrite lookup_union_with.
  destruct (scalars A !! name) as [a|] eqn:Ea, (scalars B !! name) as [b|] eqn:Eb;
    simpl; intros [= <-].
  - specialize (HA name a Ea). specialize (HB name b Eb). simpl in *.
    rewrite <-(Qcplus_0_l 0). by apply Qcplus_le_compat.
  - by apply (HA name a).
  - by apply (HB name b).
Qed.

Lemma Resources_sub_nonneg A B :
  Resources_nonneg A = true → Resources_nonneg (Resources_sub A B) = true.
Proof.
  unfold Resources_nonneg. rewrite !bool_decide_eq_true. intros HA name x.
  unfold Resources_sub. simpl. rewrite lookup_difference_with.
  destruct (scalars A !! name) as [a|] eqn:Ea, (scalars B !! name) as [b|] eqn:Eb;
    simpl; intros [= <-].
  - apply Qcmax_0_nonneg_l.
  - by apply (HA name a).
Qed.

(** * Further properties of the allocator *)

(** ** The comparator and the sort *)

(** X1.  [DominantShareComparator::operator()] is a strict total order
    on framework ids, whatever the total and the allocations: no id
    comes before itself, the relation is transitive and asymmetric, and
    of two different ids one comes before the other.  It is therefore a
    comparator [std::sort] may be given. *)
Theorem DominantShareComparator_strict_total resources allocated :
  (∀ f, DominantShareComparator resources allocated f f = false)
  ∧ (∀ f1 f2 f3,
       DominantShareComparator resources allocated f1 f2 = true →
       DominantShareComparator resources allocated f2 f3 = true →
       DominantShareComparator resources allocated f1 f3 = true)
  ∧ (∀ f1 f2, DominantShareComparator resources allocated f1 f2 = true →
       DominantShareComparator resources allocated f2 f1 = false)
  ∧ (∀ f1 f2, f1 ≠ f2 →
       DominantShareComparator resources allocated f1 f2 = true
       ∨ DominantShareComparator resources allocated f2 f1 = true).
Proof.
  split_and!.
  - apply comparator_irrefl.
  - apply comparator_trans.
  - intros f1 f2 H12.
    destruct (DominantShareComparator resources allocated f2 f1) eqn:H21; [|done].
    pose proof (comparator_trans _ _ _ _ _ H12 H21) as H11.
    by rewrite comparator_irrefl in H11.
  - apply comparator_trichotomy.
Qed.

(** X2.  The order in which the pass visits the frameworks does not
    depend on the order in which the hash map of frameworks hands out
    its keys: sorting any arrangement of the active framework ids with
    the comparator gives the same sequence. *)
Theorem sort_order_independent s (l : list FrameworkID) :
  l ≡ₚ (map_to_list (frameworks s)).*1 →
  sort_by (DominantShareComparator (resources s) (allocated s)) l = sorted_frameworks s.
Proof.
  intros Hp. apply sorted_frameworks_unique.
  - by rewrite sort_by_perm.
  - apply sort_by_sorted.
    + apply comparator_trans.
    + apply comparator_trichotomy.
    + rewrite Hp. apply NoDup_fst_map_to_list.
Qed.

(** ** What a pass leaves alone *)

(** Among the active frameworks that do not filter a slave there is a
    first one. *)
Lemma exists_first_unfiltered s now f0 a R :
  is_Some (frameworks s !! f0) → filtered s now f0 a R = false →
  ∃ f, first_unfiltered s now f a R.
Proof.
  intros Hf0 Hn0. apply elem_of_sorted_frameworks in Hf0.
  assert (∃ f, f ∈ sorted_frameworks s ∧ filtered s now f a R = false
               ∧ ∀ f', f' ∈ sorted_frameworks s → comes_before s f' f →
                       filtered s now f' a R = true) as (f & Hf & Hn & Hfirst).
  { pose proof (sorted_frameworks_sorted s) as Hs.
    induction (sorted_frameworks s) as [|x l IH]; [by apply elem_of_nil in Hf0|].
    destruct (filtered s now x a R) eqn:Ex.
    - apply elem_of_cons in Hf0 as [->|Hf0]; [congruence|].
      pose proof (StronglySorted_inv Hs) as [Hs' _].
      destruct (IH Hf0 Hs') as (f & Hf & Hn & Hfirst).
      exists f. split_and!; [by right | done |].
      intros f' [->|Hf']%elem_of_cons Hc; [done | by apply Hfirst].
    - exists x. split_and!; [by left | done |].
      intros f' Hf' Hc. by destruct (sorted_head_first s x l f' Hs Hf'). }
  exists f. split_and!; [by apply elem_of_sorted_frameworks | done |].
  intros f' Hf' Hc. apply Hfirst; [by apply elem_of_sorted_frameworks | done].
Qed.

(** X3.  A pass leaves an available slave out of its offers only when
    every active framework filters it: if one active framework has no
    filter that holds the slave back, the slave is offered. *)
Theorem unoffered_iff_all_filter now slaveIds s :
  initialized s = true → slaves_in_step s = true →
  ∃ available s' offers,
    collect_available s slaveIds = Ok available
    ∧ allocate_slaves now slaveIds s = Ok (s', offers)
    ∧ ∀ a R, available !! a = Some R →
        (¬ offered offers a ↔
         ∀ f, is_Some (frameworks s !! f) → filtered s now f a R = true).
Proof.
  intros Hinit Hstep.
  destruct (allocate_slaves_eq now slaveIds s Hinit Hstep) as (available & Hc & Hav & ->).
  exists available. eexists _, _. split_and!; [done | reflexivity |].
  intros a R Ha. split.
  - intros Hno f Hf. destruct (filtered s now f a R) eqn:E; [done|].
    destruct Hno. destruct (exists_first_unfiltered s now f a R Hf E) as (f1 & Hf1).
    destruct (pass_offers_complete s now available f1 a R Ha Hf1) as (m & Hin & Hm).
    exists f1, m. split; [done | by eexists].
  - intros Hall (f & m & Hin & [h Hm]).
    destruct (pass_offers_sound s now available f m Hin) as [_ Hoff].
    apply Hoff in Hm as (R' & Ha' & _ & Hf & Hn & _).
    assert (R' = R) as -> by congruence.
    rewrite (Hall f Hf) in Hn. done.
Qed.

(** A pass that makes no offer leaves the state as it has found it. *)
Lemma allocate_slaves_no_offer now slaveIds s s' :
  initialized s = true → slaves_in_step s = true →
  allocate_slaves now slaveIds s = Ok (s', []) → s' = s.
Proof.
  intros Hinit Hstep Hrun.
  destruct (allocate_slaves_eq now slaveIds s Hinit Hstep) as (available & _ & _ & Heq).
  rewrite Heq in Hrun. injection Hrun as <- Hoffers.
  destruct (grants s now (sorted_frameworks s) available) as [|[f [a R]] G] eqn:HG;
    [done|].
  assert ((f, (a, R)) ∈ grants s now (sorted_frameworks s) available) as Hin
    by (rewrite HG; by left).
  apply elem_of_grants in Hin as (m & Hin & _); [|apply sorted_frameworks_NoDup].
  rewrite Hoffers in Hin. by apply elem_of_nil in Hin.
Qed.

(** What a pass that has run to its end has left alone. *)
Lemma allocate_slaves_keeps now slaveIds s s' offers :
  initialized s = true → slaves_in_step s = true →
  allocate_slaves now slaveIds s = Ok (s', offers) →
  frameworks s' = frameworks s ∧ slaves s' = slaves s
  ∧ resources s' = resources s ∧ whitelist s' = whitelist s
  ∧ filters s' = filters s ∧ next_addr s' = next_addr s
  ∧ (∀ a, a ∉ slaveIds → allocatable s' !! a = allocatable s !! a)
  ∧ (∀ f, frameworks s !! f = None → allocated s' !! f = allocated s !! f)
  ∧ dom (allocatable s') = dom (allocatable s).
Proof.
  intros Hinit Hstep Hrun.
  destruct (allocate_slaves_eq now slaveIds s Hinit Hstep) as (available & Hc & Hav & Heq).
  rewrite Heq in Hrun. injection Hrun as <- _.
  destruct (grants_frame (grants s now (sorted_frameworks s) available) s)
    as (Hfl & Hfw & Hsl & Hres & Hwl & _ & Hna).
  split_and!; [done..| | |].
  - intros a Ha.
    destruct (grants_allocatable (grants s now (sorted_frameworks s) available) s a
                (grants_NoDup s now _ available)) as [_ HG].
    apply HG. intros f R Hin.
    apply grants_available, Hav in Hin as (F & _ & Hin & _). done.
  - intros f Hf.
    apply (pass_allocated s now (sorted_frameworks s) available s
             (sorted_frameworks_NoDup s)).
    intros ([f' m] & -> & Hin)%list_elem_of_fmap. simpl in Hf.
    apply offers_of_fst, elem_of_sorted_frameworks in Hin as [? Hin]. congruence.
  - apply grants_dom. intros f a R Hin.
    apply grants_available, Hav in Hin as (F & HF & _). by exists F.
Qed.

(** X4.  A pass touches the two sides of the ledger and nothing else:
    the active frameworks, the slaves, the cluster total, the whitelist
    and the filter registry are as before; the free resources change
    only for slaves under consideration, and the allocations only for
    active frameworks. *)
Theorem allocate_slaves_frame now slaveIds s :
  initialized s = true → slaves_in_step s = true →
  ∃ s' offers, allocate_slaves now slaveIds s = Ok (s', offers)
    ∧ frameworks s' = frameworks s ∧ slaves s' = slaves s
    ∧ resources s' = resources s ∧ whitelist s' = whitelist s
    ∧ filters s' = filters s ∧ next_addr s' = next_addr s
    ∧ (∀ a, a ∉ slaveIds → allocatable s' !! a = allocatable s !! a)
    ∧ (∀ f, frameworks s !! f = None → allocated s' !! f = allocated s !! f)
    ∧ dom (allocatable s') = dom (allocatable s).
Proof.
  intros Hinit Hstep.
  destruct (allocate_slaves_eq now slaveIds s Hinit Hstep) as (available & _ & _ & Heq).
  eexists _, _. split; [exact Heq|].
  by apply (allocate_slaves_keeps now slaveIds s _ _ Hinit Hstep Heq).
Qed.

(** ** The states the events keep the allocator in *)

Lemma registry_inv_delete m n f : registry_inv m n → registry_inv (delete f m) n.
Proof. apply map_Forall_delete. Qed.

Lemma registry_inv_put m n f x :
  registry_inv m n → filter_addr x = n → registry_inv (filters_put f x m) (S n).
Proof.
  intros Hm Hx. unfold filters_put. apply map_Forall_insert_2.
  - split_and!.
    + by destruct (default [] (m !! f)).
    + apply Forall_app. split; [|apply Forall_singleton; lia].
      destruct (m !! f) as [l|] eqn:E; simpl; [|done].
      destruct (Hm f l E) as (_ & Hl & _). eapply Forall_impl; [exact Hl|].
      intros y Hy. simpl in Hy. lia.
    + rewrite fmap_app. apply NoDup_app. split_and!.
      * destruct (m !! f) as [l|] eqn:E; simpl; [|apply NoDup_nil_2].
        by destruct (Hm f l E) as (_ & _ & Hl).
      * intros k Hk Hk'. apply list_elem_of_singleton in Hk'. simpl in Hk'.
        destruct (m !! f) as [l|] eqn:E; simpl in Hk; [|by apply elem_of_nil in Hk].
        destruct (Hm f l E) as (_ & Hl & _).
        apply list_elem_of_fmap in Hk as (y & -> & Hy).
        rewrite Forall_forall in Hl. specialize (Hl y Hy). simpl in Hl. lia.
      * apply NoDup_singleton.
  - intros g l Hg. destruct (Hm g l Hg) as (H1 & H2 & H3). split_and!; [done| |done].
    eapply Forall_impl; [exact H2|]. intros y Hy. simpl in Hy. lia.
Qed.

Lemma registry_inv_remove_one m n f addr :
  registry_inv m n → registry_inv (filters_remove_one f addr m) n.
Proof.
  intros Hm. unfold filters_remove_one.
  destruct (List.filter _ _) as [|x l'] eqn:E; [by apply registry_inv_delete|].
  apply map_Forall_insert_2; [|done].
  destruct (m !! f) as [l|] eqn:El; simpl in E; [|done].
  destruct (Hm f l El) as (_ & H2 & H3). rewrite <-E. split_and!.
  - by rewrite E.
  - rewrite Forall_forall in *. intros y Hy. apply H2.
    apply list_elem_of_In, filter_In in Hy as [Hy _]. by apply list_elem_of_In.
  - eapply sublist_NoDup; [exact H3|]. apply fmap_sublist.
    clear. induction l as [|y l IH]; simpl; [done|].
    destruct (negb _); [by apply sublist_skip | by apply sublist_cons].
Qed.

Lemma grants_allocated_dom (G : list (FrameworkID * (SlaveID * Resources))) s :
  dom (allocated s) ⊆ dom (allocated (foldl (λ s g, grant g.1 g.2 s) s G)).
Proof.
  revert s. induction G as [|[f [a R]] G IH]; intros s; cbn [foldl fst snd]; [done|].
  etrans; [|apply IH]. unfold grant, add_at. simpl. rewrite dom_insert_L.
  apply union_subseteq_r.
Qed.

Lemma well_formed_in_step s : well_formed s → slaves_in_step s = true.
Proof. intros (_ & Hdom & _). apply bool_decide_eq_true. by rewrite Hdom. Qed.

Lemma allocate_slaves_well_formed now slaveIds s s' offers :
  well_formed s → allocate_slaves now slaveIds s = Ok (s', offers) → well_formed s'.
Proof.
  intros Hwf Hrun. pose proof (well_formed_in_step s Hwf) as Hstep.
  destruct Hwf as (Hinit & Hdom & Hfa & Hreg).
  destruct (allocate_slaves_eq now slaveIds s Hinit Hstep) as (available & _ & Hav & Heq).
  rewrite Heq in Hrun. injection Hrun as <- _.
  destruct (grants_frame (grants s now (sorted_frameworks s) available) s)
    as (Hfl & _ & Hsl & _ & _ & Hin & Hna).
  split_and!.
  - by rewrite Hin.
  - rewrite Hsl, grants_dom; [done|].
    intros f a R Hg. apply grants_available, Hav in Hg as (F & HF & _). by exists F.
  - rewrite Hfl. etrans; [exact Hfa | apply grants_allocated_dom].
  - unfold registry_ok in *. by rewrite Hfl, Hna.
Qed.

Lemma allocate_well_formed now s s' offers :
  well_formed s → allocate now s = Ok (s', offers) → well_formed s'.
Proof.
  intros Hwf. unfold allocate. rewrite (proj1 Hwf). simpl.
  by apply allocate_slaves_well_formed.
Qed.

Lemma used_step_dom s (l : list (FrameworkID * Resources)) A U :
  dom A ⊆ dom (foldl (used_step s) (A, U) l).1.
Proof.
  revert A U. induction l as [|[f R] l IH]; intros A U; simpl; [done|].
  unfold used_step at 2. simpl. etrans; [|apply IH].
  case_bool_decide; [|done]. unfold add_at. rewrite dom_insert_L. apply union_subseteq_r.
Qed.

Lemma add_at_dom k R (m : gmap string Resources) :
  is_Some (m !! k) → dom (add_at k R m) = dom m.
Proof.
  intros Hk%elem_of_dom. unfold add_at. rewrite dom_insert_L.
  apply (anti_symm (⊆)); [|apply union_subseteq_r].
  apply union_subseteq. split; [by apply singleton_subseteq_l | done].
Qed.

Lemma sub_at_dom k R (m : gmap string Resources) :
  is_Some (m !! k) → dom (sub_at k R m) = dom m.
Proof.
  intros Hk%elem_of_dom. unfold sub_at. rewrite dom_insert_L.
  apply (anti_symm (⊆)); [|apply union_subseteq_r].
  apply union_subseteq. split; [by apply singleton_subseteq_l | done].
Qed.

(** Every event keeps the state well formed. *)
Lemma handle_well_formed now e s s' offers :
  well_formed s → handle now e s = Ok (s', offers) → well_formed s'.
Proof.
  intros Hwf Hrun. pose proof Hwf as (Hinit & Hdom & Hfa & Hreg).
  assert (registry_inv (filters s) (next_addr s)) as Hri
    by (by apply bool_decide_eq_true in Hreg).
  destruct e; simpl in Hrun.
  - unfold frameworkAdded in Hrun. rewrite Hinit in Hrun. simpl in Hrun.
    do 2 pass_check Hrun. apply allocate_well_formed in Hrun; [done|].
    split_and!; [done..| |done]. simpl. rewrite dom_insert_L.
    etrans; [exact Hfa | apply union_subseteq_r].
  - unfold frameworkRemoved in Hrun. rewrite Hinit in Hrun. simpl in Hrun.
    injection Hrun as <- _. split_and!; [done..| |].
    + rewrite remove_filters_filters. simpl. rewrite !dom_delete_L.
      intros x [Hx1 Hx2]%elem_of_difference. apply elem_of_difference. auto.
    + unfold registry_ok. rewrite remove_filters_filters. simpl.
      apply bool_decide_eq_true. by apply registry_inv_delete.
  - unfold frameworkActivated in Hrun. rewrite Hinit in Hrun. simpl in Hrun.
    pass_check Hrun. by apply allocate_well_formed in Hrun.
  - unfold frameworkDeactivated in Hrun. rewrite Hinit in Hrun. simpl in Hrun.
    injection Hrun as <- _. split_and!; [done..| |].
    + rewrite remove_filters_filters. simpl. rewrite dom_delete_L.
      intros x [Hx1 Hx2]%elem_of_difference. by apply Hfa.
    + unfold registry_ok. rewrite remove_filters_filters. simpl.
      apply bool_decide_eq_true. by apply registry_inv_delete.
  - unfold slaveAdded in Hrun. rewrite Hinit in Hrun. simpl in Hrun.
    pass_check Hrun.
    pose proof (used_step_dom s (map_to_list used) (allocated s)
                  (slave_resources slaveInfo)) as Hused.
    destruct (foldl _ _ _) as [allocated' unused]. simpl in Hused.
    unfold allocate_slave in Hrun. simpl in Hrun. rewrite Hinit in Hrun. simpl in Hrun.
    apply allocate_slaves_well_formed in Hrun; [done|].
    split_and!; [done| | |done]; simpl.
    + by rewrite !dom_insert_L, Hdom.
    + by etrans.
  - unfold slaveRemoved in Hrun. rewrite Hinit in Hrun. simpl in Hrun.
    destruct (slaves s !! slaveId); [|done]. injection Hrun as <- _.
    split_and!; [done| |done..]. simpl. by rewrite !dom_delete_L, Hdom.
  - unfold updateWhitelist in Hrun. rewrite Hinit in Hrun. simpl in Hrun.
    by injection Hrun as <- _.
  - unfold resourcesRequested in Hrun. rewrite Hinit in Hrun. simpl in Hrun.
    by injection Hrun as <- _.
  - unfold resourcesUnused in Hrun. rewrite Hinit in Hrun. simpl in Hrun.
    case_bool_decide; [by injection Hrun as <- _|].
    pass_check Hrun. pass_check Hrun.
    match goal with Ha : bool_decide (is_Some (allocatable _ !! _)) = true |- _ =>
      apply bool_decide_eq_true in Ha; simpl in Ha; rename Ha into Hknown end.
    match goal with Ha : bool_decide (is_Some (allocated _ !! _)) = true |- _ =>
      apply bool_decide_eq_true in Ha; rename Ha into Hfknown end.
    destruct (negb _); injection Hrun as <- _; (split_and!; [done|..]); simpl.
    + by rewrite add_at_dom.
    + rewrite sub_at_dom by done. unfold filters_put. rewrite dom_insert_L.
      apply union_subseteq. split; [|done].
      apply singleton_subseteq_l. by apply elem_of_dom.
    + apply bool_decide_eq_true. simpl. by apply registry_inv_put.
    + by rewrite add_at_dom.
    + by rewrite sub_at_dom.
    + done.
  - unfold resourcesRecovered in Hrun. rewrite Hinit in Hrun. simpl in Hrun.
    case_bool_decide; [by injection Hrun as <- _|]. injection Hrun as <- _.
    assert (∀ s0, well_formed s0 →
              well_formed
                (if bool_decide (is_Some (allocatable s0 !! slaveId))
                 then set_allocatable
                        (add_at slaveId (expectedResources resourceHints)
                                (allocatable s0)) s0
                 else s0)) as Hgen.
    { intros s0 Hwf0. case_bool_decide as Ha; [|done].
      destruct Hwf0 as (? & ? & ? & ?). split_and!; [done| |done..].
      simpl. by rewrite add_at_dom. }
    apply Hgen. case_bool_decide as Hf; [|done].
    split_and!; [done..| |done]. simpl. by rewrite sub_at_dom.
  - unfold offersRevived in Hrun. rewrite Hinit in Hrun. simpl in Hrun.
    apply allocate_well_formed in Hrun; [done|].
    split_and!; [done..| |].
    + rewrite remove_filters_filters. rewrite dom_delete_L.
      intros x [Hx1 Hx2]%elem_of_difference. by apply Hfa.
    + unfold registry_ok. rewrite remove_filters_filters. simpl.
      apply bool_decide_eq_true. by apply registry_inv_delete.
  - unfold batch in Hrun. rewrite Hinit in Hrun. simpl in Hrun.
    by apply allocate_well_formed in Hrun.
  - rewrite expire_delete in Hrun. injection Hrun as <- _. unfold delete_filter.
    destruct (filters_contains _ _ _); [|done].
    split_and!; [done..| |]; simpl.
    + etrans; [|exact Hfa]. unfold filters_remove_one.
      destruct (List.filter _ _) as [|x l'] eqn:E.
      * rewrite dom_delete_L. intros y [Hy _]%elem_of_difference. done.
      * rewrite dom_insert_L. apply union_subseteq. split; [|done].
        apply singleton_subseteq_l, elem_of_dom.
        destruct (filters s !! frameworkId); [done | by simpl in E].
    + apply bool_decide_eq_true. simpl. by apply registry_inv_remove_one.
Qed.

Lemma reachable_well_formed s : reachable s → well_formed s.
Proof.
  intros Hr. induction Hr as [|now e s s' offers IH Hrun] using reachable_data_ind.
  - split_and!; [done..| |].
    + simpl. by rewrite dom_empty_L.
    + apply bool_decide_eq_true. simpl. apply map_Forall_empty.
  - by eapply handle_well_formed.
Qed.

(** ** Filters: installed, lapsed, expired *)

Lemma filter_all (A : Type) (P : A → bool) (l : list A) :
  Forall (λ x, P x = true) l → List.filter P l = l.
Proof.
  induction 1 as [|x l Hx _ IH]; simpl; [done|]. by rewrite Hx, IH.
Qed.

(** Removing the filter that was put last gives the registry back. *)
Lemma filters_remove_one_put m n f x :
  registry_inv m n → filter_addr x = n →
  filters_remove_one f n (filters_put f x m) = m.
Proof.
  intros Hm Hx. unfold filters_remove_one, filters_put.
  rewrite lookup_insert_eq. simpl. rewrite List.filter_app. simpl.
  rewrite Hx, bool_decide_eq_true_2 by done. simpl. rewrite app_nil_r.
  destruct (m !! f) as [l|] eqn:E; simpl.
  - destruct (Hm f l E) as (Hne & Hlt & _).
    rewrite filter_all.
    + destruct l as [|y l]; [done|]. rewrite insert_insert_eq. by apply insert_id.
    + eapply Forall_impl; [exact Hlt|]. intros y Hy. simpl in Hy.
      apply negb_true_iff, bool_decide_eq_false. lia.
  - by apply delete_insert_id.
Qed.

Lemma filters_contains_put m f x :
  filters_contains f (filter_addr x) (filters_put f x m) = true.
Proof.
  unfold filters_contains, filters_put. rewrite lookup_insert_eq. simpl.
  rewrite existsb_app. simpl. rewrite bool_decide_eq_true_2 by done.
  by rewrite orb_true_r.
Qed.

(** [resourcesUnused] for a framework with an allocation and a slave
    with free resources, when there is something to return. *)
Lemma resourcesUnused_known now frameworkId slaveId resourceHints _filters s :
  initialized s = true →
  Resources_size (Resources_allocatable (expectedResources resourceHints)) ≠ 0%nat →
  is_Some (allocated s !! frameworkId) → is_Some (allocatable s !! slaveId) →
  ∃ s1,
    resourcesUnused now frameworkId slaveId resourceHints _filters s = Ok (s1, [])
    ∧ allocated s1 = sub_at frameworkId (expectedResources resourceHints) (allocated s)
    ∧ allocatable s1 = add_at slaveId (expectedResources resourceHints) (allocatable s)
    ∧ frameworks s1 = frameworks s ∧ slaves s1 = slaves s
    ∧ resources s1 = resources s ∧ whitelist s1 = whitelist s
    ∧ initialized s1 = true
    ∧ filters s1 =
        (if bool_decide (effective_refuse_seconds _filters = 0) then filters s
         else filters_put frameworkId
                (mkRefusedFilter (next_addr s) slaveId (expectedResources resourceHints)
                   (Timeout_in now (effective_refuse_seconds _filters)))
                (filters s)).
Proof.
  intros Hinit Hsize Hf Ha. unfold resourcesUnused. rewrite Hinit. simpl.
  rewrite bool_decide_eq_false_2 by done.
  rewrite (bool_decide_eq_true_2 _ Hf). simpl.
  rewrite (bool_decide_eq_true_2 _ Ha). simpl.
  assert (match _filters with
          | Some f => refuse_seconds f
          | None => refuse_seconds (mkFilters None)
          end = effective_refuse_seconds _filters) as -> by (by destruct _filters).
  case_bool_decide; simpl; eexists; (split; [reflexivity|]); by split_and!.
Qed.

(** ** The process and its pointers *)

(** What an event that has been handled has done to the registry. *)
Lemma handle_registry now e s s' offers :
  well_formed s → handle now e s = Ok (s', offers) →
  match e with
  | FrameworkRemoved f | FrameworkDeactivated f | OffersRevived f =>
      filters s' = delete f (filters s) ∧ next_addr s' = next_addr s
  | ResourcesUnused f _ _ _ =>
      (filters s' = filters s ∧ next_addr s' = next_addr s)
      ∨ (∃ x, filter_addr x = next_addr s
              ∧ filters s' = filters_put f x (filters s)
              ∧ next_addr s' = S (next_addr s))
  | Expire f addr => s' = delete_filter f addr s
  | _ => filters s' = filters s ∧ next_addr s' = next_addr s
  end.
Proof.
  intros Hwf Hrun. pose proof (well_formed_in_step s Hwf) as Hstep.
  destruct Hwf as (Hinit & Hdom & _ & _).
  assert (∀ s0 slaveIds s1 o, initialized s0 = true → slaves_in_step s0 = true →
            allocate_slaves now slaveIds s0 = Ok (s1, o) →
            filters s1 = filters s0 ∧ next_addr s1 = next_addr s0) as Hpass.
  { intros s0 slaveIds s1 o Hi Hs Hr.
    by destruct (allocate_slaves_keeps now slaveIds s0 s1 o Hi Hs Hr)
      as (_ & _ & _ & _ & ? & ? & _). }
  destruct e; simpl in Hrun.
  - unfold frameworkAdded in Hrun. rewrite Hinit in Hrun. simpl in Hrun.
    do 2 pass_check Hrun. unfold allocate in Hrun. simpl in Hrun.
    rewrite Hinit in Hrun. simpl in Hrun. by apply Hpass in Hrun.
  - unfold frameworkRemoved in Hrun. rewrite Hinit in Hrun. simpl in Hrun.
    injection Hrun as <- _. by rewrite remove_filters_filters.
  - unfold frameworkActivated in Hrun. rewrite Hinit in Hrun. simpl in Hrun.
    pass_check Hrun. unfold allocate in Hrun. simpl in Hrun.
    rewrite Hinit in Hrun. simpl in Hrun. by apply Hpass in Hrun.
  - unfold frameworkDeactivated in Hrun. rewrite Hinit in Hrun. simpl in Hrun.
    injection Hrun as <- _. by rewrite remove_filters_filters.
  - unfold slaveAdded in Hrun. rewrite Hinit in Hrun. simpl in Hrun.
    pass_check Hrun. destruct (foldl _ _ _) as [allocated' unused].
    unfold allocate_slave in Hrun. simpl in Hrun. rewrite Hinit in Hrun. simpl in Hrun.
    apply Hpass in Hrun; [done..|].
    apply bool_decide_eq_true. simpl. by rewrite !dom_insert_L, Hdom.
  - unfold slaveRemoved in Hrun. rewrite Hinit in Hrun. simpl in Hrun.
    destruct (slaves s !! slaveId); [|done]. by injection Hrun as <- _.
  - unfold updateWhitelist in Hrun. rewrite Hinit in Hrun. simpl in Hrun.
    by injection Hrun as <- _.
  - unfold resourcesRequested in Hrun. rewrite Hinit in Hrun. simpl in Hrun.
    by injection Hrun as <- _.
  - unfold resourcesUnused in Hrun. rewrite Hinit in Hrun. simpl in Hrun.
    case_bool_decide; [left; by injection Hrun as <- _|].
    pass_check Hrun. pass_check Hrun.
    destruct (negb _); injection Hrun as <- _; [right | by left].
    eexists. split; [|split; reflexivity]. reflexivity.
  - unfold resourcesRecovered in Hrun. rewrite Hinit in Hrun. simpl in Hrun.
    case_bool_decide; [by injection Hrun as <- _|]. injection Hrun as <- _.
    by do 2 case_bool_decide.
  - unfold offersRevived in Hrun. rewrite Hinit in Hrun. simpl in Hrun.
    unfold allocate in Hrun. simpl in Hrun. rewrite Hinit in Hrun. simpl in Hrun.
    apply Hpass in Hrun as [-> ->]; [|done..].
    by rewrite remove_filters_filters.
  - unfold batch in Hrun. rewrite Hinit in Hrun. simpl in Hrun.
    unfold allocate in Hrun. rewrite Hinit in Hrun. simpl in Hrun. by apply Hpass in Hrun.
  - rewrite expire_delete in Hrun. by injection Hrun as <- _.
Qed.

Lemma filters_get_delete frameworkId (m : gmap FrameworkID (list RefusedFilter)) g x :
  x ∈ default [] (delete frameworkId m !! g) → x ∈ default [] (m !! g).
Proof.
  destruct (decide (frameworkId = g)) as [<-|Hne].
  - rewrite lookup_delete_eq. by intros ?%elem_of_nil.
  - by rewrite lookup_delete_ne.
Qed.

(** Every event keeps the pointers of the process in order. *)
Lemma deliver_pointers_ok now e p p' offers :
  well_formed (data p) → pointers_ok p → enabled e p = true →
  deliver now e p = Delivered p' offers → pointers_ok p'.
Proof.
  intros Hwf (HR & HT & HD) Hen Hrun.
  apply deliver_data in Hrun as (Hrun & Hdang & Htim & _).
  pose proof (handle_registry now e (data p) (data p') offers Hwf Hrun) as Hreg.
  assert (registry_inv (filters (data p)) (next_addr (data p))) as Hri.
  { destruct Hwf as (_ & _ & _ & Hok). by apply bool_decide_eq_true in Hok. }
  assert (∀ f, filters_contains f (next_addr (data p)) (filters (data p)) = false)
    as Hfresh.
  { intros f. unfold filters_contains.
    destruct (filters (data p) !! f) as [l|] eqn:E; simpl; [|done].
    destruct (Hri f l E) as (_ & Hlt & _). clear -Hlt.
    induction Hlt as [|y l Hy _ IH]; simpl; [done|].
    rewrite bool_decide_eq_false_2 by lia. done. }
  assert (filters (data p') = filters (data p) → next_addr (data p') = next_addr (data p) →
          dangling p' ⊆ dangling p → timers p' = timers p → pointers_ok p') as Hsame.
  { intros Hfl Hna Hsub Ht. split_and!.
    - intros f x Hx. rewrite Ht. apply HR. unfold filters_get in *. by rewrite <-Hfl.
    - intros f a Ha. rewrite Hna. apply (HT f). by rewrite <-Ht.
    - intros f a Ha. rewrite Ht, Hna. apply HD. by apply Hsub. }
  assert (∀ f, filters (data p') = delete f (filters (data p)) →
               next_addr (data p') = next_addr (data p) →
               dangling p' = drop_dangling f (dangling p) → timers p' = timers p →
               pointers_ok p') as Hdrop.
  { intros f Hfl Hna Hd Ht. split_and!.
    - intros g x Hx. rewrite Ht. apply HR. unfold filters_get in *.
      rewrite Hfl in Hx. by eapply filters_get_delete.
    - intros g a Ha. rewrite Hna. apply (HT g). by rewrite <-Ht.
    - intros g a Ha. rewrite Ht, Hna. apply HD.
      rewrite Hd in Ha. by apply elem_of_filter in Ha as [_ Ha]. }
  destruct e; simpl in Hreg, Hdang, Htim;
    try lazymatch type of Hreg with
        | _ ∧ _ => destruct Hreg as [Hfl Hna];
                   first [by apply Hsame; rewrite ?Hdang | by eapply Hdrop]
        end.
  - destruct Hreg as [[Hfl Hna]|(x & Hx & Hfl & Hna)].
    + rewrite Hfl, Hfresh in Htim. by apply Hsame; rewrite ?Hdang.
    + assert (filters_contains frameworkId (next_addr (data p)) (filters (data p'))
              = true) as Hc.
      { rewrite Hfl, <-Hx. apply filters_contains_put. }
      rewrite Hc in Htim. split_and!.
      * intros g y Hy. rewrite Htim. unfold filters_get in Hy. rewrite Hfl in Hy.
        unfold filters_put in Hy.
        destruct (decide (frameworkId = g)) as [<-|Hne].
        -- rewrite lookup_insert_eq in Hy. simpl in Hy.
           apply elem_of_app in Hy as [Hy| ->%list_elem_of_singleton].
           ++ apply elem_of_union_r. by apply HR.
           ++ apply elem_of_union_l, elem_of_singleton. by rewrite Hx.
        -- rewrite lookup_insert_ne in Hy by done. apply elem_of_union_r. by apply HR.
      * intros g a Ha. rewrite Htim in Ha. rewrite Hna.
        apply elem_of_union in Ha as [[= -> ->]%elem_of_singleton|Ha]; [lia|].
        apply HT in Ha. lia.
      * intros g a Ha. rewrite Hdang in Ha. destruct (HD g a Ha) as [Hnt Hlt].
        rewrite Htim, Hna. split; [|lia].
        intros [[= -> ->]%elem_of_singleton|Hin]%elem_of_union; [lia | done].
  - simpl in Hen. apply bool_decide_eq_true in Hen.
    unfold delete_filter in Hreg.
    assert (∀ g y, y ∈ filters_get
                          (if filters_contains frameworkId addr (filters (data p))
                           then set_filters
                                  (filters_remove_one frameworkId addr (filters (data p)))
                                  (data p)
                           else data p) g →
                   y ∈ filters_get (data p) g
                   ∧ ¬ (g = frameworkId ∧ filter_addr y = addr)) as Hleft.
    { intros g y Hy.
      destruct (filters_contains frameworkId addr (filters (data p))) eqn:Hc.
      - unfold filters_get in Hy. simpl in Hy. rewrite filters_get_remove_one in Hy.
        destruct (decide (frameworkId = g)) as [<-|Hne].
        + apply list_elem_of_In, filter_In in Hy as [Hy Hn].
          apply negb_true_iff, bool_decide_eq_false in Hn.
          split; [by apply list_elem_of_In | by intros [_ ?]].
        + split; [done | by intros [-> _]].
      - split; [done|]. intros [-> Hy'].
        unfold filters_contains in Hc. unfold filters_get in Hy.
        assert (existsb (λ f, bool_decide (filter_addr f = addr))
                        (default [] (filters (data p) !! frameworkId)) = true) as Hex;
          [|congruence].
        apply existsb_exists. exists y.
        split; [by apply list_elem_of_In | by apply bool_decide_eq_true]. }
    split_and!.
    + intros g y Hy. rewrite Htim. rewrite Hreg in Hy. apply Hleft in Hy as [Hy Hne].
      apply elem_of_difference. split; [by apply HR|].
      intros [= -> Hy']%elem_of_singleton. by apply Hne.
    + intros g a Ha. rewrite Htim in Ha. apply elem_of_difference in Ha as [Ha _].
      rewrite Hreg. apply HT in Ha. by destruct (filters_contains _ _ _).
    + intros g a Ha. rewrite Hdang in Ha. rewrite Htim, Hreg.
      assert (next_addr (if filters_contains frameworkId addr (filters (data p))
                         then set_filters
                                (filters_remove_one frameworkId addr (filters (data p)))
                                (data p)
                         else data p) = next_addr (data p)) as ->
        by (by destruct (filters_contains _ _ _)).
      assert ((g, a) ∈ dangling p ∨ (g, a) = (frameworkId, addr)) as [Hold|[= -> ->]].
      { destruct (_ && _); [|by left].
        apply elem_of_union in Ha as [?%elem_of_singleton|?]; auto. }
      * destruct (HD g a Hold) as [Hnt Hlt]. split; [|done].
        by intros [? _]%elem_of_difference.
      * split; [|by apply (HT frameworkId)].
        intros [_ Hn]%elem_of_difference. by apply Hn, elem_of_singleton.
Qed.

(** The states of the process are well formed, pointers included. *)
Lemma process_reachable_ok p :
  process_reachable p → well_formed (data p) ∧ pointers_ok p.
Proof.
  induction 1 as [|now e p p' offers Hp [Hwf Hpt] Hen Hrun].
  - split.
    + split_and!; [done..| |].
      * simpl. by rewrite dom_empty_L.
      * apply bool_decide_eq_true. simpl. apply map_Forall_empty.
    + split_and!.
      * intros f x Hx. by apply elem_of_nil in Hx.
      * intros f a Ha. by apply elem_of_empty in Ha.
      * intros f a Ha. by apply elem_of_empty in Ha.
  - split.
    + apply deliver_data in Hrun as (Hrun & _). by eapply handle_well_formed.
    + by eapply deliver_pointers_ok.
Qed.

Lemma has_dangling_elem d f a : (f, a) ∈ d → has_dangling d f = true.
Proof. intros Hin. apply bool_decide_eq_true. by exists (f, a). Qed.

Lemma has_dangling_empty f : has_dangling ∅ f = false.
Proof.
  apply bool_decide_eq_false. intros (x & Hx & _). by apply elem_of_empty in Hx.
Qed.

(** X5.  In every state of the process that the model follows from
    [initialize] (no event has stopped on a [CHECK] or used a deleted
    filter, and none has had an outcome that the order of the pointers
    or the address of a new filter decides), the maps [allocatable]
    and [slaves] have the same keys, only frameworks with an
    allocation have filters, the registry holds no empty list and no
    address twice, every filter of the registry has its [expire]
    pending, and no [expire] is pending for a dangling pointer.  In
    such a state none of the three forms of [allocate] stops on a
    [CHECK]; the pass of [batch] uses a deleted filter when it offers
    resources to a framework under which the multihashmap holds a
    dangling pointer, and with no dangling pointer at all it is
    delivered. *)
Theorem reachable_pass_total p :
  process_reachable p →
  well_formed (data p) ∧ pointers_ok p
  ∧ ∀ now,
      (∀ slaveIds, ∃ s' offers,
         allocate_slaves now slaveIds (data p) = Ok (s', offers) ∧ well_formed s')
      ∧ (∃ s' offers, allocate now (data p) = Ok (s', offers))
      ∧ (∀ slaveId, ∃ s' offers, allocate_slave now slaveId (data p) = Ok (s', offers))
      ∧ (∃ s' offers,
           batch now (data p) = Ok (s', offers)
           ∧ (∀ frameworkId,
                frameworkId ∈ offers.*1 →
                has_dangling (dangling p) frameworkId = true →
                deliver now Batch p = UseAfterFree)
           ∧ (dangling p = ∅ →
              deliver now Batch p = Delivered (mkProcess s' ∅ (timers p)) offers)).
Proof.
  intros Hr. destruct (process_reachable_ok p Hr) as [Hwf Hpt].
  split; [done|]. split; [done|]. intros now.
  assert (∀ slaveIds, ∃ s' offers,
            allocate_slaves now slaveIds (data p) = Ok (s', offers) ∧ well_formed s')
    as Hpass.
  { intros slaveIds.
    destruct (allocate_slaves_eq now slaveIds (data p) (proj1 Hwf)
                (well_formed_in_step _ Hwf)) as (available & _ & _ & Heq).
    eexists _, _. split; [exact Heq|]. by eapply allocate_slaves_well_formed. }
  assert (∃ s' offers, allocate now (data p) = Ok (s', offers)) as (s' & offers & Hall).
  { unfold allocate. rewrite (proj1 Hwf). simpl.
    destruct (Hpass (dom (slaves (data p)))) as (s' & offers & Heq & _).
    by exists s', offers. }
  split_and!; [done | by eauto | |].
  - intros slaveId. unfold allocate_slave. rewrite (proj1 Hwf). simpl.
    destruct (Hpass {[slaveId]}) as (s1 & offers1 & Heq & _). by exists s1, offers1.
  - assert (batch now (data p) = Ok (s', offers)) as Hb.
    { unfold batch. rewrite (proj1 Hwf). simpl. exact Hall. }
    exists s', offers. split_and!; [done| |].
    + intros f Hin Hdang. unfold deliver. cbn [handle dangling_after]. rewrite Hb.
      cbv zeta.
      assert (existsb (λ offer : Offer, has_dangling (dangling p) offer.1) offers = true)
        as ->; [|done].
      apply existsb_exists. apply list_elem_of_fmap in Hin as (offer & -> & Hin).
      exists offer. split; [by apply list_elem_of_In | done].
    + intros Hnone.
      by rewrite (deliver_no_dangling now Batch p s' offers Hb Hnone).
Qed.

(** X6.  A refusal and the expiry of its filter: when [resourcesUnused]
    installs a filter (refusal different from zero, resources with a
    non-empty allocatable part, framework and slave known), the filter
    is registered under the framework with a fresh address and its
    [expire] is pending.  Once that [expire] is delivered, the registry
    of the filters alive is as it was before the refusal, and [expire]
    has moved no resources.  If the framework is active, the entry has
    been removed before the filter was deleted.  If the framework is
    not active (deactivated in between, or never activated), the entry
    is not removed, although the filter is deleted: the multihashmap is
    left with a dangling pointer under the framework, and once the
    framework is activated again, a pass that offers it resources uses
    the deleted filter.  (The process has no dangling pointer to begin
    with.) *)
Theorem resourcesUnused_then_expire now now' frameworkId slaveId resourceHints _filters p :
  initialized (data p) = true → registry_ok (data p) = true → dangling p = ∅ →
  Resources_size (Resources_allocatable (expectedResources resourceHints)) ≠ 0%nat →
  is_Some (allocated (data p) !! frameworkId) →
  is_Some (allocatable (data p) !! slaveId) →
  effective_refuse_seconds _filters ≠ 0 →
  ∃ p1 p2,
    deliver now (ResourcesUnused frameworkId slaveId resourceHints _filters) p
    = Delivered p1 []
    ∧ filters_contains frameworkId (next_addr (data p)) (filters (data p1)) = true
    ∧ enabled (Expire frameworkId (next_addr (data p))) p1 = true
    ∧ deliver now' (Expire frameworkId (next_addr (data p))) p1 = Delivered p2 []
    ∧ filters (data p2) = filters (data p)
    ∧ allocated (data p2) = allocated (data p1)
    ∧ allocatable (data p2) = allocatable (data p1)
    ∧ frameworks (data p2) = frameworks (data p)
    ∧ slaves (data p2) = slaves (data p)
    ∧ registry_ok (data p2) = true
    ∧ dangling p2 =
        (if bool_decide (is_Some (frameworks (data p) !! frameworkId))
         then ∅
         else {[(frameworkId, next_addr (data p))]})
    ∧ (frameworks (data p) !! frameworkId = None →
       ∀ now2 frameworkInfo s' offers,
         frameworkActivated now2 frameworkId frameworkInfo (data p2) = Ok (s', offers) →
         frameworkId ∈ offers.*1 →
         deliver now2 (FrameworkActivated frameworkId frameworkInfo) p2 = UseAfterFree).
Proof.
  intros Hinit Hreg Hnone0 Hsize Hf Ha Ht.
  assert (registry_inv (filters (data p)) (next_addr (data p))) as Hri
    by (by apply bool_decide_eq_true in Hreg).
  destruct (resourcesUnused_known now frameworkId slaveId resourceHints _filters
              (data p) Hinit Hsize Hf Ha)
    as (s1 & Hru & Had & Hal & Hfw & Hsl & _ & _ & Hinit1 & Hfl).
  rewrite (bool_decide_eq_false_2 _ Ht) in Hfl.
  assert (∃ x, filter_addr x = next_addr (data p)
               ∧ filters s1 = filters_put frameworkId x (filters (data p)))
    as (x & Hx & Hfl') by (eexists; split; [|exact Hfl]; done).
  clear Hfl.
  assert (next_addr s1 = S (next_addr (data p))) as Hna.
  { unfold resourcesUnused in Hru. rewrite Hinit in Hru. simpl in Hru.
    rewrite bool_decide_eq_false_2 in Hru by done.
    rewrite (bool_decide_eq_true_2 _ Hf) in Hru. simpl in Hru.
    rewrite (bool_decide_eq_true_2 _ Ha) in Hru. simpl in Hru.
    assert (match _filters with
            | Some f => refuse_seconds f
            | None => refuse_seconds (mkFilters None)
            end = effective_refuse_seconds _filters) as Hm by (by destruct _filters).
    rewrite Hm, (bool_decide_eq_false_2 _ Ht) in Hru. simpl in Hru.
    by injection Hru as <-. }
  assert (filters_contains frameworkId (next_addr (data p)) (filters s1) = true) as Hc.
  { rewrite Hfl', <-Hx. apply filters_contains_put. }
  assert (filters_remove_one frameworkId (next_addr (data p)) (filters s1)
          = filters (data p)) as Hrm.
  { rewrite Hfl'. by apply filters_remove_one_put. }
  set (p1 := mkProcess s1 ∅ ({[(frameworkId, next_addr (data p))]} ∪ timers p)).
  assert (deliver now (ResourcesUnused frameworkId slaveId resourceHints _filters) p
          = Delivered p1 []) as Hd1.
  { rewrite (deliver_no_dangling now
               (ResourcesUnused frameworkId slaveId resourceHints _filters) p s1 []
               Hru Hnone0).
    cbn [timers_after]. by rewrite Hc. }
  set (s2 := set_filters (filters (data p)) s1).
  set (d2 := (if bool_decide (is_Some (frameworks (data p) !! frameworkId))
              then ∅
              else {[(frameworkId, next_addr (data p))]})
             : gset (FrameworkID * nat)).
  set (p2 := mkProcess s2 d2
               (timers p1 ∖ {[(frameworkId, next_addr (data p))]})).
  assert (deliver now' (Expire frameworkId (next_addr (data p))) p1 = Delivered p2 [])
    as Hd2.
  { unfold deliver. cbn [handle]. rewrite expire_delete. unfold delete_filter.
    cbn [data p1]. rewrite Hc, Hrm.
    cbn [existsb dangling_after timers_after data dangling p1 pass_looked pass_slaves
         makes_filter andb].
    rewrite Hfw, Hc. unfold p2, d2. f_equal. f_equal.
    case_bool_decide; simpl; [done|]. apply union_empty_r_L. }
  exists p1, p2. split_and!; [done | done | | done | done..| | done |].
  - apply bool_decide_eq_true. cbn [timers p1]. apply elem_of_union_l. by apply elem_of_singleton.
  - apply bool_decide_eq_true. cbn [data p2 s2 filters next_addr set_filters].
    rewrite Hna. eapply map_Forall_impl; [exact Hri|]. intros g l (H1 & H2 & H3).
    split_and!; [done| |done]. eapply Forall_impl; [exact H2|].
    intros y Hy. simpl in Hy. lia.
  - intros Hnone now2 frameworkInfo s' offers Hact Hin.
    unfold deliver. cbn [handle]. rewrite Hact. cbn [dangling_after dangling p2].
    assert (existsb (λ offer : Offer, has_dangling d2 offer.1) offers = true) as ->;
      [|done].
    apply existsb_exists. apply list_elem_of_fmap in Hin as (offer & -> & Hin).
    exists offer. split; [by apply list_elem_of_In|].
    apply (has_dangling_elem _ _ (next_addr (data p))). unfold d2.
    rewrite Hnone. simpl. by apply elem_of_singleton.
Qed.

Lemma existsb_filter_dead (A : Type) (P Q : A → bool) (l : list A) :
  (∀ x, x ∈ l → Q x = false → P x = false) →
  existsb P (List.filter Q l) = existsb P l.
Proof.
  induction l as [|x l IH]; intros H; simpl; [done|].
  destruct (Q x) eqn:E; simpl.
  - rewrite IH; [done|]. intros y Hy. apply H. by right.
  - rewrite (H x) by (done || by left). simpl. apply IH.
    intros y Hy. apply H. by right.
Qed.

(** The grants and the offers of a pass depend on the state through the
    verdicts of the filters only. *)
Lemma grants_verdicts s1 s2 now order (available : gmap SlaveID Resources) :
  (∀ f a R, filtered s1 now f a R = filtered s2 now f a R) →
  grants s1 now order available = grants s2 now order available
  ∧ offers_of s1 now order available = offers_of s2 now order available.
Proof.
  intros Hv. revert available. induction order as [|f order IH]; intros available; [done|].
  assert (unfiltered s1 now f (map_to_list available)
          = unfiltered s2 now f (map_to_list available)) as Hu.
  { unfold unfiltered. apply List.filter_ext. intros e. by rewrite Hv. }
  assert (still_available s1 now f available = still_available s2 now f available) as Hs.
  { unfold still_available. apply map_filter_ext. intros a R _. simpl. by rewrite Hv. }
  assert (offerable_of s1 now f available = offerable_of s2 now f available) as Ho.
  { unfold offerable_of. f_equal. apply map_filter_ext. intros a R _. simpl. by rewrite Hv. }
  cbn [grants offers_of]. rewrite Hu, Hs, Ho.
  destruct (IH (still_available s2 now f available)) as [-> ->]. done.
Qed.

Lemma foldl_grant_set_filters m (G : list (FrameworkID * (SlaveID * Resources))) s :
  foldl (λ s g, grant g.1 g.2 s) (set_filters m s) G
  = set_filters m (foldl (λ s g, grant g.1 g.2 s) s G).
Proof.
  revert s. induction G as [|g G IH]; intros s; cbn [foldl]; [done|].
  rewrite <-IH. done.
Qed.

(** A pass in a state with another registry that gives the same
    verdicts. *)
Lemma allocate_slaves_verdicts now slaveIds s m :
  initialized s = true → slaves_in_step s = true →
  (∀ f a R, filtered (set_filters m s) now f a R = filtered s now f a R) →
  ∃ s' offers,
    allocate_slaves now slaveIds s = Ok (s', offers)
    ∧ allocate_slaves now slaveIds (set_filters m s) = Ok (set_filters m s', offers).
Proof.
  intros Hinit Hstep Hv.
  destruct (allocate_slaves_eq now slaveIds s Hinit Hstep) as (available & Hc & _ & Heq).
  destruct (allocate_slaves_eq now slaveIds (set_filters m s) Hinit Hstep)
    as (available' & Hc' & _ & Heq').
  assert (available' = available) as ->.
  { unfold collect_available in *. simpl in Hc'. 
    assert (∀ l acc, foldl (available_step (set_filters m s) slaveIds) acc l
                     = foldl (available_step s slaveIds) acc l) as Hfold.
    { induction l as [|e l IHl]; intros acc; simpl; [done|]. by rewrite IHl. }
    rewrite Hfold in Hc'. congruence. }
  eexists _, _. split; [exact Heq|]. rewrite Heq'.
  assert (sorted_frameworks (set_filters m s) = sorted_frameworks s) as -> by done.
  destruct (grants_verdicts (set_filters m s) s now (sorted_frameworks s) available Hv)
    as [-> ->].
  by rewrite foldl_grant_set_filters.
Qed.

(** X7.  A filter stops holding resources back at its deadline, not when
    [expire] removes it: once the deadline of the filters with a given
    address has come, a pass makes the same offers and the same changes
    to the ledger whether [expire] has been delivered for that address
    or not. *)
Theorem expire_after_deadline_invisible now slaveIds frameworkId addr s :
  initialized s = true → slaves_in_step s = true →
  (∀ x, x ∈ filters_get s frameworkId → filter_addr x = addr →
        deadline (filter_timeout x) ≤ now) →
  ∃ s1 s' offers,
    expire frameworkId addr s = Ok (s1, [])
    ∧ allocate_slaves now slaveIds s = Ok (s', offers)
    ∧ allocate_slaves now slaveIds s1 = Ok (set_filters (filters s1) s', offers).
Proof.
  intros Hinit Hstep Hdead.
  assert (∃ m, expire frameworkId addr s = Ok (set_filters m s, [])
               ∧ ∀ f a R, filtered (set_filters m s) now f a R = filtered s now f a R)
    as (m & -> & Hv).
  { rewrite expire_delete. unfold delete_filter.
    destruct (filters_contains _ _ _); [|by exists (filters s); destruct s].
    eexists. split; [reflexivity|]. intros f a R. unfold filtered at 1.
    unfold filters_get at 1. simpl. rewrite filters_get_remove_one.
    destruct (decide (frameworkId = f)) as [<-|Hne]; [|done].
    apply existsb_filter_dead. intros x Hx Hq.
    apply negb_false_iff, bool_decide_eq_true in Hq.
    destruct (RefusedFilter_filter x now a R) eqn:E; [|done].
    apply RefusedFilter_filter_spec in E as (_ & _ & Hlt).
    specialize (Hdead x Hx Hq). exfalso. by eapply Qclt_not_le. }
  destruct (allocate_slaves_verdicts now slaveIds s m Hinit Hstep Hv)
    as (s' & offers & H1 & H2).
  exists (set_filters m s), s', offers. split_and!; done.
Qed.

(** X8.  Filters lapse and do not come back: a filter that does not hold
    some resources of a slave back at one time does not hold them back
    at any later time, and neither does the whole registry of a
    framework. *)
Theorem filters_only_lapse s now now' frameworkId slaveId R :
  now ≤ now' →
  filtered s now frameworkId slaveId R = false →
  filtered s now' frameworkId slaveId R = false.
Proof.
  intros Hle Hn. destruct (filtered s now' frameworkId slaveId R) eqn:E; [|done].
  apply filtered_spec in E as (this & Hin & Hs & Hr & Hlt).
  assert (filtered s now frameworkId slaveId R = true) as Ht; [|congruence].
  apply filtered_spec. exists this. split_and!; [done..|].
  by eapply Qcle_lt_trans.
Qed.

(** ** Passes in a row, passes for one slave *)

(** What a pass leaves of the resources it has offered has no
    allocatable scalar. *)
Lemma Resources_get_allocatable_rest F name :
  Resources_get
    (Resources_allocatable (Resources_sub F (Resources_allocatable F))) name = 0.
Proof.
  unfold Resources_get, Resources_sub, Resources_allocatable. simpl.
  destruct (filter _ (difference_with _ _ _) !! name) as [x|] eqn:E; simpl; [|done].
  apply map_lookup_filter_Some in E as [E Hx]. simpl in Hx.
  rewrite lookup_difference_with in E.
  destruct (scalars F !! name) as [v|] eqn:Ev; simpl in E; [|done].
  destruct (decide (EPSILON < v)) as [Hlt|Hnlt].
  - rewrite (proj2 (map_lookup_filter_Some _ (scalars F) name v)) in E by done.
    simpl in E. injection E as <-. replace (v - v) with 0 by ring. apply Qcmax_0_0.
  - rewrite (proj2 (map_lookup_filter_None _ (scalars F) name)) in E.
    + simpl in E. injection E as <-. done.
    + right. intros v' Hv'. simpl. congruence.
Qed.

(** Nothing is granted when every framework filters every available
    slave. *)
Lemma all_filtered_no_grants s now order (available : gmap SlaveID Resources) :
  (∀ f a R, f ∈ order → available !! a = Some R → filtered s now f a R = true) →
  grants s now order available = [] ∧ offers_of s now order available = [].
Proof.
  induction order as [|f order IH]; intros Hall; [done|].
  assert (still_available s now f available = available) as Hs.
  { unfold still_available. apply map_filter_id. intros a R Ha. simpl.
    apply Hall; [by left | done]. }
  assert (unfiltered s now f (map_to_list available) = []) as Hu.
  { destruct (unfiltered s now f (map_to_list available)) as [|[a R] l] eqn:E; [done|].
    assert ((a, R) ∈ unfiltered s now f (map_to_list available)) as Hin
      by (rewrite E; by left).
    apply elem_of_unfiltered in Hin as [Ha Hn].
    rewrite (Hall f a R) in Hn; [done | by left | done]. }
  assert (offerable_of s now f available = ∅) as Ho.
  { apply map_empty. intros a.
    destruct (offerable_of s now f available !! a) as [h|] eqn:E; [|done].
    apply lookup_offerable_of in E as (R & Ha & Hn & _).
    rewrite (Hall f a R) in Hn; [done | by left | done]. }
  cbn [grants offers_of]. rewrite Hu, Hs, Ho.
  destruct IH as [-> ->]; [|by rewrite decide_True].
  intros f' a R Hf' Ha. apply Hall; [by right | done].
Qed.

(** An available slave that the pass grants to nobody is filtered by
    every active framework. *)
Lemma ungranted_all_filter s now (available : gmap SlaveID Resources) a R f :
  available !! a = Some R →
  (∀ f' R', (f', (a, R')) ∉ grants s now (sorted_frameworks s) available) →
  is_Some (frameworks s !! f) → filtered s now f a R = true.
Proof.
  intros Ha Hno Hf. destruct (filtered s now f a R) eqn:E; [done|].
  destruct (exists_first_unfiltered s now f a R Hf E) as (f1 & Hf1).
  destruct (pass_offers_complete s now available f1 a R Ha Hf1) as (m & Hin & Hm).
  destruct (Hno f1 R).
  apply elem_of_grants; [apply sorted_frameworks_NoDup|]. by exists m.
Qed.

(** X9.  A pass leaves nothing for a second pass at the same time: when
    the thresholds rule out a slave without allocatable cpus and memory
    (0 ≤ MIN_MEM, or 0 < MIN_CPUS), a pass over some of the same slaves
    right after a pass makes no offer and changes nothing. *)
Theorem allocate_slaves_twice now slaveIds slaveIds' s :
  initialized s = true → slaves_in_step s = true →
  0 ≤ MIN_MEM ∨ 0 < MIN_CPUS →
  slaveIds' ⊆ slaveIds →
  ∃ s' offers,
    allocate_slaves now slaveIds s = Ok (s', offers)
    ∧ allocate_slaves now slaveIds' s' = Ok (s', []).
Proof.
  intros Hinit Hstep Hmin Hsub.
  destruct (allocate_slaves_eq now slaveIds s Hinit Hstep) as (available & _ & Hav & Heq).
  set (G := grants s now (sorted_frameworks s) available) in *.
  set (s' := foldl (λ s g, grant g.1 g.2 s) s G) in *.
  exists s', (offers_of s now (sorted_frameworks s) available). split; [exact Heq|].
  destruct (allocate_slaves_invariant now slaveIds s s' _ Hinit Hstep Heq) as [Hinit' Hstep'].
  destruct (allocate_slaves_eq now slaveIds' s' Hinit' Hstep')
    as (available' & _ & Hav' & ->).
  destruct (grants_frame G s) as (Hfl & Hfw & Hsl & Hres & Hwl & _ & _).
  fold s' in Hfl, Hfw, Hsl, Hres, Hwl.
  destruct (all_filtered_no_grants s' now (sorted_frameworks s') available') as [-> ->];
    [|done].
  intros f a R' Hf Ha'.
  apply elem_of_sorted_frameworks in Hf. rewrite Hfw in Hf.
  apply Hav' in Ha' as (F' & HF' & Hin & (info & Hinfo & Hw) & -> & Hcpus & Hmem).
  rewrite (filtered_ext s' s) by done.
  destruct (grants_allocatable G s a (grants_NoDup s now _ available)) as [Hyes Hno].
  fold s' in Hyes, Hno.
  destruct (decide (a ∈ G.*2.*1)) as [Hg|Hg].
  - exfalso.
    apply list_elem_of_fmap in Hg as ([a0 R] & -> & Hg).
    apply list_elem_of_fmap in Hg as ([f0 [a1 R1]] & [= <- <-] & Hg). simpl in *.
    rewrite (Hyes f0 R Hg) in HF'.
    apply grants_available, Hav in Hg as (F & HF & _ & _ & -> & _).
    rewrite HF in HF'. simpl in HF'. injection HF' as <-.
    rewrite Resources_get_allocatable_rest in Hcpus, Hmem.
    destruct Hmin as [Hm|Hc].
    + exact (Qclt_not_le _ _ Hmem Hm).
    + exact (Qclt_not_le _ _ Hc Hcpus).
  - assert (∀ f' R', (f', (a, R')) ∉ G) as Hnot.
    { intros f' R' Hin'. apply Hg.
      apply list_elem_of_fmap. exists (a, R'). split; [done|].
      apply list_elem_of_fmap. by exists (f', (a, R')). }
    rewrite (Hno Hnot) in HF'.
    apply (ungranted_all_filter s now available a _ f); [|done..].
    apply Hav. exists F'. split; [done|]. split_and!; [by apply Hsub| |done..].
    exists info. by rewrite <-Hsl, <-Hwl.
Qed.

(** X10.  The pass for one slave ([allocate(const SlaveID&)], which
    [slaveAdded] runs) makes no offer, or one offer of that slave alone:
    its allocatable free resources, to the first framework in the order
    of the comparator that does not filter them; the free resources of
    the other slaves are not touched. *)
Theorem allocate_slave_one_offer now slaveId s :
  initialized s = true → slaves_in_step s = true →
  ∃ s' offers,
    allocate_slave now slaveId s = Ok (s', offers)
    ∧ (offers = []
       ∨ ∃ f R,
           offers = [(f, {[slaveId := mkResourceHints R Resources_empty]})]
           ∧ is_available s {[slaveId]} slaveId R
           ∧ first_unfiltered s now f slaveId R)
    ∧ ∀ a, a ≠ slaveId → allocatable s' !! a = allocatable s !! a.
Proof.
  intros Hinit Hstep. unfold allocate_slave. rewrite Hinit. simpl.
  destruct (allocate_slaves_eq now {[slaveId]} s Hinit Hstep)
    as (available & _ & Hav & ->).
  eexists _, _. split; [reflexivity|].
  assert (∀ a R, available !! a = Some R → a = slaveId) as Hone.
  { intros a R (F & _ & Hin & _)%Hav. by apply elem_of_singleton in Hin. }
  split.
  - assert (∀ f m, (f, m) ∈ offers_of s now (sorted_frameworks s) available →
              ∃ R, m = {[slaveId := mkResourceHints R Resources_empty]}
                   ∧ available !! slaveId = Some R
                   ∧ first_unfiltered s now f slaveId R) as Hoffer.
    { intros f m Hin. destruct (pass_offers_sound s now available f m Hin) as [Hne Hm].
      apply map_choose in Hne as (a & h & Ha).
      pose proof Ha as Ha'. apply Hm in Ha' as (R & HR & -> & Hfirst).
      pose proof (Hone a R HR) as ->. exists R. split_and!; [|done..].
      apply map_eq. intros b. destruct (decide (b = slaveId)) as [->|Hne].
      - by rewrite lookup_singleton_eq.
      - rewrite lookup_singleton_ne by done.
        destruct (m !! b) as [h|] eqn:Eb; [|done].
        apply Hm in Eb as (R' & HR' & _). by destruct (Hne (Hone b R' HR')). }
    pose proof (sublist_NoDup _ _ (sorted_frameworks_NoDup s)
                  (offers_of_sublist s now (sorted_frameworks s) available)) as Hnd.
    destruct (offers_of s now (sorted_frameworks s) available) as [|[f m] l]; [by left|].
    right. destruct (Hoffer f m) as (R & -> & HR & Hfirst); [by left|].
    exists f, R. split_and!; [|by apply Hav|done].
    destruct l as [|[f' m'] l]; [done|]. exfalso.
    destruct (Hoffer f' m') as (R' & _ & HR' & Hfirst'); [right; by left|].
    assert (R' = R) as -> by congruence.
    pose proof (first_unfiltered_unique s now f f' slaveId R Hfirst Hfirst') as ->.
    simpl in Hnd. apply NoDup_cons in Hnd as [Hnd _]. apply Hnd. by left.
  - intros a Ha.
    destruct (grants_allocatable (grants s now (sorted_frameworks s) available) s a
                (grants_NoDup s now _ available)) as [_ HG].
    apply HG. intros f R Hin. apply grants_available in Hin. by apply Hone in Hin.
Qed.

(** ** Who is offered what *)

(** X11.  A framework without filters leaves nothing on the table: after
    [offersRevived] for an active framework every available slave is in
    one of the offers of the pass it runs, and so it is after
    [frameworkAdded] in a well-formed state (the new framework cannot
    have filters, as it has no allocation). *)
Theorem unfiltered_framework_clears now frameworkId frameworkInfo used s :
  well_formed s →
  (is_Some (frameworks s !! frameworkId) →
   ∃ s' offers,
     offersRevived now frameworkId s = Ok (s', offers)
     ∧ ∀ a R, is_available s (dom (slaves s)) a R → offered offers a)
  ∧ (frameworks s !! frameworkId = None → allocated s !! frameworkId = None →
     ∃ s' offers,
       frameworkAdded now frameworkId frameworkInfo used s = Ok (s', offers)
       ∧ ∀ a R, is_available s (dom (slaves s)) a R → offered offers a).
Proof.
  intros Hwf. pose proof (well_formed_in_step s Hwf) as Hstep.
  destruct Hwf as (Hinit & Hdom & Hfa & Hreg).
  assert (∀ s0, initialized s0 = true → slaves_in_step s0 = true →
            is_Some (frameworks s0 !! frameworkId) →
            filters_get s0 frameworkId = [] →
            allocatable s0 = allocatable s → slaves s0 = slaves s →
            whitelist s0 = whitelist s →
            ∃ s' offers, allocate now s0 = Ok (s', offers)
              ∧ ∀ a R, is_available s (dom (slaves s)) a R → offered offers a) as Hgen.
  { intros s0 Hinit0 Hstep0 Hact Hnone Hal Hsl Hwl.
    unfold allocate. rewrite Hinit0. simpl.
    destruct (allocate_slaves_eq now (dom (slaves s0)) s0 Hinit0 Hstep0)
      as (available & _ & Hav & ->).
    eexists _, _. split; [reflexivity|]. intros a R Ha.
    assert (available !! a = Some R) as Ha'.
    { apply Hav. destruct Ha as (F & HF & Hin & (info & Hinfo & Hw) & H1 & H2 & H3).
      exists F. rewrite Hal. split; [done|]. rewrite Hsl. split_and!; [done| |done..].
      exists info. by rewrite Hsl, Hwl. }
    assert (filtered s0 now frameworkId a R = false) as Hn
      by (unfold filtered; by rewrite Hnone).
    destruct (exists_first_unfiltered s0 now frameworkId a R Hact Hn) as (f1 & Hf1).
    destruct (pass_offers_complete s0 now available f1 a R Ha' Hf1) as (m & Hin & Hm).
    exists f1, m. split; [done | by eexists]. }
  split.
  - intros Hact. unfold offersRevived. rewrite Hinit. simpl.
    apply Hgen; try done. apply remove_filters_get.
  - intros Hnf Hna. unfold frameworkAdded. rewrite Hinit. simpl.
    rewrite Hnf, Hna. simpl.
    apply Hgen; try done.
    + simpl. by rewrite lookup_insert_eq.
    + unfold filters_get. simpl.
      assert (filters s !! frameworkId = None) as ->; [|done].
      apply not_elem_of_dom. intros Hin. apply Hfa in Hin.
      apply elem_of_dom in Hin as [? Hin]. congruence.
Qed.

(** X12.  [updateWhitelist] only replaces the whitelist: it runs no
    pass, and the last whitelist is the one in force.  With an empty
    whitelist in force no slave is available, and every pass returns
    without an offer and without a change. *)
Theorem updateWhitelist_effect now slaveIds w1 w2 s :
  initialized s = true → slaves_in_step s = true →
  ∃ s1 s2,
    updateWhitelist w1 s = Ok (s1, [])
    ∧ updateWhitelist w2 s1 = Ok (s2, [])
    ∧ updateWhitelist w2 s = Ok (s2, [])
    ∧ s2 = set_whitelist w2 s
    ∧ (w2 = Some ∅ → allocate_slaves now slaveIds s2 = Ok (s2, [])).
Proof.
  intros Hinit Hstep. exists (set_whitelist w1 s), (set_whitelist w2 s).
  unfold updateWhitelist. simpl. rewrite Hinit. simpl.
  split_and!; [reflexivity..|]. intros ->.
  destruct (allocate_slaves_eq now slaveIds (set_whitelist (Some ∅) s) Hinit Hstep)
    as (available & _ & Hav & ->).
  assert (available = ∅) as ->.
  { apply map_empty. intros a. destruct (available !! a) as [R|] eqn:E; [|done].
    apply Hav in E as (F & _ & _ & (info & _ & Hw) & _). simpl in Hw.
    by apply elem_of_empty in Hw. }
  by rewrite grants_empty, offers_of_empty.
Qed.

(** ** Slaves coming and going *)

(** X13.  [slaveRemoved] forgets the slave and its free resources and
    takes its resources out of the total, but keeps the allocations and
    the filters as they are.  What the frameworks held on the slave
    comes back through [resourcesRecovered], which does not fail for
    the unknown slave and only lowers the allocation; [resourcesUnused]
    for the removed slave stops on its second [CHECK], and so does a
    second [slaveRemoved]. *)
Theorem slaveRemoved_then_returned now frameworkId slaveId resourceHints _filters
    slaveInfo s :
  initialized s = true → slaves s !! slaveId = Some slaveInfo →
  ∃ s1 s2,
    slaveRemoved slaveId s = Ok (s1, [])
    ∧ slaves s1 = delete slaveId (slaves s)
    ∧ allocatable s1 = delete slaveId (allocatable s)
    ∧ resources s1 = Resources_sub (resources s) (slave_resources slaveInfo)
    ∧ allocated s1 = allocated s ∧ filters s1 = filters s
    ∧ frameworks s1 = frameworks s
    ∧ slaveRemoved slaveId s1 = CheckFailed "slaves.contains(slaveId)"
    ∧ resourcesRecovered frameworkId slaveId resourceHints s1 = Ok (s2, [])
    ∧ allocatable s2 = allocatable s1 ∧ slaves s2 = slaves s1
    ∧ filters s2 = filters s1
    ∧ (Resources_size (Resources_allocatable (expectedResources resourceHints)) ≠ 0%nat →
       is_Some (allocated s !! frameworkId) →
       allocated s2 = sub_at frameworkId (expectedResources resourceHints) (allocated s)
       ∧ resourcesUnused now frameworkId slaveId resourceHints _filters s1
         = CheckFailed "allocatable.contains(slaveId)").
Proof.
  intros Hinit Hs.
  remember (set_allocatable (delete slaveId (allocatable s))
              (set_slaves (delete slaveId (slaves s))
                 (set_resources
                    (Resources_sub (resources s) (slave_resources slaveInfo)) s)))
    as s1 eqn:Hs1.
  assert (slaveRemoved slaveId s = Ok (s1, [])) as Hrm.
  { unfold slaveRemoved. rewrite Hinit, Hs, Hs1. done. }
  assert (initialized s1 = true) as Hinit1 by (by rewrite Hs1).
  assert (slaves s1 = delete slaveId (slaves s)) as Hsl by (by rewrite Hs1).
  assert (allocatable s1 = delete slaveId (allocatable s)) as Hal by (by rewrite Hs1).
  assert (allocated s1 = allocated s) as Had by (by rewrite Hs1).
  assert (filters s1 = filters s) as Hfl by (by rewrite Hs1).
  assert (frameworks s1 = frameworks s) as Hfw by (by rewrite Hs1).
  assert (resources s1 = Resources_sub (resources s) (slave_resources slaveInfo)) as Hres
    by (by rewrite Hs1).
  clear Hs1.
  assert (slaveRemoved slaveId s1 = CheckFailed "slaves.contains(slaveId)") as Hagain.
  { unfold slaveRemoved. by rewrite Hinit1, Hsl, lookup_delete_eq. }
  assert (allocatable s1 !! slaveId = None) as Hgone by (by rewrite Hal, lookup_delete_eq).
  destruct (decide (Resources_size
                      (Resources_allocatable (expectedResources resourceHints)) = 0%nat))
    as [Hsize|Hsize].
  - exists s1, s1. split_and!; try done.
    by apply resourcesRecovered_empty.
  - destruct (resourcesRecovered_effect frameworkId slaveId resourceHints s1 Hinit1 Hsize)
      as (s2 & Hrec & Had2 & Hal2 & Hfl2 & _ & Hsl2).
    rewrite Hgone in Hal2. simpl in Hal2.
    exists s1, s2. split_and!; try done.
    intros _ Hf. split.
    + rewrite Had2, Had. by rewrite bool_decide_eq_true_2.
    + unfold resourcesUnused. rewrite Hinit1. simpl.
      rewrite bool_decide_eq_false_2 by done. rewrite Had.
      rewrite (bool_decide_eq_true_2 _ Hf). simpl. by rewrite Hgone.
Qed.

Lemma Resources_get_add_sub T r name :
  0 ≤ Resources_get T name →
  Resources_get (Resources_sub (Resources_add T r) r) name = Resources_get T name.
Proof.
  unfold Resources_get, Resources_sub, Resources_add. simpl.
  rewrite lookup_difference_with, lookup_union_with.
  destruct (scalars T !! name) as [v|], (scalars r !! name) as [w|]; simpl; try done.
  - intros Hv. replace (v + w - w) with v by ring. by apply Qcmax_0_nonneg.
  - intros _. replace (w - w) with 0 by ring. apply Qcmax_0_0.
Qed.

(** X14.  [slaveRemoved] undoes [slaveAdded] on the slave side:
    whatever was reported in use, adding a slave that is not known and
    removing it again gives back the slaves, the free resources of all
    slaves, the active frameworks, the whitelist and the registry, and
    every scalar of the cluster total that was not negative.  (The
    allocations made for the slave in between stay: the master returns
    them.)  Adding the slave a second time stops on a [CHECK]. *)
Theorem slaveAdded_then_slaveRemoved now slaveId slaveInfo used s :
  initialized s = true → slaves_in_step s = true → slaves s !! slaveId = None →
  ∃ s1 offers s2,
    slaveAdded now slaveId slaveInfo used s = Ok (s1, offers)
    ∧ slaveAdded now slaveId slaveInfo used s1 = CheckFailed "!slaves.contains(slaveId)"
    ∧ slaveRemoved slaveId s1 = Ok (s2, [])
    ∧ slaves s2 = slaves s ∧ allocatable s2 = allocatable s
    ∧ frameworks s2 = frameworks s ∧ filters s2 = filters s
    ∧ whitelist s2 = whitelist s ∧ next_addr s2 = next_addr s
    ∧ ∀ name, 0 ≤ Resources_get (resources s) name →
        Resources_get (resources s2) name = Resources_get (resources s) name.
Proof.
  intros Hinit Hstep Hnew.
  assert (allocatable s !! slaveId = None) as Hfree.
  { apply bool_decide_eq_true in Hstep. apply not_elem_of_dom. intros Hin.
    apply Hstep, elem_of_dom in Hin as [? Hin]. congruence. }
  unfold slaveAdded at 1. rewrite Hinit, Hnew. simpl.
  destruct (foldl _ _ _) as [allocated' unused].
  remember (set_allocatable (<[slaveId := unused]> (allocatable s))
              (set_allocated allocated'
                 (set_resources (Resources_add (resources s) (slave_resources slaveInfo))
                    (set_slaves (<[slaveId := slaveInfo]> (slaves s)) s))))
    as s0 eqn:Hs0.
  assert (initialized s0 = true) as Hinit0 by (by rewrite Hs0).
  assert (slaves s0 = <[slaveId := slaveInfo]> (slaves s)) as Hsl0 by (by rewrite Hs0).
  assert (allocatable s0 = <[slaveId := unused]> (allocatable s)) as Hal0
    by (by rewrite Hs0).
  assert (resources s0 = Resources_add (resources s) (slave_resources slaveInfo)) as Hres0
    by (by rewrite Hs0).
  assert (frameworks s0 = frameworks s) as Hfw0 by (by rewrite Hs0).
  assert (filters s0 = filters s) as Hfl0 by (by rewrite Hs0).
  assert (whitelist s0 = whitelist s) as Hwl0 by (by rewrite Hs0).
  assert (next_addr s0 = next_addr s) as Hna0 by (by rewrite Hs0).
  clear Hs0.
  assert (slaves_in_step s0 = true) as Hstep0.
  { apply bool_decide_eq_true. rewrite Hal0, Hsl0, !dom_insert_L.
    apply union_mono_l. by apply bool_decide_eq_true in Hstep. }
  unfold allocate_slave. rewrite Hinit0. simpl.
  destruct (allocate_slaves_eq now {[slaveId]} s0 Hinit0 Hstep0)
    as (available & _ & _ & Heq).
  destruct (allocate_slaves_keeps now {[slaveId]} s0 _ _ Hinit0 Hstep0 Heq)
    as (Hfw & Hsl & Hres & Hwl & Hfl & Hna & Hal & _ & _).
  destruct (allocate_slaves_invariant now {[slaveId]} s0 _ _ Hinit0 Hstep0 Heq)
    as [Hinit1 _].
  rewrite Heq. clear Heq.
  set (s1 := foldl (λ s g, grant g.1 g.2 s) s0
               (grants s0 now (sorted_frameworks s0) available)) in *.
  assert (slaves s1 !! slaveId = Some slaveInfo) as Hin1
    by (by rewrite Hsl, Hsl0, lookup_insert_eq).
  eexists s1, _, _. split; [reflexivity|]. split.
  { unfold slaveAdded. rewrite Hinit1, Hin1. done. }
  unfold slaveRemoved. rewrite Hinit1, Hin1. simpl.
  split; [reflexivity|]. simpl. split_and!.
  - rewrite Hsl, Hsl0. by apply delete_insert_id.
  - apply map_eq. intros a. destruct (decide (a = slaveId)) as [->|Hne].
    + by rewrite lookup_delete_eq.
    + rewrite lookup_delete_ne by done. rewrite Hal.
      * rewrite Hal0. by rewrite lookup_insert_ne.
      * by intros ->%elem_of_singleton.
  - by rewrite Hfw.
  - by rewrite Hfl.
  - by rewrite Hwl.
  - by rewrite Hna.
  - intros name Hname. rewrite Hres, Hres0. by apply Resources_get_add_sub.
Qed.

(** ** Offers coming back *)

Lemma Resources_get_allocatable_empty R name :
  Resources_size (Resources_allocatable (Resources_allocatable R)) = 0%nat →
  Resources_get (Resources_allocatable R) name = 0.
Proof.
  intros [Hsc _]%empty_allocatable_iff. unfold Resources_get.
  destruct (scalars (Resources_allocatable R) !! name) as [x|] eqn:E; simpl; [|done].
  destruct (Hsc name x E). by apply map_lookup_filter_Some in E as [_ Hx].
Qed.

(** What an offer of a pass says about the slave and the state after
    the pass. *)
Lemma offer_granted now slaveIds frameworkId slaveId m hints s s' offers :
  initialized s = true → slaves_in_step s = true →
  allocate_slaves now slaveIds s = Ok (s', offers) →
  (frameworkId, m) ∈ offers → m !! slaveId = Some hints →
  ∃ F, allocatable s !! slaveId = Some F
    ∧ hints = mkResourceHints (Resources_allocatable F) Resources_empty
    ∧ allocatable s' !! slaveId
      = Some (Resources_sub F (Resources_allocatable F))
    ∧ is_Some (allocated s' !! frameworkId)
    ∧ initialized s' = true ∧ slaves_in_step s' = true.
Proof.
  intros Hinit Hstep Hrun Hin Hm.
  destruct (allocate_slaves_invariant now slaveIds s s' offers Hinit Hstep Hrun)
    as [Hinit' Hstep'].
  destruct (allocate_slaves_eq now slaveIds s Hinit Hstep) as (available & _ & Hav & Heq).
  rewrite Heq in Hrun. injection Hrun as <- <-.
  destruct (pass_offers_sound s now available frameworkId m Hin) as [_ Hsound].
  pose proof Hm as Hm'. apply Hsound in Hm' as (R & HR & -> & _).
  pose proof HR as HR'. apply Hav in HR' as (F & HF & _ & _ & -> & _).
  exists F. split_and!; [done..| | |done|done].
  - destruct (grants_allocatable (grants s now (sorted_frameworks s) available) s slaveId
                (grants_NoDup s now _ available)) as [Hyes _].
    rewrite (Hyes frameworkId (Resources_allocatable F)); [by rewrite HF|].
    apply elem_of_grants; [apply sorted_frameworks_NoDup|]. by exists m.
  - destruct (pass_allocated s now (sorted_frameworks s) available s
                (sorted_frameworks_NoDup s)) as [Hyes _].
    rewrite (Hyes frameworkId m Hin). by eexists.
Qed.

(** X15.  Every offer of a pass can be declined: [resourcesUnused] for
    a slave of an offer, with the resources of the offer, stops on no
    [CHECK] whatever the refusal, and gives the slave the free
    resources back that it had before the pass, scalar by scalar; the
    free resources of the other slaves and the allocations of the other
    frameworks are those after the pass. *)
Theorem offer_declined_restores_slave now slaveIds s :
  initialized s = true → slaves_in_step s = true →
  ∃ s' offers,
    allocate_slaves now slaveIds s = Ok (s', offers)
    ∧ ∀ frameworkId m slaveId hints now' _filters,
        (frameworkId, m) ∈ offers → m !! slaveId = Some hints →
        ∃ s'' F F'',
          resourcesUnused now' frameworkId slaveId hints _filters s' = Ok (s'', [])
          ∧ allocatable s !! slaveId = Some F
          ∧ allocatable s'' !! slaveId = Some F''
          ∧ (∀ name, Resources_get F'' name = Resources_get F name)
          ∧ (∀ a, a ≠ slaveId → allocatable s'' !! a = allocatable s' !! a)
          ∧ (∀ f, f ≠ frameworkId → allocated s'' !! f = allocated s' !! f).
Proof.
  intros Hinit Hstep.
  destruct (allocate_slaves_eq now slaveIds s Hinit Hstep) as (available0 & _ & _ & Hrun).
  eexists _, _. split; [exact Hrun|].
  intros frameworkId m slaveId hints now' _filters Hin Hm.
  destruct (offer_granted now slaveIds frameworkId slaveId m hints s _ _
              Hinit Hstep Hrun Hin Hm) as (F & HF & -> & HF' & Hf' & Hinit' & _).
  destruct (decide (Resources_size
                      (Resources_allocatable (Resources_allocatable F)) = 0%nat))
    as [Hsize|Hsize].
  - eexists _, F, (Resources_sub F (Resources_allocatable F)).
    split_and!; try done.
    + by apply resourcesUnused_empty.
    + intros name. rewrite <-(Resources_get_sub_allocatable F name).
      rewrite (Resources_get_allocatable_empty F name Hsize). ring.
  - destruct (resourcesUnused_known now' frameworkId slaveId
                (mkResourceHints (Resources_allocatable F) Resources_empty)
                _filters _ Hinit' Hsize Hf')
      as (s'' & Hru & Had & Hal & _); [by rewrite HF'|].
    simpl in Had, Hal.
    exists s'', F, (Resources_add (Resources_sub F (Resources_allocatable F))
                                  (Resources_allocatable F)).
    split_and!; try done.
    + rewrite Hal. unfold add_at. by rewrite lookup_insert_eq, HF'.
    + intros name. rewrite Resources_get_add. apply Resources_get_sub_allocatable.
    + intros a Ha. rewrite Hal. unfold add_at. by rewrite lookup_insert_ne.
    + intros f Hne. rewrite Had. unfold sub_at. by rewrite lookup_insert_ne.
Qed.

(** The free resources of a slave after an offer has been returned are
    covered by the resources of the offer. *)
Lemma Resources_le_returned F :
  Resources_le
    (Resources_allocatable
       (Resources_add (Resources_sub F (Resources_allocatable F))
                      (Resources_allocatable F)))
    (Resources_allocatable F) = true.
Proof.
  unfold Resources_le. rewrite !andb_true_iff, !bool_decide_eq_true. split_and!.
  - intros name x Hx. simpl in Hx.
    apply map_lookup_filter_Some in Hx as [Hx Hlt]. simpl in Hlt.
    rewrite lookup_union_with, lookup_difference_with in Hx.
    unfold Resources_get. simpl.
    destruct (scalars F !! name) as [v|] eqn:Ev; simpl in Hx.
    + destruct (decide (EPSILON < v)) as [Hv|Hv].
      * rewrite (proj2 (map_lookup_filter_Some _ (scalars F) name v)) in Hx |- * by done.
        simpl in Hx. injection Hx as <-. simpl.
        replace (v - v) with 0 by ring. rewrite Qcmax_0_0.
        replace (0 + v) with v by ring. apply Qcle_refl.
      * rewrite (proj2 (map_lookup_filter_None _ (scalars F) name)) in Hx
          by (right; intros v' Hv'; simpl; congruence).
        simpl in Hx. injection Hx as <-. done.
    + rewrite (proj2 (map_lookup_filter_None _ (scalars F) name)) in Hx by (by left).
      done.
  - intros name X HX. simpl in HX |- *.
    rewrite lookup_union_with, lookup_difference_with in HX.
    destruct (ranges F !! name) as [Y|]; simpl in HX; [|done].
    injection HX as <-. simpl.
    apply union_subseteq. split; [by apply subseteq_difference_l | done].
  - intros name X HX. simpl in HX |- *.
    rewrite lookup_union_with, lookup_difference_with in HX.
    destruct (sets F !! name) as [Y|]; simpl in HX; [|done].
    injection HX as <-. simpl.
    apply union_subseteq. split; [by apply subseteq_difference_l | done].
Qed.

(** X16.  A refusal keeps the offer away: when a framework declines the
    resources of a slave it was offered and nothing else happens, no
    pass before the end of the refusal offers that slave to that
    framework again. *)
Theorem refused_offer_not_repeated now slaveIds s :
  initialized s = true → slaves_in_step s = true →
  ∃ s' offers,
    allocate_slaves now slaveIds s = Ok (s', offers)
    ∧ ∀ frameworkId m slaveId hints _filters now1 now2 slaveIds',
        (frameworkId, m) ∈ offers → m !! slaveId = Some hints →
        Resources_size (Resources_allocatable (expectedResources hints)) ≠ 0%nat →
        now1 ≤ now2 → now2 < now1 + effective_refuse_seconds _filters →
        ∃ s1 s2 offers2,
          resourcesUnused now1 frameworkId slaveId hints _filters s' = Ok (s1, [])
          ∧ allocate_slaves now2 slaveIds' s1 = Ok (s2, offers2)
          ∧ ∀ m2, (frameworkId, m2) ∈ offers2 → m2 !! slaveId = None.
Proof.
  intros Hinit Hstep.
  destruct (allocate_slaves_eq now slaveIds s Hinit Hstep) as (available0 & _ & _ & Hrun).
  eexists _, _. split; [exact Hrun|].
  intros frameworkId m slaveId hints _filters now1 now2 slaveIds' Hin Hm Hsize Hle Hlt.
  destruct (offer_granted now slaveIds frameworkId slaveId m hints s _ _
              Hinit Hstep Hrun Hin Hm) as (F & HF & -> & HF' & Hf' & Hinit' & Hstep').
  simpl in Hsize.
  destruct (resourcesUnused_known now1 frameworkId slaveId
              (mkResourceHints (Resources_allocatable F) Resources_empty)
              _filters _ Hinit' Hsize Hf')
    as (s1 & Hru & _ & Hal & _ & Hsl & _ & _ & Hinit1 & Hfl); [by rewrite HF'|].
  simpl in Hal, Hfl.
  assert (effective_refuse_seconds _filters ≠ 0) as Hnz.
  { intros Hz. rewrite Hz, Qcplus_0_r in Hlt. exact (Qclt_not_le _ _ Hlt Hle). }
  rewrite (bool_decide_eq_false_2 _ Hnz) in Hfl.
  assert (slaves_in_step s1 = true) as Hstep1.
  { apply bool_decide_eq_true. rewrite Hal, Hsl, add_at_dom by (by rewrite HF').
    by apply bool_decide_eq_true in Hstep'. }
  destruct (allocate_slaves_eq now2 slaveIds' s1 Hinit1 Hstep1)
    as (available & _ & Hav & Heq).
  exists s1. eexists _, _. split_and!; [done..|].
  intros m2 Hin2. destruct (m2 !! slaveId) as [h2|] eqn:Hm2; [|done]. exfalso.
  destruct (pass_offers_sound s1 now2 available frameworkId m2 Hin2) as [_ Hsound].
  apply Hsound in Hm2 as (R2 & HR2 & _ & _ & Hnot & _).
  apply Hav in HR2 as (F1 & HF1 & _ & _ & -> & _).
  rewrite Hal in HF1. unfold add_at in HF1. rewrite lookup_insert_eq, HF' in HF1.
  simpl in HF1. injection HF1 as <-.
  assert (filtered s1 now2 frameworkId slaveId
            (Resources_allocatable
               (Resources_add (Resources_sub F (Resources_allocatable F))
                              (Resources_allocatable F))) = true) as Hyes; [|congruence].
  apply filtered_spec. eexists. split_and!.
  - unfold filters_get. rewrite Hfl. unfold filters_put. rewrite lookup_insert_eq. simpl.
    apply elem_of_app. right. by left.
  - done.
  - simpl. apply Resources_le_returned.
  - simpl. done.
Qed.

(** ** Frameworks coming back *)

(** X17.  A deactivated framework keeps its allocation, so it can come
    back through [frameworkActivated] only: after
    [frameworkDeactivated], [frameworkAdded] for the same framework
    stops on [CHECK(!allocated.contains(frameworkId))], while
    [frameworkActivated] makes it active again, without filters, with
    the allocation it had plus what the pass of the activation offers
    it. *)
Theorem frameworkDeactivated_then_back now frameworkId frameworkInfo used A s :
  initialized s = true → slaves_in_step s = true →
  allocated s !! frameworkId = Some A →
  ∃ s1 s2 offers,
    frameworkDeactivated frameworkId s = Ok (s1, [])
    ∧ frameworks s1 !! frameworkId = None
    ∧ allocated s1 !! frameworkId = Some A
    ∧ frameworkAdded now frameworkId frameworkInfo used s1
      = CheckFailed "!allocated.contains(frameworkId)"
    ∧ frameworkActivated now frameworkId frameworkInfo s1 = Ok (s2, offers)
    ∧ frameworks s2 !! frameworkId = Some frameworkInfo
    ∧ (∀ m, (frameworkId, m) ∈ offers →
         allocated s2 !! frameworkId = Some (add_offer A m))
    ∧ (frameworkId ∉ offers.*1 → allocated s2 !! frameworkId = Some A).
Proof.
  intros Hinit Hstep HA.
  remember (remove_filters frameworkId
              (set_frameworks (delete frameworkId (frameworks s)) s)) as s1 eqn:Hs1.
  assert (initialized s1 = true) as Hinit1 by (by rewrite Hs1).
  assert (frameworks s1 = delete frameworkId (frameworks s)) as Hfw1 by (by rewrite Hs1).
  assert (allocated s1 = allocated s) as Had1 by (by rewrite Hs1).
  assert (allocatable s1 = allocatable s) as Hal1 by (by rewrite Hs1).
  assert (slaves s1 = slaves s) as Hsl1 by (by rewrite Hs1).
  assert (frameworkDeactivated frameworkId s = Ok (s1, [])) as Hde.
  { unfold frameworkDeactivated. rewrite Hinit, Hs1. done. }
  clear Hs1.
  assert (frameworks s1 !! frameworkId = None) as Hgone
    by (by rewrite Hfw1, lookup_delete_eq).
  remember (set_frameworks (<[frameworkId := frameworkInfo]> (frameworks s1)) s1)
    as s0 eqn:Hs0.
  assert (initialized s0 = true) as Hinit0 by (by rewrite Hs0).
  assert (slaves_in_step s0 = true) as Hstep0.
  { rewrite Hs0. unfold slaves_in_step. simpl. by rewrite Hal1, Hsl1. }
  assert (allocated s0 = allocated s) as Had0 by (by rewrite Hs0).
  assert (frameworks s0 = <[frameworkId := frameworkInfo]> (frameworks s1)) as Hfw0
    by (by rewrite Hs0).
  destruct (allocate_slaves_eq now (dom (slaves s0)) s0 Hinit0 Hstep0)
    as (available & _ & _ & Heq).
  exists s1. eexists _, _. split_and!; [done | done | by rewrite Had1 | | | | |].
  - unfold frameworkAdded. rewrite Hinit1, Hgone, Had1, HA. done.
  - unfold frameworkActivated. rewrite Hinit1, Hgone. simpl.
    rewrite <-Hs0. unfold allocate. rewrite Hinit0. simpl. exact Heq.
  - destruct (grants_frame (grants s0 now (sorted_frameworks s0) available) s0)
      as (_ & -> & _). by rewrite Hfw0, lookup_insert_eq.
  - intros m Hin.
    destruct (pass_allocated s0 now (sorted_frameworks s0) available s0
                (sorted_frameworks_NoDup s0)) as [Hyes _].
    rewrite (Hyes frameworkId m Hin). unfold allocated_of. by rewrite Had0, HA.
  - intros Hnot.
    destruct (pass_allocated s0 now (sorted_frameworks s0) available s0
                (sorted_frameworks_NoDup s0)) as [_ Hno].
    rewrite (Hno frameworkId Hnot). by rewrite Had0.
Qed.

(** X18.  A refusal of zero seconds makes [resourcesUnused] the same as
    [resourcesRecovered], for a framework with an allocation and a
    slave with free resources: same state, no filter. *)
Theorem resourcesUnused_zero_refusal now frameworkId slaveId resourceHints _filters s :
  effective_refuse_seconds _filters = 0 →
  is_Some (allocated s !! frameworkId) → is_Some (allocatable s !! slaveId) →
  resourcesUnused now frameworkId slaveId resourceHints _filters s
  = resourcesRecovered frameworkId slaveId resourceHints s.
Proof.
  intros Hz Hf Ha. unfold resourcesUnused, resourcesRecovered.
  destruct (initialized s); simpl; [|done].
  case_bool_decide; [done|].
  rewrite !(bool_decide_eq_true_2 _ Hf). simpl.
  rewrite !(bool_decide_eq_true_2 _ Ha). simpl.
  assert (match _filters with
          | Some f => refuse_seconds f
          | None => refuse_seconds (mkFilters None)
          end = effective_refuse_seconds _filters) as -> by (by destruct _filters).
  by rewrite (bool_decide_eq_true_2 _ Hz).
Qed.

(** ** Conservation when slaves and frameworks register *)

Lemma Resources_get_sub_name A O name :
  0 ≤ Resources_get O name → Resources_get O name ≤ Resources_get A name →
  Resources_get (Resources_sub A O) name + Resources_get O name = Resources_get A name.
Proof.
  unfold Resources_get, Resources_sub. simpl. rewrite lookup_difference_with.
  destruct (scalars A !! name) as [x|], (scalars O !! name) as [y|]; simpl;
    intros H0 Hle.
  - rewrite Qcmax_0_nonneg; [ring|].
    apply (Qcplus_le_mono_r _ _ y). by replace (x - y + y) with x by ring;
      rewrite Qcplus_0_l.
  - ring.
  - rewrite (Qcle_antisym _ _ Hle H0). ring.
  - ring.
Qed.

Lemma total_scalar_nonneg (m : gmap string Resources) name :
  (∀ k R, m !! k = Some R → 0 ≤ Resources_get R name) → 0 ≤ total_scalar m name.
Proof.
  induction m as [|k R m Hk IH] using map_ind; intros Hm.
  - unfold total_scalar. by rewrite map_fold_empty.
  - rewrite total_scalar_insert_None by done.
    rewrite <-(Qcplus_0_l 0). apply Qcplus_le_compat.
    + apply (Hm k R). by rewrite lookup_insert_eq.
    + apply IH. intros k' R' Hk'. apply (Hm k' R').
      rewrite lookup_insert_ne; [done|]. intros ->. congruence.
Qed.

Lemma Qc_add_insert (a b c d r : Qc) : a + b = c + d → a + (r + b) = c + (r + d).
Proof. intros H. replace (a + (r + b)) with (r + (a + b)) by ring. rewrite H. ring. Qed.

Lemma total_scalar_empty name : total_scalar ∅ name = 0.
Proof. unfold total_scalar. by rewrite map_fold_empty. Qed.

(** The loop of [slaveAdded] over the resources in use, for one scalar:
    what is in use leaves the unused resources of the slave, and what
    active frameworks use goes to their allocations. *)
Lemma used_loop_sums s name (used : gmap FrameworkID Resources) :
  ∀ A U,
    (∀ f R, used !! f = Some R → 0 ≤ Resources_get R name) →
    total_scalar used name ≤ Resources_get U name →
    total_scalar (foldl (used_step s) (A, U) (map_to_list used)).1 name
    + total_scalar (filter (λ kv, frameworks s !! kv.1 = None) used) name
    = total_scalar A name + total_scalar used name
    ∧ Resources_get (foldl (used_step s) (A, U) (map_to_list used)).2 name
      + total_scalar used name
      = Resources_get U name.
Proof.
  induction used as [|f R used Hf Hfirst IH] using map_first_key_ind; intros A U Hpos Hle.
  - rewrite map_filter_empty, map_to_list_empty. simpl.
    rewrite !total_scalar_empty. split; ring.
  - rewrite map_to_list_insert_first_key by done. cbn [foldl].
    rewrite total_scalar_insert_None in Hle |- * by done.
    assert (0 ≤ Resources_get R name) as HR
      by (apply (Hpos f R); by rewrite lookup_insert_eq).
    assert (∀ f' R', used !! f' = Some R' → 0 ≤ Resources_get R' name) as Hpos'.
    { intros f' R' Hf'. apply (Hpos f' R'). rewrite lookup_insert_ne; [done|].
      intros ->. congruence. }
    pose proof (total_scalar_nonneg used name Hpos') as Hsum.
    assert (Resources_get R name ≤ Resources_get U name) as HRU.
    { eapply Qcle_trans; [|exact Hle].
      rewrite <-(Qcplus_0_r (Resources_get R name)) at 1.
      by apply Qcplus_le_compat; [apply Qcle_refl|]. }
    pose proof (Resources_get_sub_name U R name HR HRU) as Hsub.
    unfold used_step at 2 4. cbn [fst snd].
    destruct (IH (if bool_decide (is_Some (frameworks s !! f)) then add_at f R A else A)
                 (Resources_sub U R) Hpos') as [IH1 IH2].
    { apply (Qcplus_le_mono_r _ _ (Resources_get R name)). rewrite Hsub.
      by rewrite (Qcplus_comm (total_scalar used name)). }
    split; [|rewrite <-Hsub, <-IH2; ring].
    rewrite map_filter_insert. simpl.
    case_bool_decide as Hact.
    + rewrite decide_False by (intros Hn; rewrite Hn in Hact; by destruct Hact).
      rewrite delete_id by done. rewrite IH1, total_scalar_add_at. ring.
    + rewrite decide_True by (by destruct (frameworks s !! f); [destruct Hact|]).
      rewrite total_scalar_insert_None by (by apply map_lookup_filter_None; left).
      by apply Qc_add_insert.
Qed.

(** A pass moves resources from the free side of the ledger to the
    allocated side. *)
Lemma allocate_slaves_conserves now slaveIds s s' offers name :
  initialized s = true → slaves_in_step s = true →
  allocate_slaves now slaveIds s = Ok (s', offers) →
  total_scalar (allocated s') name + total_scalar (allocatable s') name
  = total_scalar (allocated s) name + total_scalar (allocatable s) name.
Proof.
  intros Hinit Hstep Hrun.
  destruct (allocate_slaves_eq now slaveIds s Hinit Hstep) as (available & _ & Hav & Heq).
  rewrite Heq in Hrun. injection Hrun as <- _.
  apply grants_conserve; [apply grants_NoDup|].
  intros f a R Hin. apply grants_available, Hav in Hin as (F & HF & _ & _ & -> & _).
  by exists F.
Qed.

(** [slaveAdded] and the two sides of the ledger, for one scalar. *)
Lemma slaveAdded_sums now slaveId slaveInfo used s name :
  initialized s = true → slaves_in_step s = true → slaves s !! slaveId = None →
  (∀ f U, used !! f = Some U → 0 ≤ Resources_get U name) →
  total_scalar used name ≤ Resources_get (slave_resources slaveInfo) name →
  ∃ s1 offers,
    slaveAdded now slaveId slaveInfo used s = Ok (s1, offers)
    ∧ initialized s1 = true ∧ slaves_in_step s1 = true
    ∧ frameworks s1 = frameworks s
    ∧ slaves s1 = <[slaveId := slaveInfo]> (slaves s)
    ∧ (∀ f, frameworks s !! f = None → allocated s1 !! f = allocated s !! f)
    ∧ total_scalar (allocated s1) name + total_scalar (allocatable s1) name
      + total_scalar (filter (λ kv, frameworks s !! kv.1 = None) used) name
      = total_scalar (allocated s) name + total_scalar (allocatable s) name
        + Resources_get (slave_resources slaveInfo) name.
Proof.
  intros Hinit Hstep Hnew Hpos Hle.
  assert (allocatable s !! slaveId = None) as Hfree.
  { apply bool_decide_eq_true in Hstep. apply not_elem_of_dom. intros Hin.
    apply Hstep, elem_of_dom in Hin as [? Hin]. congruence. }
  unfold slaveAdded. rewrite Hinit, Hnew. simpl.
  destruct (used_loop_sums s name used (allocated s) (slave_resources slaveInfo) Hpos Hle)
    as [Hsum1 Hsum2].
  assert (∀ f, frameworks s !! f = None →
            (foldl (used_step s) (allocated s, slave_resources slaveInfo)
                   (map_to_list used)).1 !! f = allocated s !! f) as Hkeep.
  { intros f Hf.
    assert (∀ l acc, (foldl (used_step s) acc l).1 !! f = acc.1 !! f) as Hgen; [|apply Hgen].
    induction l as [|[f' R] l IHl]; intros acc; simpl; [done|].
    rewrite IHl. unfold used_step. simpl. case_bool_decide as Hact; [|done].
    unfold add_at. rewrite lookup_insert_ne; [done|]. intros ->.
    rewrite Hf in Hact. by destruct Hact. }
  destruct (foldl _ _ _) as [allocated' unused]. simpl in Hsum1, Hsum2, Hkeep.
  remember (set_allocatable (<[slaveId := unused]> (allocatable s))
              (set_allocated allocated'
                 (set_resources (Resources_add (resources s) (slave_resources slaveInfo))
                    (set_slaves (<[slaveId := slaveInfo]> (slaves s)) s))))
    as s0 eqn:Hs0.
  assert (initialized s0 = true) as Hinit0 by (by rewrite Hs0).
  assert (slaves s0 = <[slaveId := slaveInfo]> (slaves s)) as Hsl0 by (by rewrite Hs0).
  assert (allocatable s0 = <[slaveId := unused]> (allocatable s)) as Hal0
    by (by rewrite Hs0).
  assert (allocated s0 = allocated') as Had0 by (by rewrite Hs0).
  assert (frameworks s0 = frameworks s) as Hfw0 by (by rewrite Hs0).
  clear Hs0.
  assert (slaves_in_step s0 = true) as Hstep0.
  { apply bool_decide_eq_true. rewrite Hal0, Hsl0, !dom_insert_L.
    apply union_mono_l. by apply bool_decide_eq_true in Hstep. }
  unfold allocate_slave. rewrite Hinit0. simpl.
  destruct (allocate_slaves_eq now {[slaveId]} s0 Hinit0 Hstep0)
    as (available & _ & _ & Heq).
  destruct (allocate_slaves_keeps now {[slaveId]} s0 _ _ Hinit0 Hstep0 Heq)
    as (Hfw & Hsl & _ & _ & _ & _ & _ & Had & _).
  destruct (allocate_slaves_invariant now {[slaveId]} s0 _ _ Hinit0 Hstep0 Heq)
    as [Hinit1 Hstep1].
  pose proof (allocate_slaves_conserves now {[slaveId]} s0 _ _ name Hinit0 Hstep0 Heq)
    as Hcons.
  eexists _, _. split; [exact Heq|].
  split_and!; [done | done | by rewrite Hfw | by rewrite Hsl | |].
  - intros f Hf. rewrite Had by (by rewrite Hfw0). rewrite Had0. by apply Hkeep.
  - rewrite Hcons, Had0, Hal0. rewrite total_scalar_insert_None by done.
    rewrite <-Hsum2.
    transitivity (total_scalar allocated' name
                  + total_scalar (filter (λ kv, frameworks s !! kv.1 = None) used) name
                  + (Resources_get unused name + total_scalar (allocatable s) name));
      [ring|].
    rewrite Hsum1. ring.
Qed.

Lemma total_advertised_insert (m : gmap SlaveID SlaveInfo) a info name :
  m !! a = None →
  total_scalar (slave_resources <$> <[a := info]> m) name
  = total_scalar (slave_resources <$> m) name + Resources_get (slave_resources info) name.
Proof.
  intros Ha. rewrite fmap_insert.
  rewrite total_scalar_insert_None by (by rewrite lookup_fmap, Ha). ring.
Qed.

(** ** Conservation *)







(** X19.  [slaveAdded] keeps the conservation of a scalar resource when
    the resources reported in use are used by active frameworks, are
    not negative and do not exceed what the slave advertises: the
    allocations gain what is in use, the free resources of the new
    slave are the rest, and the pass that follows moves resources from
    one side to the other. *)
Theorem slaveAdded_conserves now slaveId slaveInfo used s name :
  initialized s = true → slaves_in_step s = true → slaves s !! slaveId = None →
  (∀ f U, used !! f = Some U →
     is_Some (frameworks s !! f) ∧ 0 ≤ Resources_get U name) →
  total_scalar used name ≤ Resources_get (slave_resources slaveInfo) name →
  conserved s name →
  ∃ s1 offers,
    slaveAdded now slaveId slaveInfo used s = Ok (s1, offers) ∧ conserved s1 name.
Proof.
  intros Hinit Hstep Hnew Hused Hle Hcons.
  destruct (slaveAdded_sums now slaveId slaveInfo used s name Hinit Hstep Hnew)
    as (s1 & offers & Hrun & _ & _ & _ & Hsl & _ & Hsum); [|done|].
  { intros f U HU. by apply (Hused f U). }
  exists s1, offers. split; [done|]. unfold conserved in *.
  rewrite Hsl, total_advertised_insert by done. rewrite <-Hcons, <-Hsum.
  assert (filter (λ kv, frameworks s !! kv.1 = None) used = ∅) as ->.
  { apply map_empty. intros f. apply map_lookup_filter_None.
    destruct (used !! f) as [U|] eqn:E; [right | by left].
    intros U' [= <-]. simpl. destruct (Hused f U E) as [[? Hact] _]. congruence. }
  rewrite total_scalar_empty. ring.
Qed.

(** X20.  The replay of a slave that registers before the framework
    that uses it: [slaveAdded] with resources in use by a framework
    that is not known takes them out of the free resources without
    allocating them, so that the ledger is short of them; the
    [frameworkAdded] that brings the framework with the same resources
    in use makes up for it, and the scalar is conserved again. *)
Theorem replay_slave_then_framework now now' slaveId slaveInfo frameworkId frameworkInfo
    U s name :
  initialized s = true → slaves_in_step s = true → slaves s !! slaveId = None →
  frameworks s !! frameworkId = None → allocated s !! frameworkId = None →
  0 ≤ Resources_get U name →
  Resources_get U name ≤ Resources_get (slave_resources slaveInfo) name →
  conserved s name →
  ∃ s1 offers1 s2 offers2,
    slaveAdded now slaveId slaveInfo {[frameworkId := U]} s = Ok (s1, offers1)
    ∧ total_scalar (allocated s1) name + total_scalar (allocatable s1) name
      + Resources_get U name
      = total_scalar (slave_resources <$> slaves s1) name
    ∧ frameworkAdded now' frameworkId frameworkInfo U s1 = Ok (s2, offers2)
    ∧ conserved s2 name.
Proof.
  intros Hinit Hstep Hnew Hnf Hna HU Hle Hcons.
  destruct (slaveAdded_sums now slaveId slaveInfo {[frameworkId := U]} s name
              Hinit Hstep Hnew)
    as (s1 & offers1 & Hrun & Hinit1 & Hstep1 & Hfw & Hsl & Had & Hsum).
  { intros f U' [<- <-]%lookup_singleton_Some. done. }
  { unfold total_scalar. rewrite map_fold_singleton. by rewrite Qcplus_0_r. }
  rewrite map_filter_singleton, decide_True in Hsum by done.
  unfold total_scalar at 3 in Hsum. rewrite map_fold_singleton, Qcplus_0_r in Hsum.
  assert (total_scalar (allocated s1) name + total_scalar (allocatable s1) name
          + Resources_get U name
          = total_scalar (slave_resources <$> slaves s1) name) as Hshort.
  { rewrite Hsl, total_advertised_insert by done. unfold conserved in Hcons.
    by rewrite <-Hcons. }
  exists s1, offers1.
  assert (frameworks s1 !! frameworkId = None) as Hnf1 by (by rewrite Hfw).
  assert (allocated s1 !! frameworkId = None) as Hna1 by (by rewrite (Had frameworkId Hnf)).
  remember (set_allocated (<[frameworkId := U]> (allocated s1))
              (set_frameworks (<[frameworkId := frameworkInfo]> (frameworks s1)) s1))
    as s0 eqn:Hs0.
  unfold frameworkAdded. rewrite Hinit1, Hnf1, Hna1. simpl. rewrite <-Hs0.
  assert (initialized s0 = true) as Hinit0 by (by rewrite Hs0).
  assert (slaves_in_step s0 = true) as Hstep0 by (by rewrite Hs0).
  assert (allocated s0 = <[frameworkId := U]> (allocated s1)) as Had0 by (by rewrite Hs0).
  assert (allocatable s0 = allocatable s1) as Hal0 by (by rewrite Hs0).
  assert (slaves s0 = slaves s1) as Hsl0 by (by rewrite Hs0).
  clear Hs0.
  unfold allocate. rewrite Hinit0. simpl.
  destruct (allocate_slaves_eq now' (dom (slaves s0)) s0 Hinit0 Hstep0)
    as (available & _ & _ & Heq).
  destruct (allocate_slaves_keeps now' _ s0 _ _ Hinit0 Hstep0 Heq)
    as (_ & Hsl2 & _).
  pose proof (allocate_slaves_conserves now' _ s0 _ _ name Hinit0 Hstep0 Heq) as Hc.
  eexists _, _. split_and!; [done | done | exact Heq |].
  unfold conserved. rewrite Hc, Hsl2, Hsl0, Had0, Hal0, <-Hshort.
  rewrite total_scalar_insert_None by done. ring.
Qed.

(** ** The first framework of the order *)

(** X21.  Greedy to the full: when the framework that the comparator
    puts first has no filter, a pass gives it every available slave in
    one offer, and no other framework gets an offer, however many
    frameworks are active and whatever they hold. *)
Theorem first_framework_takes_all now slaveIds frameworkId s :
  initialized s = true → slaves_in_step s = true →
  head (sorted_frameworks s) = Some frameworkId →
  filters_get s frameworkId = [] →
  ∃ available s' offers,
    collect_available s slaveIds = Ok available
    ∧ allocate_slaves now slaveIds s = Ok (s', offers)
    ∧ offers =
        (if decide (available = ∅) then []
         else [(frameworkId, (λ R, mkResourceHints R Resources_empty) <$> available)])
    ∧ ∀ f, is_Some (frameworks s !! f) → f ≠ frameworkId → comes_before s frameworkId f.
Proof.
  intros Hinit Hstep Hhead Hnone.
  destruct (allocate_slaves_eq now slaveIds s Hinit Hstep) as (available & Hc & _ & Heq).
  exists available. eexists _, _. split_and!; [done | exact Heq | |].
  - destruct (sorted_frameworks s) as [|f order]; [done|]. injection Hhead as ->.
    assert (∀ a R, filtered s now frameworkId a R = false) as Hnot
      by (intros a R; unfold filtered; by rewrite Hnone).
    assert (offerable_of s now frameworkId available
            = (λ R, mkResourceHints R Resources_empty) <$> available) as Ho.
    { unfold offerable_of. f_equal. apply map_filter_id. intros a R _. apply Hnot. }
    assert (still_available s now frameworkId available = ∅) as Hs.
    { apply map_empty. intros a. apply map_lookup_filter_None. right.
      intros R _. simpl. by rewrite Hnot. }
    cbn [offers_of]. rewrite Ho, Hs, offers_of_empty, app_nil_r.
    destruct (decide (available = ∅)) as [->|Hne].
    + by rewrite fmap_empty, decide_True.
    + rewrite decide_False; [done|]. by intros ?%fmap_empty_inv.
  - intros f Hf Hne. pose proof (sorted_frameworks_sorted s) as Hsorted.
    apply elem_of_sorted_frameworks in Hf.
    destruct (sorted_frameworks s) as [|f0 order]; [done|]. injection Hhead as ->.
    apply StronglySorted_inv in Hsorted as [_ Hall].
    apply elem_of_cons in Hf as [->|Hf]; [done|].
    rewrite Forall_forall in Hall. by apply Hall.
Qed.

(** X22.  A removed framework can be added again: [frameworkRemoved]
    leaves no trace of the framework in the active frameworks, the
    allocations and the registry, so that [frameworkAdded] passes its
    two [CHECK]s; the framework starts from the resources given as in
    use, plus what the pass of the registration offers it, and every
    available slave is offered in that pass. *)
Theorem frameworkRemoved_then_frameworkAdded now frameworkId frameworkInfo used s :
  initialized s = true → slaves_in_step s = true →
  ∃ s1 s2 offers,
    frameworkRemoved frameworkId s = Ok (s1, [])
    ∧ frameworks s1 !! frameworkId = None
    ∧ allocated s1 !! frameworkId = None
    ∧ filters s1 !! frameworkId = None
    ∧ frameworkAdded now frameworkId frameworkInfo used s1 = Ok (s2, offers)
    ∧ frameworks s2 !! frameworkId = Some frameworkInfo
    ∧ (∀ m, (frameworkId, m) ∈ offers →
         allocated s2 !! frameworkId = Some (add_offer used m))
    ∧ (frameworkId ∉ offers.*1 → allocated s2 !! frameworkId = Some used)
    ∧ ∀ a R, is_available s (dom (slaves s)) a R → offered offers a.
Proof.
  intros Hinit Hstep.
  remember (remove_filters frameworkId
              (set_allocated (delete frameworkId (allocated s))
                 (set_frameworks (delete frameworkId (frameworks s)) s))) as s1 eqn:Hs1.
  assert (initialized s1 = true) as Hinit1 by (by rewrite Hs1).
  assert (frameworks s1 = delete frameworkId (frameworks s)) as Hfw1 by (by rewrite Hs1).
  assert (allocated s1 = delete frameworkId (allocated s)) as Had1 by (by rewrite Hs1).
  assert (allocatable s1 = allocatable s) as Hal1 by (by rewrite Hs1).
  assert (slaves s1 = slaves s) as Hsl1 by (by rewrite Hs1).
  assert (whitelist s1 = whitelist s) as Hwl1 by (by rewrite Hs1).
  assert (filters s1 !! frameworkId = None) as Hfl1.
  { rewrite Hs1, remove_filters_filters. apply lookup_delete_eq. }
  assert (frameworkRemoved frameworkId s = Ok (s1, [])) as Hrm.
  { unfold frameworkRemoved. rewrite Hinit, Hs1. done. }
  clear Hs1.
  assert (frameworks s1 !! frameworkId = None) as Hnf
    by (by rewrite Hfw1, lookup_delete_eq).
  assert (allocated s1 !! frameworkId = None) as Hna
    by (by rewrite Had1, lookup_delete_eq).
  remember (set_allocated (<[frameworkId := used]> (allocated s1))
              (set_frameworks (<[frameworkId := frameworkInfo]> (frameworks s1)) s1))
    as s0 eqn:Hs0.
  assert (initialized s0 = true) as Hinit0 by (by rewrite Hs0).
  assert (slaves_in_step s0 = true) as Hstep0.
  { rewrite Hs0. unfold slaves_in_step. simpl. by rewrite Hal1, Hsl1. }
  assert (allocated s0 = <[frameworkId := used]> (allocated s1)) as Had0
    by (by rewrite Hs0).
  assert (frameworks s0 = <[frameworkId := frameworkInfo]> (frameworks s1)) as Hfw0
    by (by rewrite Hs0).
  assert (filters s0 = filters s1) as Hfl0 by (by rewrite Hs0).
  assert (allocatable s0 = allocatable s) as Hal0 by (by rewrite Hs0).
  assert (slaves s0 = slaves s) as Hsl0 by (by rewrite Hs0).
  assert (whitelist s0 = whitelist s) as Hwl0 by (by rewrite Hs0).
  destruct (allocate_slaves_eq now (dom (slaves s0)) s0 Hinit0 Hstep0)
    as (available & _ & Hav & Heq).
  exists s1. eexists _, _. split_and!; [done..| | | | |].
  - unfold frameworkAdded. rewrite Hinit1, Hnf, Hna. simpl.
    rewrite <-Hs0. unfold allocate. rewrite Hinit0. simpl. exact Heq.
  - destruct (grants_frame (grants s0 now (sorted_frameworks s0) available) s0)
      as (_ & -> & _). by rewrite Hfw0, lookup_insert_eq.
  - intros m Hin.
    destruct (pass_allocated s0 now (sorted_frameworks s0) available s0
                (sorted_frameworks_NoDup s0)) as [Hyes _].
    rewrite (Hyes frameworkId m Hin). unfold allocated_of.
    by rewrite Had0, lookup_insert_eq.
  - intros Hnot.
    destruct (pass_allocated s0 now (sorted_frameworks s0) available s0
                (sorted_frameworks_NoDup s0)) as [_ Hno].
    rewrite (Hno frameworkId Hnot). by rewrite Had0, lookup_insert_eq.
  - intros a R Ha.
    assert (available !! a = Some R) as Ha'.
    { apply Hav. destruct Ha as (F & HF & Hin & (info & Hinfo & Hw) & H1 & H2 & H3).
      exists F. rewrite Hal0. split; [done|]. rewrite Hsl0. split_and!; [done| |done..].
      exists info. by rewrite Hsl0, Hwl0. }
    assert (filtered s0 now frameworkId a R = false) as Hn.
    { unfold filtered, filters_get. by rewrite Hfl0, Hfl1. }
    assert (is_Some (frameworks s0 !! frameworkId)) as Hact
      by (by rewrite Hfw0, lookup_insert_eq).
    destruct (exists_first_unfiltered s0 now frameworkId a R Hact Hn) as (f1 & Hf1).
    destruct (pass_offers_complete s0 now available f1 a R Ha' Hf1) as (m & Hin & Hm).
    exists f1, m. split; [done | by eexists].
Qed.

End Allocator.

(** * The properties at work on the sample data *)

Lemma Qc_eq_by_decide (x y : Qc) : bool_decide (x = y) = true → x = y.
Proof. apply bool_decide_eq_true. Qed.

Lemma Qc_neq_by_decide (x y : Qc) : bool_decide (x = y) = false → x ≠ y.
Proof. apply bool_decide_eq_false. Qed.

Lemma Qc_le_by_decide (x y : Qc) : Qcleb x y = true → x ≤ y.
Proof. apply bool_decide_eq_true. Qed.

Lemma Qc_lt_by_decide (x y : Qc) : Qcltb x y = true → x < y.
Proof. apply bool_decide_eq_true. Qed.

Lemma Qc_nlt_by_decide (x y : Qc) : Qcltb x y = false → ¬ x < y.
Proof. apply bool_decide_eq_false. Qed.

Lemma run_eq_by_decide (r1 r2 : option State) : bool_decide (r1 = r2) = true → r1 = r2.
Proof. apply bool_decide_eq_true. Qed.

Lemma offers_eq_by_decide (r1 r2 : result (list Offer)) :
  bool_decide (r1 = r2) = true → r1 = r2.
Proof. apply bool_decide_eq_true. Qed.

Lemma outcome_eq_by_decide (o1 o2 : option Outcome) :
  bool_decide (o1 = o2) = true → o1 = o2.
Proof. apply bool_decide_eq_true. Qed.

(** The sample states are states of the allocator. *)
Lemma sample_busy_reachable :
  reachable spec_EPSILON spec_MIN_CPUS spec_MIN_MEM spec_DEFAULT_REFUSE_SECONDS
            sample_busy.
Proof.
  apply (run_data_reachable _ _ _ _ sample_busy_trace
           (mkProcess (initialize State_new) ∅ ∅)); [constructor|].
  apply run_eq_by_decide. vm_compute. reflexivity.
Qed.

Lemma sample_removed_reachable :
  reachable spec_EPSILON spec_MIN_CPUS spec_MIN_MEM spec_DEFAULT_REFUSE_SECONDS
            sample_removed.
Proof.
  apply (reachable_quiet_step _ _ _ _ 0 (FrameworkRemoved "F") sample_busy
           sample_removed); [apply sample_busy_reachable | done |].
  vm_compute. reflexivity.
Qed.

Lemma sample_low_mem_reachable :
  reachable spec_EPSILON spec_MIN_CPUS spec_MIN_MEM spec_DEFAULT_REFUSE_SECONDS
            sample_low_mem.
Proof.
  apply (run_data_reachable _ _ _ _ sample_low_mem_trace
           (mkProcess (initialize State_new) ∅ ∅)); [constructor|].
  apply run_eq_by_decide. vm_compute. reflexivity.
Qed.

Lemma sample_inactive_reachable :
  process_reachable spec_EPSILON spec_MIN_CPUS spec_MIN_MEM spec_DEFAULT_REFUSE_SECONDS
                    sample_inactive.
Proof.
  apply (run_reachable _ _ _ _ sample_inactive_trace
           (mkProcess (initialize State_new) ∅ ∅) sample_inactive []); [constructor|].
  apply outcome_eq_by_decide. vm_compute. reflexivity.
Qed.

Lemma sample_dangling_reachable :
  process_reachable spec_EPSILON spec_MIN_CPUS spec_MIN_MEM spec_DEFAULT_REFUSE_SECONDS
                    sample_dangling.
Proof.
  apply (run_reachable _ _ _ _ sample_dangling_trace
           (mkProcess (initialize State_new) ∅ ∅) sample_dangling []); [constructor|].
  apply outcome_eq_by_decide. vm_compute. reflexivity.
Qed.




(** In the sample, ["A"] with share 0.4, as a double, comes before
    ["B"] with share 0.5. *)
Example comparator_sample :
  dominant_share sample_total (allocated_of sample_allocated "A")
  = Q2Qc (3602879701896397 # 9007199254740992)
  ∧ dominant_share sample_total (allocated_of sample_allocated "B") = Q2Qc (1 # 2)
  ∧ DominantShareComparator sample_total sample_allocated "A" "B" = true
  ∧ DominantShareComparator sample_total sample_allocated "B" "A" = false.
Proof.
  split_and!; [apply Qc_eq_by_decide; vm_compute; reflexivity..
              | vm_compute; reflexivity | vm_compute; reflexivity].
Qed.


Lemma no_filtered_offer_witness :
  initialized sample_idle = true ∧ slaves_in_step sample_idle = true
  ∧ ∃ s' offers,
      allocate_slaves spec_EPSILON spec_MIN_CPUS spec_MIN_MEM 1 {["a1"; "a2"]} sample_idle
      = Ok (s', offers)
      ∧ filters s' = filters sample_idle
      ∧ ∀ f m a h, (f, m) ∈ offers → m !! a = Some h →
          filtered sample_idle 1 f a (expectedResources h) = false
          ∧ ¬ ∃ this, this ∈ filters_get sample_idle f
                ∧ a = filter_slaveId this
                ∧ Resources_le (expectedResources h) (filter_resources this) = true
                ∧ 1 < deadline (filter_timeout this).
Proof.
  split; [reflexivity|]. split; [vm_compute; reflexivity|].
  apply (no_filtered_offer spec_EPSILON spec_MIN_CPUS spec_MIN_MEM 1 {["a1"; "a2"]}
           sample_idle); [reflexivity | vm_compute; reflexivity].
Defined.

(** The pass on the sample: ["A"], first in order, filters the first
    slave and gets the second; ["B"] gets the first. *)
Example pass_sample :
  ∃ s',
    allocate_slaves spec_EPSILON spec_MIN_CPUS spec_MIN_MEM 1 {["a1"; "a2"]} sample_idle
    = Ok (s', [("A", {["a2" := hints_of (cpus_mem (Qc_of_Z 4) (Qc_of_Z 1024))]});
               ("B", {["a1" := hints_of (cpus_mem (Qc_of_Z 4) (Qc_of_Z 1024))]})]).
Proof. eexists. vm_compute. reflexivity. Qed.

(** A slave with exactly [MIN_MEM] of memory, and cpus to spare, is not
    available, and the pass offers nothing. *)
Lemma exact_min_mem_not_available :
  reachable spec_EPSILON spec_MIN_CPUS spec_MIN_MEM spec_DEFAULT_REFUSE_SECONDS
            sample_low_mem
  ∧ whitelist sample_low_mem = None
  ∧ allocatable sample_low_mem !! "a1" = Some (cpus_mem (Qc_of_Z 4) (Qc_of_Z 32))
  ∧ spec_MIN_CPUS
    ≤ Resources_get (Resources_allocatable spec_EPSILON (cpus_mem (Qc_of_Z 4) (Qc_of_Z 32)))
                    "cpus"
  ∧ spec_MIN_MEM
    ≤ Resources_get (Resources_allocatable spec_EPSILON (cpus_mem (Qc_of_Z 4) (Qc_of_Z 32)))
                    "mem"
  ∧ collect_available spec_EPSILON spec_MIN_CPUS spec_MIN_MEM sample_low_mem {["a1"]}
    = Ok ∅
  ∧ allocate_slaves spec_EPSILON spec_MIN_CPUS spec_MIN_MEM 0 {["a1"]} sample_low_mem
    = Ok (sample_low_mem, []).
Proof.
  split_and!; [apply sample_low_mem_reachable | reflexivity | reflexivity | |
              | vm_compute; reflexivity | vm_compute; reflexivity].
  - apply Qc_le_by_decide. vm_compute. reflexivity.
  - apply Qc_le_by_decide. vm_compute. reflexivity.
Qed.

Lemma available_gate_witness :
  initialized sample_idle = true ∧ slaves_in_step sample_idle = true
  ∧ ∃ available s' offers,
      collect_available spec_EPSILON spec_MIN_CPUS spec_MIN_MEM sample_idle {["a1"; "a2"]}
      = Ok available
      ∧ allocate_slaves spec_EPSILON spec_MIN_CPUS spec_MIN_MEM 1 {["a1"; "a2"]} sample_idle
        = Ok (s', offers)
      ∧ (∀ a R, available !! a = Some R ↔
           ∃ F, allocatable sample_idle !! a = Some F
             ∧ a ∈ ({["a1"; "a2"]} : gset SlaveID)
             ∧ (∃ info, slaves sample_idle !! a = Some info
                  ∧ match whitelist sample_idle with
                    | None => True
                    | Some w => hostname info ∈ w
                    end)
             ∧ R = Resources_allocatable spec_EPSILON F
             ∧ spec_MIN_CPUS ≤ Resources_get R "cpus"
             ∧ spec_MIN_MEM < Resources_get R "mem")
      ∧ (∀ f m a h, (f, m) ∈ offers → m !! a = Some h →
           available !! a = Some (expectedResources h))
      ∧ (∀ f m a h w info, (f, m) ∈ offers → m !! a = Some h →
           whitelist sample_idle = Some w → slaves sample_idle !! a = Some info →
           hostname info ∈ w)
      ∧ (0 < spec_MIN_CPUS →
         ∀ f m a h F, (f, m) ∈ offers → m !! a = Some h →
           allocatable sample_idle !! a = Some F →
           spec_MIN_CPUS ≤ Resources_get F "cpus").
Proof.
  split; [reflexivity|]. split; [vm_compute; reflexivity|].
  apply (available_gate spec_EPSILON spec_MIN_CPUS spec_MIN_MEM 1 {["a1"; "a2"]}
           sample_idle); [reflexivity | vm_compute; reflexivity].
Defined.

(** Scenario S6: a slave with a thousandth of a cpu free and plenty of
    memory gets no offer. *)
Example min_viable_gate_sample :
  allocate_slaves spec_EPSILON spec_MIN_CPUS spec_MIN_MEM 0 {["a1"]}
    (set_allocatable {["a1" := cpus_mem (Q2Qc (1 # 1000)) (Qc_of_Z 8192)]} sample_low_mem)
  = Ok (set_allocatable {["a1" := cpus_mem (Q2Qc (1 # 1000)) (Qc_of_Z 8192)]}
                        sample_low_mem, []).
Proof. vm_compute. reflexivity. Qed.

Lemma resourcesUnused_effect_witness :
  initialized sample_busy = true
  ∧ Resources_size (Resources_allocatable spec_EPSILON
       (expectedResources (hints_of (cpus_mem (Qc_of_Z 1) (Qc_of_Z 1024))))) ≠ 0%nat
  ∧ allocated sample_busy !! "F" = Some (cpus_mem (Qc_of_Z 8) (Qc_of_Z 8192))
  ∧ allocatable sample_busy !! "a1" = Some (cpus_mem 0 0)
  ∧ ∃ s',
      resourcesUnused spec_EPSILON spec_DEFAULT_REFUSE_SECONDS 0 "F" "a1"
        (hints_of (cpus_mem (Qc_of_Z 1) (Qc_of_Z 1024))) None sample_busy
      = Ok (s', [])
      ∧ allocated s' =
          <["F" := Resources_sub (cpus_mem (Qc_of_Z 8) (Qc_of_Z 8192))
                                 (cpus_mem (Qc_of_Z 1) (Qc_of_Z 1024))]>
            (allocated sample_busy)
      ∧ allocatable s' =
          <["a1" := Resources_add (cpus_mem 0 0) (cpus_mem (Qc_of_Z 1) (Qc_of_Z 1024))]>
            (allocatable sample_busy)
      ∧ (effective_refuse_seconds spec_DEFAULT_REFUSE_SECONDS None ≠ 0 →
           filters s' =
             filters_put "F"
               (mkRefusedFilter (next_addr sample_busy) "a1"
                  (cpus_mem (Qc_of_Z 1) (Qc_of_Z 1024))
                  (mkTimeout (0 + effective_refuse_seconds spec_DEFAULT_REFUSE_SECONDS None)))
               (filters sample_busy))
      ∧ (effective_refuse_seconds spec_DEFAULT_REFUSE_SECONDS None = 0 →
           filters s' = filters sample_busy).
Proof.
  split; [reflexivity|]. split; [by vm_compute|].
  split; [reflexivity|]. split; [reflexivity|].
  apply (resourcesUnused_effect spec_EPSILON spec_DEFAULT_REFUSE_SECONDS 0 "F" "a1"
           (hints_of (cpus_mem (Qc_of_Z 1) (Qc_of_Z 1024))) None sample_busy
           (cpus_mem (Qc_of_Z 8) (Qc_of_Z 8192)) (cpus_mem 0 0));
    [reflexivity | by vm_compute | reflexivity | reflexivity].
Defined.

(** A negative refusal duration makes a filter all the same; and with
    resources whose allocatable part is empty no filter is made, however
    long the refusal. *)
Lemma filter_made_iff_refusal_positive_fails :
  reachable spec_EPSILON spec_MIN_CPUS spec_MIN_MEM spec_DEFAULT_REFUSE_SECONDS
            sample_busy
  ∧ ¬ 0 < effective_refuse_seconds spec_DEFAULT_REFUSE_SECONDS
          (Some (mkFilters (Some (- Qc_of_Z 1))))
  ∧ (∃ s',
       resourcesUnused spec_EPSILON spec_DEFAULT_REFUSE_SECONDS 0 "F" "a1"
         (hints_of (cpus_mem (Qc_of_Z 1) (Qc_of_Z 1024)))
         (Some (mkFilters (Some (- Qc_of_Z 1)))) sample_busy
       = Ok (s', [])
       ∧ filters_get s' "F"
         = [sample_filter;
            mkRefusedFilter 1 "a1" (cpus_mem (Qc_of_Z 1) (Qc_of_Z 1024))
                            (Timeout_in 0 (- Qc_of_Z 1))])
  ∧ 0 < effective_refuse_seconds spec_DEFAULT_REFUSE_SECONDS
          (Some (mkFilters (Some (Qc_of_Z 5))))
  ∧ resourcesUnused spec_EPSILON spec_DEFAULT_REFUSE_SECONDS 0 "F" "a1"
      (hints_of Resources_empty) (Some (mkFilters (Some (Qc_of_Z 5)))) sample_busy
    = Ok (sample_busy, []).
Proof.
  split_and!.
  - apply sample_busy_reachable.
  - apply Qc_nlt_by_decide. vm_compute. reflexivity.
  - eexists. split; vm_compute; reflexivity.
  - apply Qc_lt_by_decide. vm_compute. reflexivity.
  - vm_compute. reflexivity.
Qed.

Lemma frameworkRemoved_then_recovered_witness :
  initialized sample_busy = true
  ∧ ∃ s1, frameworkRemoved "F" sample_busy = Ok (s1, [])
      ∧ allocatable s1 = allocatable sample_busy
      ∧ filters s1 = delete "F" (filters sample_busy)
      ∧ (∀ now a O, filtered s1 now "F" a O = false)
      ∧ ∃ s2,
          resourcesRecovered spec_EPSILON "F" "a1"
            (hints_of (cpus_mem (Qc_of_Z 8) (Qc_of_Z 8192))) s1 = Ok (s2, [])
          ∧ allocated s2 = allocated s1
          ∧ (∀ F, allocatable sample_busy !! "a1" = Some F →
               Resources_size (Resources_allocatable spec_EPSILON
                  (expectedResources (hints_of (cpus_mem (Qc_of_Z 8) (Qc_of_Z 8192)))))
               ≠ 0%nat →
               allocatable s2 =
                 <["a1" := Resources_add F
                     (expectedResources (hints_of (cpus_mem (Qc_of_Z 8) (Qc_of_Z 8192))))]>
                   (allocatable sample_busy))
          ∧ (allocatable sample_busy !! "a1" = None →
               allocatable s2 = allocatable sample_busy).
Proof.
  split; [reflexivity|].
  apply (frameworkRemoved_then_recovered spec_EPSILON "F" "a1"
           (hints_of (cpus_mem (Qc_of_Z 8) (Qc_of_Z 8192))) sample_busy).
  reflexivity.
Defined.

(** Scenario S5: the slave has nothing free after the removal, and all
    of its 8 cpus once the resources are recovered. *)
Example removal_then_recovery_sample :
  ∃ s2,
    resourcesRecovered spec_EPSILON "F" "a1"
      (hints_of (cpus_mem (Qc_of_Z 8) (Qc_of_Z 8192))) sample_removed = Ok (s2, [])
    ∧ Resources_get (default Resources_empty (allocatable sample_removed !! "a1")) "cpus" = 0
    ∧ Resources_get (default Resources_empty (allocatable s2 !! "a1")) "cpus" = Qc_of_Z 8.
Proof.
  eexists. split_and!; [vm_compute; reflexivity | reflexivity |].
  apply Qc_eq_by_decide. vm_compute. reflexivity.
Qed.

(** Resources under the threshold of [allocatable()] are not added to
    the free resources of a known slave: the call returns at once. *)
Lemma recovered_below_threshold_not_added :
  reachable spec_EPSILON spec_MIN_CPUS spec_MIN_MEM spec_DEFAULT_REFUSE_SECONDS
            sample_busy
  ∧ frameworkRemoved "F" sample_busy = Ok (sample_removed, [])
  ∧ is_Some (slaves sample_removed !! "a1")
  ∧ resourcesRecovered spec_EPSILON "F" "a1" (hints_of sample_tiny) sample_removed
    = Ok (sample_removed, [])
  ∧ allocatable sample_removed !! "a1" = Some (cpus_mem 0 0)
  ∧ Resources_get (Resources_add (cpus_mem 0 0) sample_tiny) "cpus"
    ≠ Resources_get (cpus_mem 0 0) "cpus".
Proof.
  split_and!; [apply sample_busy_reachable | vm_compute; reflexivity | by eexists
              | vm_compute; reflexivity | reflexivity |].
  apply Qc_neq_by_decide. vm_compute. reflexivity.
Qed.

Lemma events_after_frameworkRemoved_witness :
  initialized sample_busy = true
  ∧ ∃ s1, frameworkRemoved "F" sample_busy = Ok (s1, [])
      ∧ frameworkDeactivated "F" s1 = Ok (s1, [])
      ∧ resourcesRequested "F" s1 = Ok (s1, [])
      ∧ (∀ addr, expire "F" addr s1 = Ok (s1, []))
      ∧ offersRevived spec_EPSILON spec_MIN_CPUS spec_MIN_MEM 0 "F" s1
        = batch spec_EPSILON spec_MIN_CPUS spec_MIN_MEM 0 s1
      ∧ (∃ s2,
           resourcesRecovered spec_EPSILON "F" "a1"
             (hints_of (cpus_mem (Qc_of_Z 8) (Qc_of_Z 8192))) s1 = Ok (s2, [])
           ∧ allocated s2 = allocated s1 ∧ filters s2 = filters s1
           ∧ frameworks s2 = frameworks s1)
      ∧ resourcesUnused spec_EPSILON spec_DEFAULT_REFUSE_SECONDS 0 "F" "a1"
          (hints_of (cpus_mem (Qc_of_Z 8) (Qc_of_Z 8192))) None s1 =
          (if bool_decide (Resources_size (Resources_allocatable spec_EPSILON
                 (expectedResources (hints_of (cpus_mem (Qc_of_Z 8) (Qc_of_Z 8192)))))
               = 0%nat)
           then Ok (s1, [])
           else CheckFailed "allocated.contains(frameworkId)").
Proof.
  split; [reflexivity|].
  apply (events_after_frameworkRemoved spec_EPSILON spec_MIN_CPUS spec_MIN_MEM
           spec_DEFAULT_REFUSE_SECONDS 0 "F" "a1"
           (hints_of (cpus_mem (Qc_of_Z 8) (Qc_of_Z 8192))) None sample_busy).
  reflexivity.
Defined.

(** After the removal of the framework, [resourcesUnused] for it stops
    the process on a [CHECK]. *)
Lemma resourcesUnused_after_removal_aborts :
  reachable spec_EPSILON spec_MIN_CPUS spec_MIN_MEM spec_DEFAULT_REFUSE_SECONDS
            sample_busy
  ∧ frameworkRemoved "F" sample_busy = Ok (sample_removed, [])
  ∧ resourcesUnused spec_EPSILON spec_DEFAULT_REFUSE_SECONDS 0 "F" "a1"
      (hints_of (cpus_mem (Qc_of_Z 8) (Qc_of_Z 8192))) None sample_removed
    = CheckFailed "allocated.contains(frameworkId)".
Proof.
  split_and!; [apply sample_busy_reachable | vm_compute; reflexivity..].
Qed.

Lemma empty_allocatable_noop_witness :
  initialized sample_busy = true
  ∧ Resources_size (Resources_allocatable spec_EPSILON
       (expectedResources (hints_of sample_tiny))) = 0%nat
  ∧ resourcesUnused spec_EPSILON spec_DEFAULT_REFUSE_SECONDS 0 "F" "a1"
      (hints_of sample_tiny) (Some (mkFilters (Some (Qc_of_Z 5)))) sample_busy
    = Ok (sample_busy, [])
  ∧ resourcesRecovered spec_EPSILON "F" "a1" (hints_of sample_tiny) sample_busy
    = Ok (sample_busy, []).
Proof.
  split; [reflexivity|]. split; [vm_compute; reflexivity|].
  apply (empty_allocatable_noop spec_EPSILON spec_DEFAULT_REFUSE_SECONDS 0 "F" "a1"
           (hints_of sample_tiny) (Some (mkFilters (Some (Qc_of_Z 5)))) sample_busy);
    [reflexivity | vm_compute; reflexivity].
Defined.

Lemma frameworkDeactivated_detaches_filters_witness :
  initialized sample_busy = true
  ∧ ∃ s', frameworkDeactivated "F" sample_busy = Ok (s', [])
      ∧ filters s' = delete "F" (filters sample_busy)
      ∧ filters_get s' "F" = []
      ∧ (∀ now slaveId O, filtered s' now "F" slaveId O = false)
      ∧ allocated s' = allocated sample_busy
      ∧ allocatable s' = allocatable sample_busy.
Proof.
  split; [reflexivity|].
  apply (frameworkDeactivated_detaches_filters "F" sample_busy). reflexivity.
Defined.

Lemma allocate_order_then_greedy_witness :
  initialized sample_idle = true ∧ slaves_in_step sample_idle = true
  ∧ ∃ available s' offers,
      collect_available spec_EPSILON spec_MIN_CPUS spec_MIN_MEM sample_idle {["a1"; "a2"]}
      = Ok available
      ∧ allocate_slaves spec_EPSILON spec_MIN_CPUS spec_MIN_MEM 1 {["a1"; "a2"]} sample_idle
        = Ok (s', offers)
      ∧ offers.*1 `sublist_of` sorted_frameworks sample_idle
      ∧ NoDup (offers.*1)
      ∧ (∀ f m, (f, m) ∈ offers →
           m ≠ ∅
           ∧ ∀ a h, m !! a = Some h ↔
               ∃ R, available !! a = Some R
                 ∧ h = mkResourceHints R Resources_empty
                 ∧ first_unfiltered sample_idle 1 f a R)
      ∧ (∀ f m, (f, m) ∈ offers →
           allocated s' !! f
           = Some (add_offer (allocated_of (allocated sample_idle) f) m)).
Proof.
  split; [reflexivity|]. split; [vm_compute; reflexivity|].
  destruct (allocate_order_then_greedy spec_EPSILON spec_MIN_CPUS spec_MIN_MEM 1
              {["a1"; "a2"]} sample_idle)
    as (available & s' & offers & H1 & H2 & _ & _ & H3 & H4 & H5 & _ & _ & H6 & _);
    [reflexivity | vm_compute; reflexivity |].
  exists available, s', offers. split_and!; assumption.
Defined.

(** ** The further properties on the sample data *)

Lemma sort_order_independent_witness :
  ["B"; "A"] ≡ₚ (map_to_list (frameworks sample_idle)).*1
  ∧ sort_by (DominantShareComparator (resources sample_idle) (allocated sample_idle))
            ["B"; "A"]
    = sorted_frameworks sample_idle.
Proof.
  assert (["B"; "A"] ≡ₚ (map_to_list (frameworks sample_idle)).*1) as Hp.
  { vm_compute. apply Permutation_swap. }
  split; [exact Hp|]. apply (sort_order_independent sample_idle ["B"; "A"] Hp).
Defined.

Lemma unoffered_iff_all_filter_witness :
  initialized sample_idle = true ∧ slaves_in_step sample_idle = true
  ∧ ∃ available s' offers,
      collect_available spec_EPSILON spec_MIN_CPUS spec_MIN_MEM sample_idle {["a1"; "a2"]}
      = Ok available
      ∧ allocate_slaves spec_EPSILON spec_MIN_CPUS spec_MIN_MEM 1 {["a1"; "a2"]} sample_idle
        = Ok (s', offers)
      ∧ ∀ a R, available !! a = Some R →
          (¬ offered offers a ↔
           ∀ f, is_Some (frameworks sample_idle !! f) →
                filtered sample_idle 1 f a R = true).
Proof.
  split; [reflexivity|]. split; [vm_compute; reflexivity|].
  apply (unoffered_iff_all_filter spec_EPSILON spec_MIN_CPUS spec_MIN_MEM 1
           {["a1"; "a2"]} sample_idle); [reflexivity | vm_compute; reflexivity].
Defined.

Lemma allocate_slaves_frame_witness :
  initialized sample_idle = true ∧ slaves_in_step sample_idle = true
  ∧ ∃ s' offers,
      allocate_slaves spec_EPSILON spec_MIN_CPUS spec_MIN_MEM 1 {["a1"]} sample_idle
      = Ok (s', offers)
      ∧ frameworks s' = frameworks sample_idle ∧ slaves s' = slaves sample_idle
      ∧ resources s' = resources sample_idle ∧ whitelist s' = whitelist sample_idle
      ∧ filters s' = filters sample_idle ∧ next_addr s' = next_addr sample_idle
      ∧ (∀ a, a ∉ ({["a1"]} : gset SlaveID) →
           allocatable s' !! a = allocatable sample_idle !! a)
      ∧ (∀ f, frameworks sample_idle !! f = None →
           allocated s' !! f = allocated sample_idle !! f)
      ∧ dom (allocatable s') = dom (allocatable sample_idle).
Proof.
  split; [reflexivity|]. split; [vm_compute; reflexivity|].
  apply (allocate_slaves_frame spec_EPSILON spec_MIN_CPUS spec_MIN_MEM 1
           {["a1"]} sample_idle); [reflexivity | vm_compute; reflexivity].
Defined.

Lemma reachable_pass_total_witness :
  process_reachable spec_EPSILON spec_MIN_CPUS spec_MIN_MEM spec_DEFAULT_REFUSE_SECONDS
                    sample_dangling
  ∧ well_formed (data sample_dangling) ∧ pointers_ok sample_dangling
  ∧ ∀ now,
      (∀ slaveIds, ∃ s' offers,
         allocate_slaves spec_EPSILON spec_MIN_CPUS spec_MIN_MEM now slaveIds
           (data sample_dangling) = Ok (s', offers) ∧ well_formed s')
      ∧ (∃ s' offers,
           allocate spec_EPSILON spec_MIN_CPUS spec_MIN_MEM now (data sample_dangling)
           = Ok (s', offers))
      ∧ (∀ slaveId, ∃ s' offers,
           allocate_slave spec_EPSILON spec_MIN_CPUS spec_MIN_MEM now slaveId
             (data sample_dangling) = Ok (s', offers))
      ∧ (∃ s' offers,
           batch spec_EPSILON spec_MIN_CPUS spec_MIN_MEM now (data sample_dangling)
           = Ok (s', offers)
           ∧ (∀ frameworkId,
                frameworkId ∈ offers.*1 →
                has_dangling (dangling sample_dangling) frameworkId = true →
                deliver spec_EPSILON spec_MIN_CPUS spec_MIN_MEM spec_DEFAULT_REFUSE_SECONDS
                  now Batch sample_dangling = UseAfterFree)
           ∧ (dangling sample_dangling = ∅ →
              deliver spec_EPSILON spec_MIN_CPUS spec_MIN_MEM spec_DEFAULT_REFUSE_SECONDS
                now Batch sample_dangling
              = Delivered (mkProcess s' ∅ (timers sample_dangling)) offers)).
Proof.
  split; [apply sample_dangling_reachable|].
  apply (reachable_pass_total spec_EPSILON spec_MIN_CPUS spec_MIN_MEM
           spec_DEFAULT_REFUSE_SECONDS sample_dangling sample_dangling_reachable).
Defined.

Lemma resourcesUnused_then_expire_witness :
  initialized (data sample_inactive) = true ∧ registry_ok (data sample_inactive) = true
  ∧ dangling sample_inactive = ∅
  ∧ frameworks (data sample_inactive) !! "A" = None
  ∧ ∃ p1 p2,
      deliver spec_EPSILON spec_MIN_CPUS spec_MIN_MEM spec_DEFAULT_REFUSE_SECONDS 0
        (ResourcesUnused "A" "a1" (hints_of (cpus_mem (Qc_of_Z 4) (Qc_of_Z 1024)))
                         (Some (mkFilters (Some (Qc_of_Z 10))))) sample_inactive
      = Delivered p1 []
      ∧ filters_contains "A" (next_addr (data sample_inactive)) (filters (data p1)) = true
      ∧ enabled (Expire "A" (next_addr (data sample_inactive))) p1 = true
      ∧ deliver spec_EPSILON spec_MIN_CPUS spec_MIN_MEM spec_DEFAULT_REFUSE_SECONDS
          (Qc_of_Z 11) (Expire "A" (next_addr (data sample_inactive))) p1
        = Delivered p2 []
      ∧ filters (data p2) = filters (data sample_inactive)
      ∧ allocated (data p2) = allocated (data p1)
      ∧ allocatable (data p2) = allocatable (data p1)
      ∧ frameworks (data p2) = frameworks (data sample_inactive)
      ∧ slaves (data p2) = slaves (data sample_inactive)
      ∧ registry_ok (data p2) = true
      ∧ dangling p2 =
          (if bool_decide (is_Some (frameworks (data sample_inactive) !! "A"))
           then ∅
           else {[("A", next_addr (data sample_inactive))]})
      ∧ (frameworks (data sample_inactive) !! "A" = None →
         ∀ now2 frameworkInfo s' offers,
           frameworkActivated spec_EPSILON spec_MIN_CPUS spec_MIN_MEM now2 "A"
             frameworkInfo (data p2) = Ok (s', offers) →
           "A" ∈ offers.*1 →
           deliver spec_EPSILON spec_MIN_CPUS spec_MIN_MEM spec_DEFAULT_REFUSE_SECONDS
             now2 (FrameworkActivated "A" frameworkInfo) p2 = UseAfterFree).
Proof.
  split; [reflexivity|]. split; [vm_compute; reflexivity|]. split; [reflexivity|].
  split; [reflexivity|].
  apply (resourcesUnused_then_expire spec_EPSILON spec_MIN_CPUS spec_MIN_MEM
           spec_DEFAULT_REFUSE_SECONDS 0 (Qc_of_Z 11) "A" "a1"
           (hints_of (cpus_mem (Qc_of_Z 4) (Qc_of_Z 1024)))
           (Some (mkFilters (Some (Qc_of_Z 10)))) sample_inactive).
  - reflexivity.
  - vm_compute. reflexivity.
  - reflexivity.
  - vm_compute. lia.
  - vm_compute. by eexists.
  - vm_compute. by eexists.
  - apply Qc_neq_by_decide. vm_compute. reflexivity.
Defined.

Lemma expire_after_deadline_invisible_witness :
  initialized sample_idle = true ∧ slaves_in_step sample_idle = true
  ∧ (∀ x, x ∈ filters_get sample_idle "A" → filter_addr x = 0%nat →
          deadline (filter_timeout x) ≤ Qc_of_Z 11)
  ∧ ∃ s1 s' offers,
      expire "A" 0 sample_idle = Ok (s1, [])
      ∧ allocate_slaves spec_EPSILON spec_MIN_CPUS spec_MIN_MEM (Qc_of_Z 11)
          {["a1"; "a2"]} sample_idle = Ok (s', offers)
      ∧ allocate_slaves spec_EPSILON spec_MIN_CPUS spec_MIN_MEM (Qc_of_Z 11)
          {["a1"; "a2"]} s1 = Ok (set_filters (filters s1) s', offers).
Proof.
  assert (∀ x, x ∈ filters_get sample_idle "A" → filter_addr x = 0%nat →
               deadline (filter_timeout x) ≤ Qc_of_Z 11) as Hdead.
  { intros x Hx _. vm_compute in Hx. apply list_elem_of_singleton in Hx. subst x.
    apply Qc_le_by_decide. vm_compute. reflexivity. }
  split; [reflexivity|]. split; [vm_compute; reflexivity|]. split; [exact Hdead|].
  apply (expire_after_deadline_invisible spec_EPSILON spec_MIN_CPUS spec_MIN_MEM
           (Qc_of_Z 11) {["a1"; "a2"]} "A" 0 sample_idle);
    [reflexivity | vm_compute; reflexivity | exact Hdead].
Defined.

Lemma filters_only_lapse_witness :
  Qc_of_Z 11 ≤ Qc_of_Z 12
  ∧ filtered sample_idle (Qc_of_Z 11) "A" "a1" (cpus_mem (Qc_of_Z 4) (Qc_of_Z 1024))
    = false
  ∧ filtered sample_idle (Qc_of_Z 12) "A" "a1" (cpus_mem (Qc_of_Z 4) (Qc_of_Z 1024))
    = false.
Proof.
  assert (Qc_of_Z 11 ≤ Qc_of_Z 12) as Hle
    by (apply Qc_le_by_decide; vm_compute; reflexivity).
  split; [exact Hle|]. split; [vm_compute; reflexivity|].
  apply (filters_only_lapse sample_idle (Qc_of_Z 11) (Qc_of_Z 12) "A" "a1"
           (cpus_mem (Qc_of_Z 4) (Qc_of_Z 1024)) Hle).
  vm_compute. reflexivity.
Defined.

Lemma allocate_slaves_twice_witness :
  initialized sample_idle = true ∧ slaves_in_step sample_idle = true
  ∧ (0 ≤ spec_MIN_MEM ∨ 0 < spec_MIN_CPUS)
  ∧ ∃ s' offers,
      allocate_slaves spec_EPSILON spec_MIN_CPUS spec_MIN_MEM 1 {["a1"; "a2"]} sample_idle
      = Ok (s', offers)
      ∧ allocate_slaves spec_EPSILON spec_MIN_CPUS spec_MIN_MEM 1 {["a1"; "a2"]} s'
        = Ok (s', []).
Proof.
  assert (0 ≤ spec_MIN_MEM ∨ 0 < spec_MIN_CPUS) as Hmin
    by (left; apply Qc_le_by_decide; vm_compute; reflexivity).
  split; [reflexivity|]. split; [vm_compute; reflexivity|]. split; [exact Hmin|].
  apply (allocate_slaves_twice spec_EPSILON spec_MIN_CPUS spec_MIN_MEM 1
           {["a1"; "a2"]} {["a1"; "a2"]} sample_idle);
    [reflexivity | vm_compute; reflexivity | exact Hmin | reflexivity].
Defined.

Lemma allocate_slave_one_offer_witness :
  initialized sample_idle = true ∧ slaves_in_step sample_idle = true
  ∧ ∃ s' offers,
      allocate_slave spec_EPSILON spec_MIN_CPUS spec_MIN_MEM 1 "a1" sample_idle
      = Ok (s', offers)
      ∧ (offers = []
         ∨ ∃ f R,
             offers = [(f, {["a1" := mkResourceHints R Resources_empty]})]
             ∧ is_available spec_EPSILON spec_MIN_CPUS spec_MIN_MEM sample_idle
                 {["a1"]} "a1" R
             ∧ first_unfiltered sample_idle 1 f "a1" R)
      ∧ ∀ a, a ≠ "a1" → allocatable s' !! a = allocatable sample_idle !! a.
Proof.
  split; [reflexivity|]. split; [vm_compute; reflexivity|].
  apply (allocate_slave_one_offer spec_EPSILON spec_MIN_CPUS spec_MIN_MEM 1 "a1"
           sample_idle); [reflexivity | vm_compute; reflexivity].
Defined.

Lemma sample_idle_well_formed : well_formed sample_idle.
Proof.
  split_and!.
  - reflexivity.
  - vm_compute. reflexivity.
  - apply (bool_decide_unpack _). vm_compute. exact I.
  - vm_compute. reflexivity.
Qed.

Lemma unfiltered_framework_clears_witness :
  well_formed sample_idle
  ∧ (is_Some (frameworks sample_idle !! "A") →
     ∃ s' offers,
       offersRevived spec_EPSILON spec_MIN_CPUS spec_MIN_MEM 1 "A" sample_idle
       = Ok (s', offers)
       ∧ ∀ a R, is_available spec_EPSILON spec_MIN_CPUS spec_MIN_MEM sample_idle
                  (dom (slaves sample_idle)) a R → offered offers a)
  ∧ (frameworks sample_idle !! "A" = None → allocated sample_idle !! "A" = None →
     ∃ s' offers,
       frameworkAdded spec_EPSILON spec_MIN_CPUS spec_MIN_MEM 1 "A" sample_info
         Resources_empty sample_idle = Ok (s', offers)
       ∧ ∀ a R, is_available spec_EPSILON spec_MIN_CPUS spec_MIN_MEM sample_idle
                  (dom (slaves sample_idle)) a R → offered offers a).
Proof.
  split; [exact sample_idle_well_formed|].
  apply (unfiltered_framework_clears spec_EPSILON spec_MIN_CPUS spec_MIN_MEM 1 "A"
           sample_info Resources_empty sample_idle sample_idle_well_formed).
Defined.

Lemma updateWhitelist_effect_witness :
  initialized sample_idle = true ∧ slaves_in_step sample_idle = true
  ∧ ∃ s1 s2,
      updateWhitelist (Some {["host1"]}) sample_idle = Ok (s1, [])
      ∧ updateWhitelist (Some ∅) s1 = Ok (s2, [])
      ∧ updateWhitelist (Some ∅) sample_idle = Ok (s2, [])
      ∧ s2 = set_whitelist (Some ∅) sample_idle
      ∧ ((Some ∅ : option (gset string)) = Some ∅ →
         allocate_slaves spec_EPSILON spec_MIN_CPUS spec_MIN_MEM 1 {["a1"; "a2"]} s2
         = Ok (s2, [])).
Proof.
  split; [reflexivity|]. split; [vm_compute; reflexivity|].
  apply (updateWhitelist_effect spec_EPSILON spec_MIN_CPUS spec_MIN_MEM 1 {["a1"; "a2"]}
           (Some {["host1"]}) (Some ∅) sample_idle);
    [reflexivity | vm_compute; reflexivity].
Defined.
Lemma slaveRemoved_then_returned_witness :
  initialized sample_busy = true
  ∧ slaves sample_busy !! "a1"
    = Some (mkSlaveInfo "host1" (cpus_mem (Qc_of_Z 8) (Qc_of_Z 8192)))
  ∧ ∃ s1 s2,
      slaveRemoved "a1" sample_busy = Ok (s1, [])
      ∧ slaves s1 = delete "a1" (slaves sample_busy)
      ∧ allocatable s1 = delete "a1" (allocatable sample_busy)
      ∧ resources s1
        = Resources_sub (resources sample_busy) (cpus_mem (Qc_of_Z 8) (Qc_of_Z 8192))
      ∧ allocated s1 = allocated sample_busy ∧ filters s1 = filters sample_busy
      ∧ frameworks s1 = frameworks sample_busy
      ∧ slaveRemoved "a1" s1 = CheckFailed "slaves.contains(slaveId)"
      ∧ resourcesRecovered spec_EPSILON "F" "a1"
          (hints_of (cpus_mem (Qc_of_Z 8) (Qc_of_Z 8192))) s1 = Ok (s2, [])
      ∧ allocatable s2 = allocatable s1 ∧ slaves s2 = slaves s1
      ∧ filters s2 = filters s1
      ∧ (Resources_size
           (Resources_allocatable spec_EPSILON
              (expectedResources (hints_of (cpus_mem (Qc_of_Z 8) (Qc_of_Z 8192)))))
         ≠ 0%nat →
         is_Some (allocated sample_busy !! "F") →
         allocated s2
         = sub_at "F" (cpus_mem (Qc_of_Z 8) (Qc_of_Z 8192)) (allocated sample_busy)
         ∧ resourcesUnused spec_EPSILON spec_DEFAULT_REFUSE_SECONDS 1 "F" "a1"
             (hints_of (cpus_mem (Qc_of_Z 8) (Qc_of_Z 8192))) None s1
           = CheckFailed "allocatable.contains(slaveId)").
Proof.
  split; [reflexivity|]. split; [reflexivity|].
  apply (slaveRemoved_then_returned spec_EPSILON spec_DEFAULT_REFUSE_SECONDS 1 "F" "a1"
           (hints_of (cpus_mem (Qc_of_Z 8) (Qc_of_Z 8192))) None
           (mkSlaveInfo "host1" (cpus_mem (Qc_of_Z 8) (Qc_of_Z 8192))) sample_busy);
    reflexivity.
Defined.

Lemma slaveAdded_then_slaveRemoved_witness :
  initialized sample_idle = true ∧ slaves_in_step sample_idle = true
  ∧ slaves sample_idle !! "a3" = None
  ∧ ∃ s1 offers s2,
      slaveAdded spec_EPSILON spec_MIN_CPUS spec_MIN_MEM 1 "a3"
        (mkSlaveInfo "host3" (cpus_mem (Qc_of_Z 2) (Qc_of_Z 512))) ∅ sample_idle
      = Ok (s1, offers)
      ∧ slaveAdded spec_EPSILON spec_MIN_CPUS spec_MIN_MEM 1 "a3"
          (mkSlaveInfo "host3" (cpus_mem (Qc_of_Z 2) (Qc_of_Z 512))) ∅ s1
        = CheckFailed "!slaves.contains(slaveId)"
      ∧ slaveRemoved "a3" s1 = Ok (s2, [])
      ∧ slaves s2 = slaves sample_idle ∧ allocatable s2 = allocatable sample_idle
      ∧ frameworks s2 = frameworks sample_idle ∧ filters s2 = filters sample_idle
      ∧ whitelist s2 = whitelist sample_idle ∧ next_addr s2 = next_addr sample_idle
      ∧ ∀ name, 0 ≤ Resources_get (resources sample_idle) name →
          Resources_get (resources s2) name = Resources_get (resources sample_idle) name.
Proof.
  split; [reflexivity|]. split; [vm_compute; reflexivity|]. split; [reflexivity|].
  apply (slaveAdded_then_slaveRemoved spec_EPSILON spec_MIN_CPUS spec_MIN_MEM 1 "a3"
           (mkSlaveInfo "host3" (cpus_mem (Qc_of_Z 2) (Qc_of_Z 512))) ∅ sample_idle);
    [reflexivity | vm_compute; reflexivity | reflexivity].
Defined.

Lemma offer_declined_restores_slave_witness :
  initialized sample_idle = true ∧ slaves_in_step sample_idle = true
  ∧ ∃ s' offers,
      allocate_slaves spec_EPSILON spec_MIN_CPUS spec_MIN_MEM 1 {["a1"; "a2"]} sample_idle
      = Ok (s', offers)
      ∧ ∀ frameworkId m slaveId hints now' _filters,
          (frameworkId, m) ∈ offers → m !! slaveId = Some hints →
          ∃ s'' F F'',
            resourcesUnused spec_EPSILON spec_DEFAULT_REFUSE_SECONDS now' frameworkId
              slaveId hints _filters s' = Ok (s'', [])
            ∧ allocatable sample_idle !! slaveId = Some F
            ∧ allocatable s'' !! slaveId = Some F''
            ∧ (∀ name, Resources_get F'' name = Resources_get F name)
            ∧ (∀ a, a ≠ slaveId → allocatable s'' !! a = allocatable s' !! a)
            ∧ (∀ f, f ≠ frameworkId → allocated s'' !! f = allocated s' !! f).
Proof.
  split; [reflexivity|]. split; [vm_compute; reflexivity|].
  apply (offer_declined_restores_slave spec_EPSILON spec_MIN_CPUS spec_MIN_MEM
           spec_DEFAULT_REFUSE_SECONDS 1 {["a1"; "a2"]} sample_idle);
    [reflexivity | vm_compute; reflexivity].
Defined.

Lemma refused_offer_not_repeated_witness :
  initialized sample_idle = true ∧ slaves_in_step sample_idle = true
  ∧ ∃ s' offers,
      allocate_slaves spec_EPSILON spec_MIN_CPUS spec_MIN_MEM 1 {["a1"; "a2"]} sample_idle
      = Ok (s', offers)
      ∧ ∀ frameworkId m slaveId hints _filters now1 now2 slaveIds',
          (frameworkId, m) ∈ offers → m !! slaveId = Some hints →
          Resources_size (Resources_allocatable spec_EPSILON (expectedResources hints))
          ≠ 0%nat →
          now1 ≤ now2 →
          now2 < now1 + effective_refuse_seconds spec_DEFAULT_REFUSE_SECONDS _filters →
          ∃ s1 s2 offers2,
            resourcesUnused spec_EPSILON spec_DEFAULT_REFUSE_SECONDS now1 frameworkId
              slaveId hints _filters s' = Ok (s1, [])
            ∧ allocate_slaves spec_EPSILON spec_MIN_CPUS spec_MIN_MEM now2 slaveIds' s1
              = Ok (s2, offers2)
            ∧ ∀ m2, (frameworkId, m2) ∈ offers2 → m2 !! slaveId = None.
Proof.
  split; [reflexivity|]. split; [vm_compute; reflexivity|].
  apply (refused_offer_not_repeated spec_EPSILON spec_MIN_CPUS spec_MIN_MEM
           spec_DEFAULT_REFUSE_SECONDS 1 {["a1"; "a2"]} sample_idle);
    [reflexivity | vm_compute; reflexivity].
Defined.

Lemma frameworkDeactivated_then_back_witness :
  initialized sample_busy = true ∧ slaves_in_step sample_busy = true
  ∧ allocated sample_busy !! "F" = Some (cpus_mem (Qc_of_Z 8) (Qc_of_Z 8192))
  ∧ ∃ s1 s2 offers,
      frameworkDeactivated "F" sample_busy = Ok (s1, [])
      ∧ frameworks s1 !! "F" = None
      ∧ allocated s1 !! "F" = Some (cpus_mem (Qc_of_Z 8) (Qc_of_Z 8192))
      ∧ frameworkAdded spec_EPSILON spec_MIN_CPUS spec_MIN_MEM (Qc_of_Z 12) "F"
          sample_info Resources_empty s1
        = CheckFailed "!allocated.contains(frameworkId)"
      ∧ frameworkActivated spec_EPSILON spec_MIN_CPUS spec_MIN_MEM (Qc_of_Z 12) "F"
          sample_info s1 = Ok (s2, offers)
      ∧ frameworks s2 !! "F" = Some sample_info
      ∧ (∀ m, ("F", m) ∈ offers →
           allocated s2 !! "F"
           = Some (add_offer (cpus_mem (Qc_of_Z 8) (Qc_of_Z 8192)) m))
      ∧ ("F" ∉ offers.*1 →
         allocated s2 !! "F" = Some (cpus_mem (Qc_of_Z 8) (Qc_of_Z 8192))).
Proof.
  split; [reflexivity|]. split; [vm_compute; reflexivity|]. split; [reflexivity|].
  apply (frameworkDeactivated_then_back spec_EPSILON spec_MIN_CPUS spec_MIN_MEM
           (Qc_of_Z 12) "F" sample_info Resources_empty
           (cpus_mem (Qc_of_Z 8) (Qc_of_Z 8192)) sample_busy);
    [reflexivity | vm_compute; reflexivity | reflexivity].
Defined.

Lemma resourcesUnused_zero_refusal_witness :
  effective_refuse_seconds spec_DEFAULT_REFUSE_SECONDS (Some (mkFilters (Some 0))) = 0
  ∧ is_Some (allocated sample_busy !! "F")
  ∧ is_Some (allocatable sample_busy !! "a1")
  ∧ resourcesUnused spec_EPSILON spec_DEFAULT_REFUSE_SECONDS 1 "F" "a1"
      (hints_of (cpus_mem (Qc_of_Z 8) (Qc_of_Z 8192))) (Some (mkFilters (Some 0)))
      sample_busy
    = resourcesRecovered spec_EPSILON "F" "a1"
        (hints_of (cpus_mem (Qc_of_Z 8) (Qc_of_Z 8192))) sample_busy.
Proof.
  assert (is_Some (allocated sample_busy !! "F")) as Hf by (by eexists).
  assert (is_Some (allocatable sample_busy !! "a1")) as Ha by (by eexists).
  split; [reflexivity|]. split; [exact Hf|]. split; [exact Ha|].
  apply (resourcesUnused_zero_refusal spec_EPSILON spec_DEFAULT_REFUSE_SECONDS 1 "F" "a1"
           (hints_of (cpus_mem (Qc_of_Z 8) (Qc_of_Z 8192))) (Some (mkFilters (Some 0)))
           sample_busy eq_refl Hf Ha).
Defined.

Lemma slaveAdded_conserves_witness :
  initialized sample_idle = true ∧ slaves_in_step sample_idle = true
  ∧ slaves sample_idle !! "a3" = None
  ∧ (∀ f U, ({["A" := cpus_mem 1 (Qc_of_Z 256)]} : gmap FrameworkID Resources) !! f
            = Some U →
       is_Some (frameworks sample_idle !! f) ∧ 0 ≤ Resources_get U "cpus")
  ∧ total_scalar ({["A" := cpus_mem 1 (Qc_of_Z 256)]} : gmap FrameworkID Resources)
      "cpus"
    ≤ Resources_get (cpus_mem (Qc_of_Z 2) (Qc_of_Z 512)) "cpus"
  ∧ conserved sample_idle "cpus"
  ∧ ∃ s1 offers,
      slaveAdded spec_EPSILON spec_MIN_CPUS spec_MIN_MEM 1 "a3"
        (mkSlaveInfo "host3" (cpus_mem (Qc_of_Z 2) (Qc_of_Z 512)))
        {["A" := cpus_mem 1 (Qc_of_Z 256)]} sample_idle = Ok (s1, offers)
      ∧ conserved s1 "cpus".
Proof.
  assert (∀ f U, ({["A" := cpus_mem 1 (Qc_of_Z 256)]} : gmap FrameworkID Resources) !! f
                 = Some U →
            is_Some (frameworks sample_idle !! f) ∧ 0 ≤ Resources_get U "cpus") as Hused.
  { intros f U [<- <-]%lookup_singleton_Some. split; [by eexists|].
    apply Qc_le_by_decide. vm_compute. reflexivity. }
  assert (total_scalar ({["A" := cpus_mem 1 (Qc_of_Z 256)]} : gmap FrameworkID Resources)
            "cpus"
          ≤ Resources_get (cpus_mem (Qc_of_Z 2) (Qc_of_Z 512)) "cpus") as Hle
    by (apply Qc_le_by_decide; vm_compute; reflexivity).
  assert (conserved sample_idle "cpus") as Hcons
    by (apply Qc_eq_by_decide; vm_compute; reflexivity).
  split; [reflexivity|]. split; [vm_compute; reflexivity|]. split; [reflexivity|].
  split; [exact Hused|]. split; [exact Hle|]. split; [exact Hcons|].
  apply (slaveAdded_conserves spec_EPSILON spec_MIN_CPUS spec_MIN_MEM 1 "a3"
           (mkSlaveInfo "host3" (cpus_mem (Qc_of_Z 2) (Qc_of_Z 512)))
           {["A" := cpus_mem 1 (Qc_of_Z 256)]} sample_idle "cpus");
    [reflexivity | vm_compute; reflexivity | reflexivity | exact Hused | exact Hle
    | exact Hcons].
Defined.

Lemma replay_slave_then_framework_witness :
  initialized sample_idle = true ∧ slaves_in_step sample_idle = true
  ∧ slaves sample_idle !! "a3" = None
  ∧ frameworks sample_idle !! "C" = None ∧ allocated sample_idle !! "C" = None
  ∧ 0 ≤ Resources_get (cpus_mem 1 (Qc_of_Z 256)) "cpus"
  ∧ Resources_get (cpus_mem 1 (Qc_of_Z 256)) "cpus"
    ≤ Resources_get (cpus_mem (Qc_of_Z 2) (Qc_of_Z 512)) "cpus"
  ∧ conserved sample_idle "cpus"
  ∧ ∃ s1 offers1 s2 offers2,
      slaveAdded spec_EPSILON spec_MIN_CPUS spec_MIN_MEM 1 "a3"
        (mkSlaveInfo "host3" (cpus_mem (Qc_of_Z 2) (Qc_of_Z 512)))
        {["C" := cpus_mem 1 (Qc_of_Z 256)]} sample_idle = Ok (s1, offers1)
      ∧ total_scalar (allocated s1) "cpus" + total_scalar (allocatable s1) "cpus"
        + Resources_get (cpus_mem 1 (Qc_of_Z 256)) "cpus"
        = total_scalar (slave_resources <$> slaves s1) "cpus"
      ∧ frameworkAdded spec_EPSILON spec_MIN_CPUS spec_MIN_MEM (Qc_of_Z 2) "C"
          sample_info (cpus_mem 1 (Qc_of_Z 256)) s1 = Ok (s2, offers2)
      ∧ conserved s2 "cpus".
Proof.
  assert (0 ≤ Resources_get (cpus_mem 1 (Qc_of_Z 256)) "cpus") as H0
    by (apply Qc_le_by_decide; vm_compute; reflexivity).
  assert (Resources_get (cpus_mem 1 (Qc_of_Z 256)) "cpus"
          ≤ Resources_get (cpus_mem (Qc_of_Z 2) (Qc_of_Z 512)) "cpus") as Hle
    by (apply Qc_le_by_decide; vm_compute; reflexivity).
  assert (conserved sample_idle "cpus") as Hcons
    by (apply Qc_eq_by_decide; vm_compute; reflexivity).
  split; [reflexivity|]. split; [vm_compute; reflexivity|]. split; [reflexivity|].
  split; [reflexivity|]. split; [reflexivity|].
  split; [exact H0|]. split; [exact Hle|]. split; [exact Hcons|].
  apply (replay_slave_then_framework spec_EPSILON spec_MIN_CPUS spec_MIN_MEM 1 (Qc_of_Z 2)
           "a3" (mkSlaveInfo "host3" (cpus_mem (Qc_of_Z 2) (Qc_of_Z 512)))
           "C" sample_info (cpus_mem 1 (Qc_of_Z 256)) sample_idle "cpus");
    [reflexivity | vm_compute; reflexivity | reflexivity | reflexivity | reflexivity
    | exact H0 | exact Hle | exact Hcons].
Defined.

Lemma first_framework_takes_all_witness :
  initialized sample_unequal = true ∧ slaves_in_step sample_unequal = true
  ∧ head (sorted_frameworks sample_unequal) = Some "B"
  ∧ filters_get sample_unequal "B" = []
  ∧ (∃ available s' offers,
       collect_available spec_EPSILON spec_MIN_CPUS spec_MIN_MEM sample_unequal
         {["a0"; "a1"; "a2"]} = Ok available
       ∧ allocate_slaves spec_EPSILON spec_MIN_CPUS spec_MIN_MEM 1 {["a0"; "a1"; "a2"]}
           sample_unequal = Ok (s', offers)
       ∧ offers =
           (if decide (available = ∅) then []
            else [("B", (λ R, mkResourceHints R Resources_empty) <$> available)])
       ∧ ∀ f, is_Some (frameworks sample_unequal !! f) → f ≠ "B" →
              comes_before sample_unequal "B" f)
  ∧ (pass ← allocate_slaves spec_EPSILON spec_MIN_CPUS spec_MIN_MEM 1
              {["a0"; "a1"; "a2"]} sample_unequal;
     Ok pass.2)
    = Ok [("B", {["a1" := hints_of (cpus_mem (Qc_of_Z 4) (Qc_of_Z 1024));
                  "a2" := hints_of (cpus_mem (Qc_of_Z 4) (Qc_of_Z 1024))]})].
Proof.
  split; [reflexivity|]. split; [vm_compute; reflexivity|].
  split; [vm_compute; reflexivity|]. split; [reflexivity|].
  split.
  - apply (first_framework_takes_all spec_EPSILON spec_MIN_CPUS spec_MIN_MEM 1
             {["a0"; "a1"; "a2"]} "B" sample_unequal);
      [reflexivity | vm_compute; reflexivity | vm_compute; reflexivity | reflexivity].
  - apply offers_eq_by_decide. vm_compute. reflexivity.
Defined.

Lemma frameworkRemoved_then_frameworkAdded_witness :
  initialized sample_busy = true ∧ slaves_in_step sample_busy = true
  ∧ ∃ s1 s2 offers,
      frameworkRemoved "F" sample_busy = Ok (s1, [])
      ∧ frameworks s1 !! "F" = None
      ∧ allocated s1 !! "F" = None
      ∧ filters s1 !! "F" = None
      ∧ frameworkAdded spec_EPSILON spec_MIN_CPUS spec_MIN_MEM 1 "F" sample_info
          (cpus_mem (Qc_of_Z 8) (Qc_of_Z 8192)) s1 = Ok (s2, offers)
      ∧ frameworks s2 !! "F" = Some sample_info
      ∧ (∀ m, ("F", m) ∈ offers →
           allocated s2 !! "F"
           = Some (add_offer (cpus_mem (Qc_of_Z 8) (Qc_of_Z 8192)) m))
      ∧ ("F" ∉ offers.*1 →
         allocated s2 !! "F" = Some (cpus_mem (Qc_of_Z 8) (Qc_of_Z 8192)))
      ∧ ∀ a R, is_available spec_EPSILON spec_MIN_CPUS spec_MIN_MEM sample_busy
                 (dom (slaves sample_busy)) a R → offered offers a.
Proof.
  split; [reflexivity|]. split; [vm_compute; reflexivity|].
  apply (frameworkRemoved_then_frameworkAdded spec_EPSILON spec_MIN_CPUS spec_MIN_MEM 1
           "F" sample_info (cpus_mem (Qc_of_Z 8) (Qc_of_Z 8192)) sample_busy);
    [reflexivity | vm_compute; reflexivity].
Defined.

(** The refusal on the sample: after the pass at time 1, ["A"] declines
    the second slave for the default five seconds; a pass at time 3
    gives the slave to ["B"], a pass at time 7 to ["A"], which holds
    nothing and comes first again. *)
Example refusal_sample :
  (pass ← allocate_slaves spec_EPSILON spec_MIN_CPUS spec_MIN_MEM 1 {["a1"; "a2"]}
            sample_idle;
   declined ← resourcesUnused spec_EPSILON spec_DEFAULT_REFUSE_SECONDS 1 "A" "a2"
                (hints_of (cpus_mem (Qc_of_Z 4) (Qc_of_Z 1024))) None pass.1;
   again ← allocate_slaves spec_EPSILON spec_MIN_CPUS spec_MIN_MEM (Qc_of_Z 3)
             {["a1"; "a2"]} declined.1;
   Ok again.2)
  = Ok [("B", {["a2" := hints_of (cpus_mem (Qc_of_Z 4) (Qc_of_Z 1024))]})]
  ∧ (pass ← allocate_slaves spec_EPSILON spec_MIN_CPUS spec_MIN_MEM 1 {["a1"; "a2"]}
              sample_idle;
     declined ← resourcesUnused spec_EPSILON spec_DEFAULT_REFUSE_SECONDS 1 "A" "a2"
                  (hints_of (cpus_mem (Qc_of_Z 4) (Qc_of_Z 1024))) None pass.1;
     again ← allocate_slaves spec_EPSILON spec_MIN_CPUS spec_MIN_MEM (Qc_of_Z 7)
               {["a1"; "a2"]} declined.1;
     Ok again.2)
    = Ok [("A", {["a2" := hints_of (cpus_mem (Qc_of_Z 4) (Qc_of_Z 1024))]})].
Proof.
  split; apply offers_eq_by_decide; vm_compute; reflexivity.
Qed.

(** A framework is deactivated, refuses what it holds, and the filter
    expires while the framework is not active: [expire] deletes the
    filter and leaves its entry.  When the framework is activated again,
    the pass offers it the slave and goes through the entry of the
    deleted filter. *)
Example use_after_free_sample :
  run spec_EPSILON spec_MIN_CPUS spec_MIN_MEM spec_DEFAULT_REFUSE_SECONDS
      (sample_inactive_trace ++ sample_refusal_trace
       ++ [(Qc_of_Z 12, FrameworkActivated "A" sample_info)])
      (mkProcess (initialize State_new) ∅ ∅)
  = Some UseAfterFree
  ∧ deliver spec_EPSILON spec_MIN_CPUS spec_MIN_MEM spec_DEFAULT_REFUSE_SECONDS
      (Qc_of_Z 13) Batch sample_dangling
    = UseAfterFree.
Proof.
  split.
  - apply outcome_eq_by_decide. vm_compute. reflexivity.
  - apply (inj Some). apply outcome_eq_by_decide. vm_compute. reflexivity.
Qed.

(** The division on doubles on some quotients: one third, one tenth,
    two thirds and eight thirds are rounded, one half and three are
    exact, the quotient of the two allocations of the tie by 3 is the
    double nearest to 0.01, and a quotient below the normal range is
    rounded to a multiple of [2 ^ -1074]. *)
Example double_div_sample :
  double_div 1 (Qc_of_Z 3) = Q2Qc (6004799503160661 # 18014398509481984)
  ∧ double_div 1 (Qc_of_Z 10) = Q2Qc (3602879701896397 # 36028797018963968)
  ∧ double_div (Qc_of_Z 2) (Qc_of_Z 3) = Q2Qc (6004799503160661 # 9007199254740992)
  ∧ double_div (Qc_of_Z 8) (Qc_of_Z 3) = Q2Qc (6004799503160661 # 2251799813685248)
  ∧ double_div 1 (Qc_of_Z 2) = Q2Qc (1 # 2)
  ∧ double_div (Qc_of_Z 3) 1 = Qc_of_Z 3
  ∧ double_div (Resources_get sample_tie_B "cpus") (Qc_of_Z 3)
    = Q2Qc (5764607523034235 # 576460752303423488)
  ∧ double_div (Q2Qc (20240225330731 # 2 ^ 1074)) (Qc_of_Z 3)
    = Q2Qc (6746741776910 # 2 ^ 1074).
Proof.
  split_and!; apply Qc_eq_by_decide; vm_compute; reflexivity.
Qed.
